(** * Wellness chat front ends: a shallow embedding of the two [App.js] files

    [src/ibm-proj/frontend/src/App.js] is the streaming wellness chat screen
    (component [WellnessChat]); [src/src/App.js] is the static chat shell.

    Conventions of the embedding.
    - A JavaScript string is a Rocq [string] holding its UTF-8 bytes; the
      operations the code uses ([startsWith], [slice], [split], [trim],
      [+=]) are written on these bytes.
    - Values coming out of [JSON.parse] are [JSValue]s; numbers are IEEE
      doubles, kept as an exact mantissa and binary exponent.
    - The network is an oracle: what [fetch], [getReader], [read] and
      [text] deliver is an argument of [sendMessage].  A chunk is the text
      [decoder.decode(value)] returned for one [reader.read()].
    - React state is a record.  A setter that is given a value is
      applied where the code calls it.  A function given to
      [setMessages] is run by React when it next renders, which is after
      the run of code that handed it over: the one function that reads
      data the code changes meanwhile, that of the [done] branch, is
      kept until then (see [Turn] and [commit]).  Toasts and [fetch]
      calls are recorded in an effect log; [console] output is not
      modelled. *)

From Stdlib Require Import String Ascii List ZArith Lia Bool Arith DecimalString.
Import ListNotations.
Open Scope string_scope.

(** ** JavaScript strings *)

Module JSString.

Definition LF : ascii := "010"%char.
Definition CR : ascii := "013"%char.
Definition TAB : ascii := "009"%char.
Definition QUOTE : ascii := "034"%char.

(** Text with double quotes in it is written below with single quotes:
    [quoted] puts the double quotes back. *)
Fixpoint quoted (s : string) : string :=
  match s with
  | EmptyString => EmptyString
  | String a r => String (if Ascii.eqb a "'" then QUOTE else a) (quoted r)
  end.

(** [s.startsWith(p)] *)
Definition startsWith (p s : string) : bool := String.prefix p s.

(** [s.slice(n)] for [0 <= n] *)
Fixpoint slice (n : nat) (s : string) : string :=
  match n, s with
  | O, _ => s
  | S _, EmptyString => EmptyString
  | S k, String _ r => slice k r
  end.

(** [s.split(c)] for a one-character separator: never the empty list. *)
Fixpoint split (c : ascii) (s : string) : list string :=
  match s with
  | EmptyString => [EmptyString]
  | String a r =>
      if Ascii.eqb a c then EmptyString :: split c r
      else match split c r with
           | h :: t => String a h :: t
           | [] => [String a EmptyString]
           end
  end.

(** [l.join(sep)] *)
Fixpoint join (sep : string) (l : list string) : string :=
  match l with
  | [] => EmptyString
  | [x] => x
  | x :: r => x ++ sep ++ join sep r
  end.

(** White space and line terminators of ECMAScript, as UTF-8:
    one byte (TAB, LF, VT, FF, CR, SP), two bytes (U+00A0) and three
    bytes (U+1680, U+2000..U+200A, U+2028, U+2029, U+202F, U+205F,
    U+3000, U+FEFF). *)
Definition is_ws1 (a : ascii) : bool :=
  let n := nat_of_ascii a in
  (((9 <=? n) && (n <=? 13)) || (n =? 32))%nat.

Definition is_ws2 (a b : ascii) : bool :=
  ((nat_of_ascii a =? 194) && (nat_of_ascii b =? 160))%nat.

Definition is_ws3 (a b c : ascii) : bool :=
  let x := nat_of_ascii a in
  let y := nat_of_ascii b in
  let z := nat_of_ascii c in
  (((x =? 225) && (y =? 154) && (z =? 128))
   || ((x =? 226) && (y =? 128)
         && (((128 <=? z) && (z <=? 138)) || (z =? 168) || (z =? 169) || (z =? 175)))
   || ((x =? 226) && (y =? 129) && (z =? 159))
   || ((x =? 227) && (y =? 128) && (z =? 128))
   || ((x =? 239) && (y =? 187) && (z =? 191)))%nat.

(** [s.trimStart()] *)
Fixpoint trimStart (s : string) : string :=
  match s with
  | EmptyString => EmptyString
  | String a r =>
      if is_ws1 a then trimStart r
      else match r with
           | String b r2 =>
               if is_ws2 a b then trimStart r2
               else match r2 with
                    | String c r3 => if is_ws3 a b c then trimStart r3 else s
                    | EmptyString => s
                    end
           | EmptyString => s
           end
  end.

Definition isEmpty (s : string) : bool :=
  match s with EmptyString => true | _ => false end.

(** [s.trimEnd()]: the tail is dropped from the point on where only white
    space follows. *)
Fixpoint trimEnd (s : string) : string :=
  match s with
  | EmptyString => EmptyString
  | String a r => if isEmpty (trimStart s) then EmptyString else String a (trimEnd r)
  end.

(** [s.trim()] *)
Definition trim (s : string) : string := trimEnd (trimStart s).

End JSString.

(** ** Numbers

    A JavaScript number that [JSON.parse] can produce: a signed zero, a
    finite binary64 value [m * 2^e], or an infinity (a literal beyond the
    double range).  [of_decimal] is the round-to-nearest-even reading of a
    decimal literal, [toString] is [Number.prototype.toString]: the
    shortest digit string that reads back as the same double. *)

Module Number.

Inductive Double : Type :=
| Zero (neg : bool)
| Finite (neg : bool) (m : positive) (e : Z)
| Infinity (neg : bool).

Definition eqb (x y : Double) : bool :=
  match x, y with
  | Zero a, Zero b => Bool.eqb a b
  | Finite a m e, Finite b m' e' => Bool.eqb a b && Pos.eqb m m' && Z.eqb e e'
  | Infinity a, Infinity b => Bool.eqb a b
  | _, _ => false
  end.

Definition abs (x : Double) : Double :=
  match x with
  | Zero _ => Zero false
  | Finite _ m e => Finite false m e
  | Infinity _ => Infinity false
  end.

(** [n / d] rounded to the nearest integer, ties to even ([0 <= n], [0 < d]). *)
Definition div_round_even (n d : Z) : Z :=
  let q := (n / d)%Z in
  let r := (n mod d)%Z in
  match (2 * r ?= d)%Z with
  | Lt => q
  | Gt => (q + 1)%Z
  | Eq => if Z.even q then q else (q + 1)%Z
  end.

(** The double nearest to the rational [n / d] ([0 <= n], [0 < d]). *)
Definition of_ratio (neg : bool) (n d : Z) : Double :=
  if (n =? 0)%Z then Zero neg
  else
    let l := (Z.log2 n - Z.log2 d)%Z in
    let fl :=
      if (0 <=? l)%Z
      then (if (n <? d * 2 ^ l)%Z then l - 1 else l)%Z
      else (if (n * 2 ^ (- l) <? d)%Z then l - 1 else l)%Z in
    let e := Z.max (fl - 52) (-1074) in
    let q :=
      if (0 <=? e)%Z then div_round_even n (d * 2 ^ e)
      else div_round_even (n * 2 ^ (- e)) d in
    let q' := if (q =? 2 ^ 53)%Z then (2 ^ 52)%Z else q in
    let e' := if (q =? 2 ^ 53)%Z then (e + 1)%Z else e in
    if (q' =? 0)%Z then Zero neg
    else if (971 <? e')%Z then Infinity neg
    else Finite neg (Z.to_pos q') e'.

(** The double denoted by the decimal [m * 10^e10] ([0 <= m]). *)
Definition of_decimal (neg : bool) (m e10 : Z) : Double :=
  if (m =? 0)%Z then Zero neg
  else if (400 <? e10)%Z then Infinity neg
  else if ((Z.log2 m + 1) / 3 + 1 + e10 <? -330)%Z then Zero neg
  else if (0 <=? e10)%Z then of_ratio neg (m * 10 ^ e10) 1
  else of_ratio neg m (10 ^ (- e10)).

(** [10^t <= n / d] *)
Definition pow10_le (t n d : Z) : bool :=
  if (0 <=? t)%Z then (10 ^ t * d <=? n)%Z else (d <=? n * 10 ^ (- t))%Z.

Fixpoint climb (fuel : nat) (t n d : Z) : Z :=
  match fuel with
  | O => t
  | S f => if pow10_le (t + 1) n d then climb f (t + 1)%Z n d else t
  end.

(** [floor (log10 (n / d))] for [0 < n], [0 < d]. *)
Definition ilog10 (n d : Z) : Z :=
  let t0 := ((Z.log2 n - Z.log2 d) * 1233 / 4096 - 2)%Z in
  climb 8 t0 n d.

(** [floor (n / d * 10^p)] *)
Definition scale_floor (n d p : Z) : Z :=
  if (0 <=? p)%Z then (n * 10 ^ p / d)%Z else (n / (d * 10 ^ (- p)))%Z.

(** [2 * n / d ?= c * 10^p] *)
Definition cmp_twice (n d c p : Z) : comparison :=
  if (0 <=? p)%Z then (2 * n ?= c * 10 ^ p * d)%Z
  else (2 * n * 10 ^ (- p) ?= c * d)%Z.

(** The digits [s] and the exponent [n] of the shortest decimal
    [s * 10^(n-k)], [k] digits long, that reads back as [x = n0/d0];
    among two such decimals the one closer to [x]. *)
Fixpoint shortest (fuel : nat) (k : Z) (x : Double) (n0 d0 n : Z) : Z * Z :=
  let lo := scale_floor n0 d0 (k - n) in
  let hi := (lo + 1)%Z in
  let ok_lo := eqb (of_decimal false lo (n - k)) x in
  let ok_hi := eqb (of_decimal false hi (n - k)) x in
  let pick_hi := if (hi =? 10 ^ k)%Z then (10 ^ (k - 1), n + 1)%Z else (hi, n) in
  match ok_lo, ok_hi with
  | true, false => (lo, n)
  | false, true => pick_hi
  | true, true =>
      match cmp_twice n0 d0 (2 * lo + 1) (n - k) with
      | Lt => (lo, n)
      | Gt => pick_hi
      | Eq => if Z.even lo then (lo, n) else pick_hi
      end
  | false, false =>
      match fuel with
      | O => (lo, n)
      | S f => shortest f (k + 1) x n0 d0 n
      end
  end.

Definition digits (z : Z) : string :=
  DecimalString.NilZero.string_of_uint (N.to_uint (Z.to_N z)).

Fixpoint zeros (n : nat) : string :=
  match n with
  | O => EmptyString
  | S k => String "0" (zeros k)
  end.

Definition take (n : nat) (s : string) : string := substring 0 n s.

(** The text of a positive finite number from its digits [s] and its
    decimal exponent [n] (ECMAScript, Number::toString, steps 6 to 10). *)
Definition format (s n : Z) : string :=
  let ds := digits s in
  let k := Z.of_nat (String.length ds) in
  if ((k <=? n) && (n <=? 21))%Z then ds ++ zeros (Z.to_nat (n - k))
  else if ((0 <? n) && (n <=? 21))%Z
  then take (Z.to_nat n) ds ++ "." ++ JSString.slice (Z.to_nat n) ds
  else if ((-6 <? n) && (n <=? 0))%Z then "0." ++ zeros (Z.to_nat (- n)) ++ ds
  else
    let ex := (if (n - 1 <? 0)%Z then "-" else "+") ++ digits (Z.abs (n - 1)) in
    if (k =? 1)%Z then ds ++ "e" ++ ex
    else take 1 ds ++ "." ++ JSString.slice 1 ds ++ "e" ++ ex.

(** [Number.prototype.toString.call(x)], radix 10. *)
Definition toString (x : Double) : string :=
  match x with
  | Zero _ => "0"
  | Infinity neg => if neg then "-Infinity" else "Infinity"
  | Finite neg m e =>
      let n0 := if (0 <=? e)%Z then (Z.pos m * 2 ^ e)%Z else Z.pos m in
      let d0 := if (0 <=? e)%Z then 1%Z else (2 ^ (- e))%Z in
      let n := (ilog10 n0 d0 + 1)%Z in
      let '(s, n') := shortest 17 1 (abs x) n0 d0 n in
      (if neg then "-" else EmptyString) ++ format s n'
  end.

(** The text of the number read from the decimal [m * 10^e10]. *)
Definition show (neg : bool) (m e10 : Z) : string := toString (of_decimal neg m e10).

End Number.

(** ** Values *)

#[local] Set Warnings "-register-all".

Inductive JSValue : Type :=
| JUndefined
| JNull
| JBool (b : bool)
| JNumber (x : Number.Double)
| JString (s : string)
| JArray (items : list JSValue)
| JObject (props : list (string * JSValue)).

Module JS.

(** Own property [k] of an object built by [JSON.parse]. *)
Fixpoint own (props : list (string * JSValue)) (k : string) : option JSValue :=
  match props with
  | [] => None
  | (k', v) :: r => if String.eqb k' k then Some v else own r k
  end.

(** [CreateDataProperty]: a key met again keeps its place and takes the
    new value. *)
Fixpoint define (props : list (string * JSValue)) (k : string) (v : JSValue)
  : list (string * JSValue) :=
  match props with
  | [] => [(k, v)]
  | (k', v') :: r =>
      if String.eqb k' k then (k, v) :: r else (k', v') :: define r k v
  end.

(** [v.k] for a property name [k] that no built-in prototype defines
    (the source reads [type], [content], [sources], [web_sources],
    [web_searched], [topics] and [id]).  [None] is the TypeError of a
    read on [undefined] or [null]. *)
Definition Get (v : JSValue) (k : string) : option JSValue :=
  match v with
  | JUndefined | JNull => None
  | JObject props =>
      match own props k with
      | Some x => Some x
      | None => Some JUndefined
      end
  | _ => Some JUndefined
  end.

(** [ToString(v)], which is also what [s += v] appends.  An object
    answers [[object Object]] through [Object.prototype.toString] unless
    an own property [toString] hides it; an array joins its elements with
    commas, [undefined] and [null] giving the empty string.  [None] is
    the TypeError "Cannot convert object to primitive value". *)
Fixpoint ToString (v : JSValue) : option string :=
  match v with
  | JUndefined => Some "undefined"
  | JNull => Some "null"
  | JBool b => Some (if b then "true" else "false")
  | JNumber x => Some (Number.toString x)
  | JString s => Some s
  | JArray items =>
      option_map (JSString.join ",")
      ((fix elems (l : list JSValue) : option (list string) :=
         match l with
         | [] => Some []
         | x :: r =>
             match (match x with
                    | JUndefined | JNull => Some EmptyString
                    | _ => ToString x
                    end), elems r with
             | Some sx, Some sr => Some (sx :: sr)
             | _, _ => None
             end
         end) items)
  | JObject props =>
      match own props "toString" with
      | Some _ => None
      | None => Some "[object Object]"
      end
  end.

(** [s += v] *)
Definition append (s : string) (v : JSValue) : option string :=
  option_map (String.append s) (ToString v).

(** [v === k] for a string literal [k] *)
Definition is_string (v : JSValue) (k : string) : bool :=
  match v with
  | JString s => String.eqb s k
  | _ => false
  end.

(** [typeof v === "number"] *)
Definition is_number (v : JSValue) : bool :=
  match v with
  | JNumber _ => true
  | _ => false
  end.

(** [ToBoolean(v)] *)
Definition truthy (v : JSValue) : bool :=
  match v with
  | JUndefined | JNull => false
  | JBool b => b
  | JNumber (Number.Zero _) => false
  | JNumber _ => true
  | JString s => negb (JSString.isEmpty s)
  | JArray _ | JObject _ => true
  end.

(** [a || b] *)
Definition or (a b : JSValue) : JSValue := if truthy a then a else b.

End JS.

(** ** [JSON.parse]

    The grammar of ECMA-404 as [JSON.parse] reads it: white space is SP,
    TAB, LF and CR; strings take no raw control character; [\uXXXX]
    escapes give UTF-16 code units, a surrogate pair giving one code
    point; a number is read as the nearest double; a repeated key keeps
    the last value.  [None] is the SyntaxError. *)

Module JSON.

Definition is_ws (a : ascii) : bool :=
  let n := nat_of_ascii a in
  ((n =? 32) || (n =? 9) || (n =? 10) || (n =? 13))%nat.

Fixpoint skip_ws (s : string) : string :=
  match s with
  | String a r => if is_ws a then skip_ws r else s
  | EmptyString => EmptyString
  end.

Definition digit_val (a : ascii) : option Z :=
  let n := nat_of_ascii a in
  if ((48 <=? n) && (n <=? 57))%nat then Some (Z.of_nat (n - 48)) else None.

Definition hex_val (a : ascii) : option N :=
  let n := nat_of_ascii a in
  if ((48 <=? n) && (n <=? 57))%nat then Some (N.of_nat (n - 48))
  else if ((65 <=? n) && (n <=? 70))%nat then Some (N.of_nat (n - 55))
  else if ((97 <=? n) && (n <=? 102))%nat then Some (N.of_nat (n - 87))
  else None.

(** The longest prefix of decimal digits and what follows it. *)
Fixpoint span_digits (s : string) : string * string :=
  match s with
  | String a r =>
      match digit_val a with
      | Some _ => let (d, rest) := span_digits r in (String a d, rest)
      | None => (EmptyString, s)
      end
  | EmptyString => (EmptyString, EmptyString)
  end.

Fixpoint Z_of_digits (acc : Z) (s : string) : Z :=
  match s with
  | String a r =>
      match digit_val a with
      | Some d => Z_of_digits (10 * acc + d) r
      | None => acc
      end
  | EmptyString => acc
  end.

(** [s] without its first character, when that is [c]. *)
Definition strip (c : ascii) (s : string) : option string :=
  match s with
  | String a r => if Ascii.eqb a c then Some r else None
  | EmptyString => None
  end.

(** The sign of a number or of an exponent, and what follows it. *)
Definition sign (plus : bool) (s : string) : bool * string :=
  match strip "-" s with
  | Some r => (true, r)
  | None =>
      match (if plus then strip "+" s else None) with
      | Some r => (false, r)
      | None => (false, s)
      end
  end.

(** The fraction: nothing, or a point and at least one digit. *)
Definition fraction (s : string) : option (string * string) :=
  match strip "." s with
  | Some r =>
      let (fp, r') := span_digits r in
      if JSString.isEmpty fp then None else Some (fp, r')
  | None => Some (EmptyString, s)
  end.

(** The exponent: nothing, or [e] or [E], a sign or none, and at least
    one digit. *)
Definition exponent (s : string) : option (Z * string) :=
  match (match strip "e" s with Some r => Some r | None => strip "E" s end) with
  | Some r =>
      let (eneg, r1) := sign true r in
      let (ep, r2) := span_digits r1 in
      if JSString.isEmpty ep then None
      else Some ((if eneg then - Z_of_digits 0 ep else Z_of_digits 0 ep)%Z, r2)
  | None => Some (0%Z, s)
  end.

(** A number literal: a minus sign or none; the integer part, a lone 0 or
    digits that do not start with 0; a fraction or none; an exponent or
    none. *)
Definition parse_number (s : string) : option (Number.Double * string) :=
  let (neg, s1) := sign false s in
  let (ip, s2) := span_digits s1 in
  if JSString.isEmpty ip then None
  else if (String.prefix "0" ip && (1 <? String.length ip)%nat)%bool then None
  else
    match fraction s2 with
    | None => None
    | Some (fp, s3) =>
        match exponent s3 with
        | None => None
        | Some (e, s4) =>
            Some (Number.of_decimal neg (Z_of_digits 0 (ip ++ fp))
                    (e - Z.of_nat (String.length fp)), s4)
        end
    end.

(** What a string literal is made of: a raw byte, or the code unit of a
    [\uXXXX] escape. *)
Inductive StringUnit : Type :=
| Raw (a : ascii)
| Unit16 (n : N).

Definition byte (n : N) : ascii := ascii_of_N n.

(** UTF-8 of the code point [cp]. *)
Definition utf8 (cp : N) : string :=
  if (cp <? 128)%N then String (byte cp) EmptyString
  else if (cp <? 2048)%N
  then String (byte (192 + cp / 64)) (String (byte (128 + cp mod 64)) EmptyString)
  else if (cp <? 65536)%N
  then String (byte (224 + cp / 4096))
         (String (byte (128 + (cp / 64) mod 64))
            (String (byte (128 + cp mod 64)) EmptyString))
  else String (byte (240 + cp / 262144))
         (String (byte (128 + (cp / 4096) mod 64))
            (String (byte (128 + (cp / 64) mod 64))
               (String (byte (128 + cp mod 64)) EmptyString))).

(** The code units of a literal as text: a high and a low surrogate
    side by side are one code point, any other unit is a code point by
    itself. *)
Definition is_high (n : N) : bool := ((55296 <=? n) && (n <=? 56319))%N.
Definition is_low (n : N) : bool := ((56320 <=? n) && (n <=? 57343))%N.

Fixpoint encode_units (l : list StringUnit) : string :=
  match l with
  | [] => EmptyString
  | Raw a :: r => String a (encode_units r)
  | Unit16 h :: r =>
      match r with
      | Unit16 lo :: r' =>
          if (is_high h && is_low lo)%bool
          then utf8 (65536 + (h - 55296) * 1024 + (lo - 56320)) ++ encode_units r'
          else utf8 h ++ encode_units r
      | _ => utf8 h ++ encode_units r
      end
  end.

(** The character of a two-character escape: of the quote, the
    backslash, the slash, and of b, f, n, r and t. *)
Definition escape (a : ascii) : option ascii :=
  if Ascii.eqb a JSString.QUOTE then Some JSString.QUOTE
  else if Ascii.eqb a "\" then Some "\"%char
  else if Ascii.eqb a "/" then Some "/"%char
  else if Ascii.eqb a "b" then Some "008"%char
  else if Ascii.eqb a "f" then Some "012"%char
  else if Ascii.eqb a "n" then Some "010"%char
  else if Ascii.eqb a "r" then Some "013"%char
  else if Ascii.eqb a "t" then Some "009"%char
  else None.

(** The units of a string literal, read from just after its opening
    quote, and what follows its closing quote. *)
Fixpoint scan_string (s : string) : option (list StringUnit * string) :=
  match s with
  | EmptyString => None
  | String a r =>
      if Ascii.eqb a JSString.QUOTE then Some ([], r)
      else if Ascii.eqb a "\" then
        match r with
        | String b r2 =>
            if Ascii.eqb b "u" then
              match r2 with
              | String h1 (String h2 (String h3 (String h4 r3))) =>
                  match hex_val h1, hex_val h2, hex_val h3, hex_val h4, scan_string r3 with
                  | Some x1, Some x2, Some x3, Some x4, Some (us, rest) =>
                      Some (Unit16 (((x1 * 16 + x2) * 16 + x3) * 16 + x4) :: us, rest)
                  | _, _, _, _, _ => None
                  end
              | _ => None
              end
            else
              match escape b, scan_string r2 with
              | Some c, Some (us, rest) => Some (Raw c :: us, rest)
              | _, _ => None
              end
        | EmptyString => None
        end
      else if (nat_of_ascii a <? 32)%nat then None
      else
        match scan_string r with
        | Some (us, rest) => Some (Raw a :: us, rest)
        | None => None
        end
  end.

Definition parse_string (s : string) : option (string * string) :=
  match scan_string s with
  | Some (us, rest) => Some (encode_units us, rest)
  | None => None
  end.

Definition keyword (k : string) (v : JSValue) (s : string) : option (JSValue * string) :=
  if String.prefix k s then Some (v, JSString.slice (String.length k) s) else None.

(** A value, with the white space before it; [parse_elements] reads an
    array from its first element on, [parse_members] an object from its
    first key on. *)
Fixpoint parse_value (fuel : nat) (s : string) {struct fuel} : option (JSValue * string) :=
  match fuel with
  | O => None
  | S f =>
      match skip_ws s with
      | EmptyString => None
      | String a r as t =>
          if Ascii.eqb a "{" then
            match strip "}" (skip_ws r) with
            | Some r' => Some (JObject [], r')
            | None => parse_members f r []
            end
          else if Ascii.eqb a "[" then
            match strip "]" (skip_ws r) with
            | Some r' => Some (JArray [], r')
            | None => parse_elements f r []
            end
          else if Ascii.eqb a JSString.QUOTE then
            match parse_string r with
            | Some (x, r') => Some (JString x, r')
            | None => None
            end
          else if Ascii.eqb a "t" then keyword "true" (JBool true) t
          else if Ascii.eqb a "f" then keyword "false" (JBool false) t
          else if Ascii.eqb a "n" then keyword "null" JNull t
          else
            match parse_number t with
            | Some (x, r') => Some (JNumber x, r')
            | None => None
            end
      end
  end
with parse_elements (fuel : nat) (s : string) (acc : list JSValue) {struct fuel}
  : option (JSValue * string) :=
  match fuel with
  | O => None
  | S f =>
      match parse_value f s with
      | Some (v, r) =>
          match strip "," (skip_ws r) with
          | Some r' => parse_elements f r' (acc ++ [v])
          | None =>
              match strip "]" (skip_ws r) with
              | Some r' => Some (JArray (acc ++ [v]), r')
              | None => None
              end
          end
      | None => None
      end
  end
with parse_members (fuel : nat) (s : string) (acc : list (string * JSValue)) {struct fuel}
  : option (JSValue * string) :=
  match fuel with
  | O => None
  | S f =>
      match strip JSString.QUOTE (skip_ws s) with
      | Some r =>
          match parse_string r with
          | Some (k, r1) =>
              match strip ":" (skip_ws r1) with
              | Some r2 =>
                  match parse_value f r2 with
                  | Some (v, r3) =>
                      match strip "," (skip_ws r3) with
                      | Some r' => parse_members f r' (JS.define acc k v)
                      | None =>
                          match strip "}" (skip_ws r3) with
                          | Some r' => Some (JObject (JS.define acc k v), r')
                          | None => None
                          end
                      end
                  | None => None
                  end
              | None => None
              end
          | None => None
          end
      | None => None
      end
  end.

(** [JSON.stringify] of a string.  One character: the quote and the
    backslash take a backslash, the control characters their short
    escape or [\u00XX], any other character stands for itself. *)
Definition hex_digit (n : N) : ascii :=
  if (n <? 10)%N then ascii_of_N (48 + n) else ascii_of_N (87 + n).

Definition quote_char (a : ascii) : string :=
  if Ascii.eqb a JSString.QUOTE then String "\" (String JSString.QUOTE EmptyString)
  else if Ascii.eqb a "\" then "\\"
  else if Ascii.eqb a "008" then "\b"
  else if Ascii.eqb a "012" then "\f"
  else if Ascii.eqb a "010" then "\n"
  else if Ascii.eqb a "013" then "\r"
  else if Ascii.eqb a "009" then "\t"
  else if (N_of_ascii a <? 32)%N
  then "\u00" ++ String (hex_digit (N_of_ascii a / 16))
                   (String (hex_digit (N_of_ascii a mod 16)) EmptyString)
  else String a EmptyString.

Fixpoint quote_chars (s : string) : string :=
  match s with
  | EmptyString => EmptyString
  | String a r => quote_char a ++ quote_chars r
  end.

Definition stringify (s : string) : string :=
  String JSString.QUOTE (quote_chars s ++ String JSString.QUOTE EmptyString).

(** The unit [scan_string] reads back from what [quote_char] writes. *)
Definition unit_of (a : ascii) : StringUnit :=
  if Ascii.eqb a JSString.QUOTE then Raw a
  else if Ascii.eqb a "\" then Raw a
  else if Ascii.eqb a "008" then Raw a
  else if Ascii.eqb a "012" then Raw a
  else if Ascii.eqb a "010" then Raw a
  else if Ascii.eqb a "013" then Raw a
  else if Ascii.eqb a "009" then Raw a
  else if (N_of_ascii a <? 32)%N then Unit16 (N_of_ascii a)
  else Raw a.

Fixpoint units (s : string) : list StringUnit :=
  match s with
  | EmptyString => []
  | String a r => unit_of a :: units r
  end.

(** [JSON.parse(text)] *)
Definition parse (text : string) : option JSValue :=
  match parse_value (2 * String.length text + 2) text with
  | Some (v, r) => if JSString.isEmpty (skip_ws r) then Some v else None
  | None => None
  end.

End JSON.

(** ** The streaming wellness chat screen
    [src/ibm-proj/frontend/src/App.js], component [WellnessChat] *)

(** An entry of the transcript.  A user message has only [role] and
    [content]; its other fields are [undefined]. *)
Module Message.
Record t : Type := make {
  role : string;
  content : string;
  thinking : JSValue;
  sources : JSValue;
  webSources : JSValue;
  webSearched : JSValue
}.
End Message.

(** The draft [currentStreamingMsg] of a send, and the copies of it that
    [setStreamingMessage] publishes.  The object published first (line
    78) is the draft itself, not a copy; every statement that writes to
    the draft is followed at once by the publication of a fresh copy, so
    that the component never shows a draft other than the last one
    published, and the draft and its copies are values here. *)
Module StreamingMessage.
Record t : Type := make {
  role : string;
  thinking : string;
  content : string;
  thinkingComplete : bool;
  sources : JSValue;
  webSources : JSValue;
  webSearched : JSValue
}.

Definition with_thinking (x : string) (m : t) : t :=
  make (role m) x (content m) (thinkingComplete m) (sources m) (webSources m) (webSearched m).
Definition with_content (x : string) (m : t) : t :=
  make (role m) (thinking m) x (thinkingComplete m) (sources m) (webSources m) (webSearched m).
Definition with_thinkingComplete (x : bool) (m : t) : t :=
  make (role m) (thinking m) (content m) x (sources m) (webSources m) (webSearched m).
Definition with_metadata (s ws wd : JSValue) (m : t) : t :=
  make (role m) (thinking m) (content m) (thinkingComplete m) s ws wd.
End StreamingMessage.

Module WellnessChat.

(** What the component does to the outside: notifications and requests. *)
Inductive Effect : Type :=
| ToastError (text : string)
| ToastSuccess (text : string)
| FetchTopics                                   (* GET  API/wellness-topics *)
| FetchChat (message : string) (use_web_search : bool).  (* POST API/chat/stream *)

(** The five [useState] cells, and the effects issued so far. *)
Record State : Type := mkState {
  messages : list Message.t;
  inputMessage : string;
  isLoading : bool;
  topics : JSValue;
  streamingMessage : option StreamingMessage.t;
  effects : list Effect
}.

Definition initial : State :=
  mkState [] EmptyString false (JArray []) None [].

Definition setMessages (f : list Message.t -> list Message.t) (s : State) : State :=
  mkState (f (messages s)) (inputMessage s) (isLoading s) (topics s) (streamingMessage s) (effects s).
Definition setInputMessage (x : string) (s : State) : State :=
  mkState (messages s) x (isLoading s) (topics s) (streamingMessage s) (effects s).
Definition setIsLoading (x : bool) (s : State) : State :=
  mkState (messages s) (inputMessage s) x (topics s) (streamingMessage s) (effects s).
Definition setTopics (x : JSValue) (s : State) : State :=
  mkState (messages s) (inputMessage s) (isLoading s) x (streamingMessage s) (effects s).
Definition setStreamingMessage (x : option StreamingMessage.t) (s : State) : State :=
  mkState (messages s) (inputMessage s) (isLoading s) (topics s) x (effects s).
Definition perform (e : Effect) (s : State) : State :=
  mkState (messages s) (inputMessage s) (isLoading s) (topics s) (streamingMessage s)
    (effects s ++ [e]).

(** The state of a send while it decodes the stream: its own draft
    [currentStreamingMsg], a variable of the closure, and the component. *)
Record Send : Type := mkSend {
  currentStreamingMsg : StreamingMessage.t;
  state : State
}.

(** [{ role: "user", content: messageText }] *)
Definition userMessage (messageText : string) : Message.t :=
  Message.make "user" messageText JUndefined JUndefined JUndefined JUndefined.

(** The draft a send starts from (lines 69-77). *)
Definition emptyDraft : StreamingMessage.t :=
  StreamingMessage.make "assistant" EmptyString EmptyString false JNull JNull (JBool false).

(** The message a [done] event appends (lines 198-204);
    [thinking: currentStreamingMsg.thinking || null]. *)
Definition finalize (cur : StreamingMessage.t) : Message.t :=
  Message.make "assistant"
    (StreamingMessage.content cur)
    (JS.or (JString (StreamingMessage.thinking cur)) JNull)
    (StreamingMessage.sources cur)
    (StreamingMessage.webSources cur)
    (StreamingMessage.webSearched cur).

(** [setStreamingMessage({...currentStreamingMsg})] *)
Definition publish (cur : StreamingMessage.t) (s : State) : Send :=
  mkSend cur (setStreamingMessage (Some cur) s).

(** A send in the middle of a run, the code that runs from one [await]
    to the next.  What the [done] branch hands to [setMessages] (lines
    133-140 and 197-204) is a function, [prev => [...prev, { ...,
    content: currentStreamingMsg.content, ... }]], and React runs it when
    it next renders, after the run: the object literal is inside the
    function, so it reads the draft as the rest of the run has left it,
    not as it was when [done] was handled.  [queued] counts these
    functions, handed over in this run and not yet run.  (The other
    function handed to [setMessages], line 64, reads a constant, and the
    other setters are given values: for them the time React takes them up
    makes no difference.) *)
Record Turn : Type := mkTurn {
  send : Send;
  queued : nat
}.

(** A run begins: nothing is queued. *)
Definition start (x : Send) : Turn := mkTurn x 0.

(** [setStreamingMessage({...currentStreamingMsg})] in a run *)
Definition republish (cur : StreamingMessage.t) (t : Turn) : Turn :=
  mkTurn (publish cur (state (send t))) (queued t).

(** The run is over and React renders: the queued functions run, one
    after the other, each on the transcript the one before left, and
    each reads the draft as it is now. *)
Definition commit (t : Turn) : Send :=
  let cur := currentStreamingMsg (send t) in
  mkSend cur
    (setMessages
       (fun prev => Nat.iter (queued t) (fun prev' => (prev' ++ [finalize cur])%list) prev)
       (state (send t))).

Definition bind {A B : Type} (x : option A) (f : A -> option B) : option B :=
  match x with
  | Some a => f a
  | None => None
  end.

Notation "x <- e ;; k" := (bind e (fun x => k))
  (at level 61, e at next level, right associativity).

(** [data.content?.substring(0, 20)], evaluated for the log line 170:
    nothing is read of [undefined] or [null], a string has the method,
    any other value has no callable [substring] and the call throws. *)
Definition content_preview (c : JSValue) : option unit :=
  match c with
  | JUndefined | JNull | JString _ => Some tt
  | _ => None
  end.

(** The [done] branch (lines 197-205, and 133-141 in the fallback):
    the function is handed to [setMessages], to be run later, and the
    published draft is set to [null]. *)
Definition enqueue (t : Turn) : Turn :=
  mkTurn (mkSend (currentStreamingMsg (send t)) (setStreamingMessage None (state (send t))))
    (S (queued t)).

(** The body of the inner [try] of the streaming loop, after
    [JSON.parse] (lines 170-206).  [None]: an exception reached the
    inner [catch]; every one is raised before the draft or the state is
    written. *)
Definition streamEvent (data : JSValue) (t : Turn) : option Turn :=
  let cur := currentStreamingMsg (send t) in
  type <- JS.Get data "type" ;;
  content <- JS.Get data "content" ;;
  _ <- content_preview content ;;
  if JS.is_string type "thinking_start" then Some t
  else if JS.is_string type "thinking" then
    th <- JS.append (StreamingMessage.thinking cur) content ;;
    Some (republish (StreamingMessage.with_thinking th cur) t)
  else if JS.is_string type "thinking_end" then
    Some (republish (StreamingMessage.with_thinkingComplete true cur) t)
  else if JS.is_string type "response_start" then Some t
  else if JS.is_string type "response" then
    c <- JS.append (StreamingMessage.content cur) content ;;
    Some (republish (StreamingMessage.with_content c cur) t)
  else if JS.is_string type "response_end" then Some t
  else if JS.is_string type "metadata" then
    sources <- JS.Get data "sources" ;;
    web_sources <- JS.Get data "web_sources" ;;
    web_searched <- JS.Get data "web_searched" ;;
    Some (republish (StreamingMessage.with_metadata sources web_sources web_searched cur) t)
  else if JS.is_string type "done" then Some (enqueue t)
  else Some t.

(** The body of the inner [try] of the fallback loop (lines 116-142). *)
Definition fallbackEvent (data : JSValue) (t : Turn) : option Turn :=
  let cur := currentStreamingMsg (send t) in
  type <- JS.Get data "type" ;;
  if JS.is_string type "thinking" then
    content <- JS.Get data "content" ;;
    th <- JS.append (StreamingMessage.thinking cur) content ;;
    Some (republish (StreamingMessage.with_thinking th cur) t)
  else if JS.is_string type "thinking_end" then
    Some (republish (StreamingMessage.with_thinkingComplete true cur) t)
  else if JS.is_string type "response" then
    content <- JS.Get data "content" ;;
    c <- JS.append (StreamingMessage.content cur) content ;;
    Some (republish (StreamingMessage.with_content c cur) t)
  else if JS.is_string type "metadata" then
    sources <- JS.Get data "sources" ;;
    web_sources <- JS.Get data "web_sources" ;;
    web_searched <- JS.Get data "web_searched" ;;
    Some (republish (StreamingMessage.with_metadata sources web_sources web_searched cur) t)
  else if JS.is_string type "done" then Some (enqueue t)
  else Some t.

(** One line of either loop: [if (line.startsWith('data: ')) try { ...
    JSON.parse(line.slice(6)) ... } catch (e) { console.error(...) }]. *)
Definition decodeLine (handler : JSValue -> Turn -> option Turn) (line : string) (t : Turn)
  : Turn :=
  if JSString.startsWith "data: " line then
    match JSON.parse (JSString.slice 6 line) with
    | Some data =>
        match handler data t with
        | Some t' => t'
        | None => t
        end
    | None => t
    end
  else t.

(** [for (const line of text.split('\n')) ...] *)
Definition decodeText (handler : JSValue -> Turn -> option Turn) (text : string) (t : Turn)
  : Turn :=
  fold_left (fun acc line => decodeLine handler line acc) (JSString.split JSString.LF text) t.

(** The chunks of several reads that settle one after the other with no
    render between them: the next chunk is already there when the loop
    asks for it, the loop goes on in the same run, and React renders
    when the last of them is decoded. *)
Definition streamReads (chunks : list string) (x : Send) : Send :=
  commit (fold_left (fun acc chunk => decodeText streamEvent chunk acc) chunks (start x)).

(** One turn of [while (true)] with [done] false (lines 163-211), in a
    run of its own: React renders before the next read settles. *)
Definition streamChunk (chunk : string) (x : Send) : Send :=
  commit (decodeText streamEvent chunk (start x)).

(** The loop, over the chunks the reader delivers (lines 156-212). *)
Definition streamLoop (chunks : list string) (x : Send) : Send :=
  fold_left (fun acc chunk => streamChunk chunk acc) chunks x.

(** The reads of a stream in bursts, React rendering between two bursts. *)
Definition streamBursts (bursts : list (list string)) (x : Send) : Send :=
  fold_left (fun acc chunks => streamReads chunks acc) bursts x.

(** The fallback, over the whole text (lines 112-147): one run. *)
Definition fallback (full : string) (x : Send) : Send :=
  commit (decodeText fallbackEvent full (start x)).

(** What the network gives a send.  [fetch] rejects, or resolves with a
    response of status [ok] whose body either hands out a reader, which
    delivers [chunks] and then ends or fails ([read()] rejects), or
    refuses the reader ([getReader()] throws), [text()] then resolving
    with the whole text or rejecting.  [response.clone()], whose result
    and whose failure the code ignores, is left out.

    When React renders between two reads is the browser's affair.
    [Readable]: every read settles in a task of its own, and React has
    rendered when the next one settles.  [Bursts]: the reads settle in
    bursts, the chunks of a burst being there one after the other
    before React renders. *)
Inductive Body : Type :=
| Readable (chunks : list string) (fails : bool)
| Unreadable (text : option string)
| Bursts (bursts : list (list string)) (fails : bool).

Inductive Fetched : Type :=
| NetworkError
| Responded (ok : bool) (body : Body).

(** The argument [sendMessage] is called with: nothing or [undefined], a
    string, or a built-in function or object, which is what a lookup in
    an object literal finds under a name of [Object.prototype]. *)
Inductive Arg : Type :=
| ArgUndefined
| ArgString (s : string)
| ArgBuiltin (name : string).

(** How a call ends: normally, or with a TypeError (thrown, or as the
    rejection of the promise an [async] function returns). *)
Inductive Completion : Type :=
| Normal
| TypeError.

(** Lines 63-90: the user message is appended, the input cleared, the
    loading flag set, the empty draft published and the request sent. *)
Definition sendBegin (messageText : string) (s : State) : Send :=
  let s1 := setMessages (fun prev => (prev ++ [userMessage messageText])%list) s in
  let s2 := setInputMessage EmptyString s1 in
  let s3 := setIsLoading true s2 in
  let s4 := setStreamingMessage (Some emptyDraft) s3 in
  mkSend emptyDraft (perform (FetchChat messageText false) s4).

(** The rest of the [try] block (lines 92-212), from the answer of
    [fetch] on: the state it leaves, and whether an exception reached
    the outer [catch]. *)
Definition attempt (net : Fetched) (x : Send) : State * bool :=
  match net with
  | NetworkError => (state x, true)
  | Responded false _ => (state x, true)
  | Responded true (Unreadable None) => (state x, true)
  | Responded true (Unreadable (Some full)) => (state (fallback full x), false)
  | Responded true (Readable chunks fails) => (state (streamLoop chunks x), fails)
  | Responded true (Bursts bursts fails) => (state (streamBursts bursts x), fails)
  end.

(** The outer [catch] (lines 213-216) *)
Definition sendCatch (s : State) : State :=
  setStreamingMessage None
    (perform (ToastError "Unable to get response. Please try again.") s).

(** The [finally] (lines 217-219) *)
Definition sendFinally (s : State) : State := setIsLoading false s.

(** [const sendMessage = async (messageText = inputMessage) => ...]
    (lines 60-220).  The default value stands in for an argument that is
    [undefined]; [messageText.trim()] throws on a value that is not a
    string, before the [try]. *)
Definition sendMessage (arg : Arg) (net : Fetched) (s : State) : State * Completion :=
  let messageText :=
    match arg with
    | ArgUndefined => ArgString (inputMessage s)
    | _ => arg
    end in
  match messageText with
  | ArgString text =>
      if JSString.isEmpty (JSString.trim text) then (s, Normal)
      else
        let (s', thrown) := attempt net (sendBegin text s) in
        (sendFinally (if thrown then sendCatch s' else s'), Normal)
  | _ => (s, TypeError)
  end.

(** [topicQuestions] (lines 223-230) *)
Definition topicQuestions : list (string * string) :=
  [ ("nutrition", "What are some general healthy eating guidelines?");
    ("exercise", "How much exercise should I get weekly?");
    ("sleep", "What are good sleep hygiene practices?");
    ("stress", "What are some healthy ways to manage stress?");
    ("hydration", "How much water should I drink daily?");
    ("checkup", "How often should I get routine health checkups?") ].

(** The property names every object literal inherits from
    [Object.prototype]. *)
Definition inherited : list string :=
  [ "constructor"; "__defineGetter__"; "__defineSetter__"; "hasOwnProperty";
    "__lookupGetter__"; "__lookupSetter__"; "isPrototypeOf"; "propertyIsEnumerable";
    "toString"; "valueOf"; "__proto__"; "toLocaleString" ].

Fixpoint assoc (l : list (string * string)) (k : string) : option string :=
  match l with
  | [] => None
  | (k', v) :: r => if String.eqb k' k then Some v else assoc r k
  end.

(** [topicQuestions[key]]: an own property, else one inherited from
    [Object.prototype], else [undefined]. *)
Definition lookupQuestion (key : string) : Arg :=
  match assoc topicQuestions key with
  | Some q => ArgString q
  | None =>
      if existsb (String.eqb key) inherited then ArgBuiltin key else ArgUndefined
  end.

(** [handleTopicClick(topic)] (lines 222-232).  [topic.id] is made a
    property key by [ToString]. *)
Definition handleTopicClick (topic : JSValue) (net : Fetched) (s : State)
  : State * Completion :=
  match JS.Get topic "id" with
  | None => (s, TypeError)
  | Some id =>
      match JS.ToString id with
      | None => (s, TypeError)
      | Some key => sendMessage (lookupQuestion key) net s
      end
  end.

(** [handleKeyPress(e)] (lines 234-239), [e.preventDefault()] left out. *)
Definition handleKeyPress (key : string) (shiftKey : bool) (net : Fetched) (s : State)
  : State * Completion :=
  if (String.eqb key "Enter" && negb shiftKey)%bool
  then sendMessage ArgUndefined net s
  else (s, Normal).

(** [clearChat()] (lines 241-245) *)
Definition clearChat (s : State) : State :=
  perform (ToastSuccess "Conversation cleared")
    (setStreamingMessage None (setMessages (fun _ => []) s)).

(** [fetchWellnessTopics()] (lines 50-58); [data] is what
    [response.json()] resolves with, [None] when [fetch] or [json()]
    rejects.  Every exception ends in the [catch], which only logs. *)
Definition fetchWellnessTopics (data : option JSValue) (s : State) : State :=
  let s1 := perform FetchTopics s in
  match data with
  | Some d =>
      match JS.Get d "topics" with
      | Some t => setTopics t s1
      | None => s1
      end
  | None => s1
  end.

End WellnessChat.

(** ** The static chat shell
    [src/src/App.js], component [App] *)

Module ChatShell.

(** A message handed to [appendMsg]: [{ type, content: { text },
    position }]; the identifier and time stamp the chat library adds are
    left out. *)
Record Msg : Type := mkMsg {
  type : string;
  text : string;
  position : option string
}.

(** The transcript of [useMessages([])], the clock in milliseconds, and
    the callbacks [setTimeout] holds: every one in this file appends one
    message, so a timer is the time it is due and that message. *)
Record State : Type := mkState {
  now : Z;
  messages : list Msg;
  timers : list (Z * Msg)
}.

Definition appendMsg (m : Msg) (s : State) : State :=
  mkState (now s) (messages s ++ [m]) (timers s).

(** [setTimeout(() => appendMsg(m), delay)] *)
Definition setTimeout (m : Msg) (delay : Z) (s : State) : State :=
  mkState (now s) (messages s) (timers s ++ [((now s + delay)%Z, m)]).

Definition reply : Msg :=
  mkMsg "text" "Hello! I'm your health assistant. How can I help you today?" None.

(** [handleSend(type, val)] (lines 8-24) *)
Definition handleSend (type val : string) (s : State) : State :=
  if (String.eqb type "text" && negb (JSString.isEmpty (JSString.trim val)))%bool
  then setTimeout reply 1000 (appendMsg (mkMsg "text" val (Some "right")) s)
  else s.

(** The clock advances by [dt] milliseconds; the timers then due run, in
    the order they were set. *)
Definition elapse (dt : Z) (s : State) : State :=
  let t := (now s + dt)%Z in
  let due := filter (fun tm => (fst tm <=? t)%Z) (timers s) in
  let later := filter (fun tm => negb (fst tm <=? t)%Z) (timers s) in
  mkState t (messages s ++ map snd due) later.

End ChatShell.

(** ** The event stream, as the decoder reads it

    The vocabulary the properties are stated in: the events a text
    carries, line by line, and what a send does with a list of events. *)

Module Stream.
Import WellnessChat.

(** The event of a line: the parsed payload of a [data: ] line. *)
Definition lineEvent (line : string) : option JSValue :=
  if JSString.startsWith "data: " line then JSON.parse (JSString.slice 6 line) else None.

Definition eventsOf (lines : list string) : list JSValue :=
  flat_map (fun line => match lineEvent line with Some d => [d] | None => [] end) lines.

Definition textEvents (text : string) : list JSValue :=
  eventsOf (JSString.split JSString.LF text).

(** The events of a chunked stream, in arrival order. *)
Definition received (chunks : list string) : list JSValue :=
  flat_map textEvents chunks.

(** A handler applied to an event, an exception leaving the run as it
    was; and to a list of events in turn, in one run. *)
Definition apply (handler : JSValue -> Turn -> option Turn) (data : JSValue) (t : Turn) : Turn :=
  match handler data t with
  | Some t' => t'
  | None => t
  end.

Definition applyAll (handler : JSValue -> Turn -> option Turn) (events : list JSValue) (t : Turn)
  : Turn :=
  fold_left (fun acc data => apply handler data acc) events t.

(** An event handled in a run of its own, React rendering after it; and
    a list of events, each in a run of its own. *)
Definition settle (handler : JSValue -> Turn -> option Turn) (data : JSValue) (x : Send) : Send :=
  commit (apply handler data (start x)).

Definition settleAll (handler : JSValue -> Turn -> option Turn) (events : list JSValue) (x : Send)
  : Send :=
  fold_left (fun acc data => settle handler data acc) events x.

Definition has_type (data : JSValue) (k : string) : Prop :=
  JS.Get data "type" = Some (JString k).

(** [content] is absent, [null] or a string. *)
Definition plain (data : JSValue) : Prop :=
  match JS.Get data "content" with
  | Some c => content_preview c = Some tt
  | None => True
  end.

(** The text deltas of an answer. *)
Inductive Delta : Type :=
| Thinking (content : string)
| Response (content : string).

Definition carries (data : JSValue) (d : Delta) : Prop :=
  match d with
  | Thinking c => has_type data "thinking" /\ JS.Get data "content" = Some (JString c)
  | Response c => has_type data "response" /\ JS.Get data "content" = Some (JString c)
  end.

(** A [done] event. *)
Definition is_done (data : JSValue) : Prop :=
  has_type data "done" /\ plain data.

(** A [metadata] event and its three fields, absent ones [undefined]. *)
Definition is_metadata (data sources web_sources web_searched : JSValue) : Prop :=
  has_type data "metadata"
  /\ plain data
  /\ JS.Get data "sources" = Some sources
  /\ JS.Get data "web_sources" = Some web_sources
  /\ JS.Get data "web_searched" = Some web_searched.

Fixpoint thinkingText (ds : list Delta) : string :=
  match ds with
  | [] => EmptyString
  | Thinking c :: r => c ++ thinkingText r
  | Response _ :: r => thinkingText r
  end.

Fixpoint responseText (ds : list Delta) : string :=
  match ds with
  | [] => EmptyString
  | Thinking _ :: r => responseText r
  | Response c :: r => c ++ responseText r
  end.

Definition anyThinking (ds : list Delta) : bool :=
  existsb (fun d => match d with Thinking _ => true | Response _ => false end) ds.

(** The draft after the deltas [ds]. *)
Definition accumulate (ds : list Delta) (cur : StreamingMessage.t) : StreamingMessage.t :=
  StreamingMessage.with_content (StreamingMessage.content cur ++ responseText ds)
    (StreamingMessage.with_thinking (StreamingMessage.thinking cur ++ thinkingText ds) cur).

(** The assistant message a send ends with after the deltas [ds]. *)
Definition answer (ds : list Delta) : Message.t :=
  Message.make "assistant" (responseText ds)
    (if JSString.isEmpty (thinkingText ds) then JNull else JString (thinkingText ds))
    JNull JNull (JBool false).

(** The text is empty or ends with a line feed. *)
Fixpoint whole_lines (text : string) : bool :=
  match text with
  | EmptyString => true
  | String a EmptyString => Ascii.eqb a JSString.LF
  | String _ r => whole_lines r
  end.

Fixpoint no_LF (text : string) : bool :=
  match text with
  | EmptyString => true
  | String a r => negb (Ascii.eqb a JSString.LF) && no_LF r
  end.

(** Every chunk but the last is made of whole lines. *)
Fixpoint line_aligned (chunks : list string) : bool :=
  match chunks with
  | [] => true
  | [_] => true
  | c :: r => whole_lines c && line_aligned r
  end.

(** The whole payload: the chunks one after the other. *)
Definition wholeText (chunks : list string) : string :=
  fold_right String.append EmptyString chunks.

(** The line [data: payload] with its line feed. *)
Definition line (payload : string) : string :=
  "data: " ++ payload ++ String JSString.LF EmptyString.

(** The same, the payload written with single quotes; and several such
    lines. *)
Definition dataLine (payload : string) : string := line (JSString.quoted payload).

Definition dataLines (payloads : list string) : string :=
  wholeText (map dataLine payloads).

(** A delta as an event, and as the JSON text of that event:
    [{"type":"thinking","content":...}] and
    [{"type":"response","content":...}]. *)
Definition deltaValue (d : Delta) : JSValue :=
  match d with
  | Thinking c => JObject [("type", JString "thinking"); ("content", JString c)]
  | Response c => JObject [("type", JString "response"); ("content", JString c)]
  end.

Definition deltaText (d : Delta) : string :=
  match d with
  | Thinking c =>
      "{" ++ JSON.stringify "type" ++ ":" ++ JSON.stringify "thinking" ++ ","
          ++ JSON.stringify "content" ++ ":" ++ JSON.stringify c ++ "}"
  | Response c =>
      "{" ++ JSON.stringify "type" ++ ":" ++ JSON.stringify "response" ++ ","
          ++ JSON.stringify "content" ++ ":" ++ JSON.stringify c ++ "}"
  end.

(** A chunk that holds the lines of the deltas [ds]. *)
Definition deltaChunk (ds : list Delta) : string :=
  wholeText (map (fun d => line (deltaText d)) ds).

Definition doneValue : JSValue := JObject [("type", JString "done")].

Definition doneChunk : string := dataLine "{'type':'done'}".

(** [data.type], [undefined] where the read throws. *)
Definition typeOf (data : JSValue) : JSValue :=
  match JS.Get data "type" with
  | Some t => t
  | None => JUndefined
  end.

(** The four values of [data.type] whose branch writes to the draft. *)
Definition writes (type : JSValue) : bool :=
  JS.is_string type "thinking"
  || JS.is_string type "thinking_end"
  || JS.is_string type "response"
  || JS.is_string type "metadata".

(** What one event can do to a run: nothing; for an event of one of
    the four types that write, write to the draft and publish it; or,
    for a [done] event only, queue the function that appends the draft
    and drop the published one. *)
Definition advances (data : JSValue) (t t' : Turn) : Prop :=
  t' = t
  \/ (writes (typeOf data) = true /\ exists cur, t' = republish cur t)
  \/ (JS.Get data "type" = Some (JString "done") /\ t' = enqueue t).

(** A handler whose every step [advances]. *)
Definition steady (handler : JSValue -> Turn -> option Turn) : Prop :=
  forall data t t', handler data t = Some t' -> advances data t t'.

(** An event that does not write does the same to every run: nothing,
    or the [done] branch. *)
Definition uniform (handler : JSValue -> Turn -> option Turn) : Prop :=
  forall data,
    writes (typeOf data) = false ->
    (forall t, apply handler data t = t) \/ (forall t, apply handler data t = enqueue t).

(** After a [done] event no event writes to the draft: what is handed
    over at [done] is read as it was then, whenever React renders. *)
Fixpoint quiet (events : list JSValue) : bool :=
  match events with
  | [] => true
  | data :: r =>
      if JS.is_string (typeOf data) "done"
      then forallb (fun d => negb (writes (typeOf d))) r
      else quiet r
  end.

(** The transcript of [s'] continues that of [s], and nothing else but
    the published draft differs. *)
Definition continues (s s' : State) : Prop :=
  (exists more, messages s' = (messages s ++ more)%list)
  /\ inputMessage s' = inputMessage s
  /\ isLoading s' = isLoading s
  /\ topics s' = topics s
  /\ effects s' = effects s.

(** The toast of the outer [catch]. *)
Definition apology : Effect := ToastError "Unable to get response. Please try again.".

End Stream.

(** ** The event loop

    [sendMessage] is an [async] function: between its [await]s the other
    handlers run, and so may a second send.  An event is one run, and
    React renders after it.  A send in flight is its draft
    and the [await] it is suspended at; the page is the component and the
    sends in flight; an event is a user action or the settling of a
    promise a send waits for. *)

Module EventLoop.
Import WellnessChat.

Inductive Await : Type :=
| AwaitFetch      (* line 81,  await fetch(...) *)
| AwaitRead       (* line 157, await reader.read() *)
| AwaitText       (* line 110, await response.text() *)
| Settled.        (* the function has returned *)

Record InFlight : Type := mkInFlight {
  draft : StreamingMessage.t;
  awaiting : Await
}.

Record Page : Type := mkPage {
  component : State;
  sends : list InFlight
}.

Inductive Read : Type :=
| Chunk (text : string)     (* { done: false, value } *)
| Closed                    (* { done: true } *)
| ReadError                 (* the promise rejects *)
| Burst (texts : list string).
    (* several reads with { done: false, value }, no render between them *)

Inductive Event : Type :=
| Input (value : string)                      (* onChange *)
| Key (key : string) (shiftKey : bool)        (* onKeyPress *)
| SendButton
| TopicCard (topic : JSValue)
| ClearButton
| Mounted (data : option JSValue)             (* the mount effect and its answer *)
| FetchSettles (n : nat) (answer : option (bool * bool))
    (* [None]: rejected; [Some (ok, readable)] *)
| ReadSettles (n : nat) (r : Read)
| TextSettles (n : nat) (full : option string).

(** [sendMessage] up to its first [await]. *)
Definition sendStart (arg : Arg) (p : Page) : Page :=
  let s := component p in
  let messageText :=
    match arg with
    | ArgUndefined => ArgString (inputMessage s)
    | _ => arg
    end in
  match messageText with
  | ArgString text =>
      if JSString.isEmpty (JSString.trim text) then p
      else mkPage (state (sendBegin text s)) (sends p ++ [mkInFlight emptyDraft AwaitFetch])
  | _ => p
  end.

Fixpoint update (n : nat) (f : InFlight) (l : list InFlight) : list InFlight :=
  match l, n with
  | [], _ => []
  | _ :: r, O => f :: r
  | x :: r, S k => x :: update k f r
  end.

(** The send [n] goes on with draft [cur], the component becoming [s]. *)
Definition resume (n : nat) (cur : StreamingMessage.t) (a : Await) (s : State) (p : Page) : Page :=
  mkPage s (update n (mkInFlight cur a) (sends p)).

(** The send [n] ends: through the [catch] if [thrown], and the [finally]. *)
Definition finish (n : nat) (cur : StreamingMessage.t) (thrown : bool) (s : State) (p : Page)
  : Page :=
  resume n cur Settled (sendFinally (if thrown then sendCatch s else s)) p.

Definition step (e : Event) (p : Page) : Page :=
  let s := component p in
  match e with
  | Input value => mkPage (setInputMessage value s) (sends p)
  | Key key shiftKey =>
      if (String.eqb key "Enter" && negb shiftKey)%bool then sendStart ArgUndefined p else p
  | SendButton => sendStart ArgUndefined p
  | TopicCard topic =>
      match JS.Get topic "id" with
      | Some id =>
          match JS.ToString id with
          | Some key => sendStart (lookupQuestion key) p
          | None => p
          end
      | None => p
      end
  | ClearButton => mkPage (clearChat s) (sends p)
  | Mounted data => mkPage (fetchWellnessTopics data s) (sends p)
  | FetchSettles n answer =>
      match nth_error (sends p) n with
      | Some (mkInFlight cur AwaitFetch) =>
          match answer with
          | None => finish n cur true s p
          | Some (false, _) => finish n cur true s p
          | Some (true, true) => resume n cur AwaitRead s p
          | Some (true, false) => resume n cur AwaitText s p
          end
      | _ => p
      end
  | ReadSettles n r =>
      match nth_error (sends p) n with
      | Some (mkInFlight cur AwaitRead) =>
          match r with
          | Chunk text =>
              let x := streamChunk text (mkSend cur s) in
              resume n (currentStreamingMsg x) AwaitRead (state x) p
          | Closed => finish n cur false s p
          | ReadError => finish n cur true s p
          | Burst texts =>
              let x := streamReads texts (mkSend cur s) in
              resume n (currentStreamingMsg x) AwaitRead (state x) p
          end
      | _ => p
      end
  | TextSettles n full =>
      match nth_error (sends p) n with
      | Some (mkInFlight cur AwaitText) =>
          match full with
          | Some text =>
              let x := fallback text (mkSend cur s) in
              finish n (currentStreamingMsg x) false (state x) p
          | None => finish n cur true s p
          end
      | _ => p
      end
  end.

Definition run (events : list Event) (p : Page) : Page :=
  fold_left (fun acc e => step e acc) events p.

(** The settlings a send numbered [n] meets when the network answers
    [net] and nothing else happens meanwhile. *)
Definition script (n : nat) (net : Fetched) : list Event :=
  match net with
  | NetworkError => [FetchSettles n None]
  | Responded false (Readable _ _) => [FetchSettles n (Some (false, true))]
  | Responded false (Unreadable _) => [FetchSettles n (Some (false, false))]
  | Responded false (Bursts _ _) => [FetchSettles n (Some (false, true))]
  | Responded true (Unreadable full) => [FetchSettles n (Some (true, false)); TextSettles n full]
  | Responded true (Readable chunks fails) =>
      FetchSettles n (Some (true, true))
        :: map (fun c => ReadSettles n (Chunk c)) chunks
        ++ [ReadSettles n (if fails then ReadError else Closed)]
  | Responded true (Bursts bursts fails) =>
      FetchSettles n (Some (true, true))
        :: map (fun b => ReadSettles n (Burst b)) bursts
        ++ [ReadSettles n (if fails then ReadError else Closed)]
  end.

End EventLoop.

(** ** The address of the backend
    [src/ibm-proj/frontend/src/App.js], lines 15-16 *)

Module Config.

(** [process.env.REACT_APP_BACKEND_URL || 'http://localhost:8000']: the
    variable is a string or is not set, and the empty string is falsy. *)
Definition BACKEND_URL (env : option string) : string :=
  match env with
  | Some url => if JSString.isEmpty url then "http://localhost:8000" else url
  | None => "http://localhost:8000"
  end.

Fixpoint all_slashes (s : string) : bool :=
  match s with
  | EmptyString => true
  | String a r => Ascii.eqb a "/" && all_slashes r
  end.

(** [s.replace(/\/+$/, '')]: the leftmost place from which one or more
    slashes reach the end of the string is where the match starts, and
    the match is replaced by nothing. *)
Fixpoint dropSlashes (s : string) : string :=
  match s with
  | EmptyString => EmptyString
  | String a r => if all_slashes s then EmptyString else String a (dropSlashes r)
  end.

(** [`${BACKEND_URL.replace(/\/+$/, '')}/api`] *)
Definition API (env : option string) : string :=
  dropSlashes (BACKEND_URL env) ++ "/api".

(** [k] slashes. *)
Fixpoint slashes (k : nat) : string :=
  match k with
  | O => EmptyString
  | S n => String "/" (slashes n)
  end.

(** [s.endsWith('/')] *)
Fixpoint endsWithSlash (s : string) : bool :=
  match s with
  | EmptyString => false
  | String a EmptyString => Ascii.eqb a "/"
  | String _ r => endsWithSlash r
  end.

End Config.

(** ** What the screen shows
    the conditions in the [return] of [WellnessChat], lines 298-439 *)

Module View.
Import WellnessChat.

Definition is_nil {A : Type} (l : list A) : bool :=
  match l with
  | [] => true
  | _ => false
  end.

Definition is_null {A : Type} (x : option A) : bool :=
  match x with
  | None => true
  | Some _ => false
  end.

(** Line 327: [messages.length === 0 && !streamingMessage && ...], the
    welcome section with the topic cards. *)
Definition showsWelcome (s : State) : bool :=
  is_nil (messages s) && is_null (streamingMessage s).

(** Line 398: [!streamingMessage.thinking && !streamingMessage.content
    && <div className="typing-dots">], inside the bubble of the draft. *)
Definition typingDots (d : StreamingMessage.t) : bool :=
  JSString.isEmpty (StreamingMessage.thinking d)
  && JSString.isEmpty (StreamingMessage.content d).

(** [iconMap] (lines 27-34), the components by their names. *)
Definition iconMap : list (string * string) :=
  [ ("apple", "Apple"); ("activity", "Activity"); ("moon", "Moon");
    ("heart", "Heart"); ("droplet", "Droplets"); ("clipboard", "Clipboard") ].

(** What [iconMap[name]] finds: a component, a value inherited from
    [Object.prototype], or [undefined]. *)
Inductive Icon : Type :=
| Component (name : string)
| Inherited (name : string)
| NoIcon.

Definition lookupIcon (name : string) : Icon :=
  match assoc iconMap name with
  | Some c => Component c
  | None => if existsb (String.eqb name) inherited then Inherited name else NoIcon
  end.

(** The element a topic becomes: its [key], its [data-testid], the
    component of its icon, its label, and the topic itself, which a
    click hands to [handleTopicClick]. *)
Record Card : Type := mkCard {
  key : JSValue;
  testid : string;
  icon : Icon;
  label : JSValue;
  clicked : JSValue
}.

(** The callback of [topics.map] (lines 347-360), evaluated: [None] is a
    TypeError, of a read on [undefined] or [null] or of a conversion to
    a string. *)
Definition topicCard (topic : JSValue) : option Card :=
  i <- JS.Get topic "icon" ;;
  name <- JS.ToString i ;;
  id <- JS.Get topic "id" ;;
  idText <- JS.ToString id ;;
  l <- JS.Get topic "label" ;;
  Some (mkCard id ("topic-" ++ idText) (lookupIcon name) l topic).

Fixpoint topicCards (items : list JSValue) : option (list Card) :=
  match items with
  | [] => Some []
  | topic :: r =>
      c <- topicCard topic ;;
      cs <- topicCards r ;;
      Some (c :: cs)
  end.

(** [topics.map(...)] (line 347): of the values [JSON.parse] gives, only
    an array has a method [map]. *)
Definition topicGrid (topics : JSValue) : option (list Card) :=
  match topics with
  | JArray items => topicCards items
  | _ => None
  end.

(** The welcome section (lines 327-364) as the render evaluates it:
    absent, or with its cards; [None] when the evaluation throws.  What
    React then makes of the elements is not part of this. *)
Definition welcomeSection (s : State) : option (option (list Card)) :=
  if showsWelcome s then option_map Some (topicGrid (topics s)) else Some None.

(** Line 419: [<Input ... disabled={isLoading}>] *)
Definition inputDisabled (s : State) : bool := isLoading s.

(** Line 425: [<Button ... disabled={isLoading || !inputMessage.trim()}>] *)
Definition sendDisabled (s : State) : bool :=
  isLoading s || JSString.isEmpty (JSString.trim (inputMessage s)).

End View.

(** ** More vocabulary for the stream and its draft *)

Module Draft.
Import WellnessChat Stream EventLoop.

(** The body of the request (lines 86-89):
    [JSON.stringify({ message: messageText, use_web_search: false })]. *)
Definition requestBody (messageText : string) : string :=
  "{" ++ JSON.stringify "message" ++ ":" ++ JSON.stringify messageText ++ ","
      ++ JSON.stringify "use_web_search" ++ ":false}".

(** The page as it is mounted. *)
Definition initialPage : Page := mkPage initial [].

(** The questions on the screen, and those posted, in order. *)
Definition questions (l : list Message.t) : list string :=
  flat_map (fun m => if String.eqb (Message.role m) "user" then [Message.content m] else []) l.

Definition posted (l : list Effect) : list string :=
  flat_map (fun e => match e with FetchChat text _ => [text] | _ => [] end) l.

Definition is_clear (e : Event) : bool :=
  match e with
  | ClearButton => true
  | _ => false
  end.

(** The draft [c'] continues the draft [c]: same role, the two texts
    longer or the same, the thinking not reopened. *)
Definition grows (c c' : StreamingMessage.t) : Prop :=
  StreamingMessage.role c' = StreamingMessage.role c
  /\ (exists t, StreamingMessage.thinking c' = StreamingMessage.thinking c ++ t)
  /\ (exists t, StreamingMessage.content c' = StreamingMessage.content c ++ t)
  /\ (StreamingMessage.thinkingComplete c = true ->
      StreamingMessage.thinkingComplete c' = true).

(** The five values of [data.type] that have a branch which writes. *)
Definition acts (type : JSValue) : bool :=
  JS.is_string type "thinking"
  || JS.is_string type "thinking_end"
  || JS.is_string type "response"
  || JS.is_string type "metadata"
  || JS.is_string type "done".

(** An event that is not a [done] event. *)
Definition not_done (data : JSValue) : Prop := JS.is_string (typeOf data) "done" = false.

(** The text with a carriage return put before every line feed, as a
    server that ends its lines with CR LF sends it. *)
Fixpoint crlf (text : string) : string :=
  match text with
  | EmptyString => EmptyString
  | String a r =>
      if Ascii.eqb a JSString.LF
      then String JSString.CR (String JSString.LF (crlf r))
      else String a (crlf r)
  end.

(** The lines of such a text: every line but the last ends with the
    carriage return. *)
Fixpoint closedByCR (lines : list string) : list string :=
  match lines with
  | [] => []
  | [l] => [l]
  | l :: r => (l ++ String JSString.CR EmptyString) :: closedByCR r
  end.

(** A line that, if it is a [data: ] line, has a payload that parses,
    and not to a number. *)
Definition sound_line (l : string) : Prop :=
  JSString.startsWith "data: " l = true ->
  exists v, JSON.parse (JSString.slice 6 l) = Some v /\ JS.is_number v = false.

(** Whether the [try] of a send ends in the outer [catch]. *)
Definition throws (net : Fetched) : bool :=
  match net with
  | NetworkError => true
  | Responded false _ => true
  | Responded true (Unreadable None) => true
  | Responded true (Unreadable (Some _)) => false
  | Responded true (Readable _ fails) => fails
  | Responded true (Bursts _ fails) => fails
  end.

End Draft.

(** ** The static chat shell, rendered and run *)

Module ShellRun.
Import ChatShell.

(** [renderMessageContent(msg)] (lines 26-36): the text of the bubble,
    [None] for the [null] of the [default] case. *)
Definition renderMessageContent (m : Msg) : option string :=
  if String.eqb (type m) "text" then Some (text m) else None.

(** What happens to the shell: [onSend], and time passing. *)
Inductive Action : Type :=
| Send (type val : string)
| Wait (dt : Z).

Definition act (a : Action) (s : State) : State :=
  match a with
  | Send type val => handleSend type val s
  | Wait dt => elapse dt s
  end.

Definition run (actions : list Action) (s : State) : State :=
  fold_left (fun acc a => act a acc) actions s.

(** The sends [handleSend] takes up. *)
Definition accepted (a : Action) : bool :=
  match a with
  | Send type val => String.eqb type "text" && negb (JSString.isEmpty (JSString.trim val))
  | Wait _ => false
  end.

(** The texts of the sends taken up, in order. *)
Definition sent (actions : list Action) : list string :=
  flat_map (fun a => match a with
                     | Send _ val => if accepted a then [val] else []
                     | Wait _ => []
                     end) actions.

(** The shell as it is mounted: [useMessages([])], no timer set. *)
Definition initial : State := mkState 0 [] [].

Definition onTheRight (m : Msg) : bool :=
  match position m with
  | Some p => String.eqb p "right"
  | None => false
  end.

End ShellRun.

(** * Properties *)

Local Open Scope list_scope.

(** ** The built-ins on known values *)

Section BuiltIns.
Import Number.

Example toString_tenth : show false 1 (-1) = "0.1".
Proof. vm_compute. reflexivity. Qed.

Example toString_sum : show false 30000000000000004 (-17) = "0.30000000000000004".
Proof. vm_compute. reflexivity. Qed.

Example toString_1e21 : show false 1 21 = "1e+21".
Proof. vm_compute. reflexivity. Qed.

Example toString_1e20 : show false 1 20 = "100000000000000000000".
Proof. vm_compute. reflexivity. Qed.

Example toString_1e23 : show false 1 23 = "1e+23".
Proof. vm_compute. reflexivity. Qed.

Example toString_small : show false 1 (-7) = "1e-7" /\ show false 1 (-6) = "0.000001".
Proof. vm_compute. split; reflexivity. Qed.

Example toString_unsafe_integer : show false 9007199254740993 0 = "9007199254740992".
Proof. vm_compute. reflexivity. Qed.

Example toString_extremes :
  show false 17976931348623157 292 = "1.7976931348623157e+308"
  /\ show false 2 308 = "Infinity"
  /\ show false 5 (-324) = "5e-324"
  /\ show true 2 (-324) = "0".
Proof. vm_compute. repeat split; reflexivity. Qed.

Example parse_event :
  JSON.parse (JSString.quoted "{'type':'response','content':'Hi'}")
  = Some (JObject [("type", JString "response"); ("content", JString "Hi")]).
Proof. vm_compute. reflexivity. Qed.

Example parse_repeated_key :
  JSON.parse (JSString.quoted " { 'a' : [1, true, null] , 'a' : 'xA\n' } ")
  = Some (JObject [("a", JString (String "x" (String "A" (String JSString.LF EmptyString))))]).
Proof. vm_compute. reflexivity. Qed.

Example parse_rejects :
  map (fun t => JSON.parse (JSString.quoted t))
    ["{'a':1,}"; "[1,]"; "1."; "01"; "+1"; ".5"; "nul"; "'abc"; "{'type':'done'} x"; " "]
  = [None; None; None; None; None; None; None; None; None; None].
Proof. vm_compute. reflexivity. Qed.

Example append_values :
  map (fun t => match JSON.parse (JSString.quoted t) with
                | Some v => JS.append "x" v
                | None => None
                end)
    ["null"; "true"; "1.50"; "[1,[2,null],'a']"; "{'a':1}"; "{'toString':1}"]
  = [Some "xnull"; Some "xtrue"; Some "x1.5"; Some "x1,2,,a"; Some "x[object Object]"; None].
Proof. vm_compute. reflexivity. Qed.

Example split_lines :
  JSString.split JSString.LF (String "a" (String JSString.LF (String "b" (String JSString.LF EmptyString))))
  = ["a"; "b"; EmptyString].
Proof. reflexivity. Qed.

Example trim_both_ends :
  JSString.trim (String JSString.TAB (String " " ("a b " ++ String JSString.LF EmptyString)))
  = "a b".
Proof. reflexivity. Qed.

End BuiltIns.

(** ** Strings and lines *)

Section Lines.
Import JSString.

(** A line without line feed, then a line feed, then the rest. *)
Lemma split_line (line rest : string) :
  Stream.no_LF line = true ->
  split LF (line ++ String LF rest)%string = line :: split LF rest.
Proof.
  induction line as [|a l IH]; simpl; intros H; [reflexivity|].
  apply andb_true_iff in H as [Ha Hl].
  apply negb_true_iff in Ha. rewrite Ha, (IH Hl). reflexivity.
Qed.

Lemma split_no_LF (line : string) :
  Stream.no_LF line = true -> split LF line = [line].
Proof.
  induction line as [|a l IH]; simpl; intros H; [reflexivity|].
  apply andb_true_iff in H as [Ha Hl].
  apply negb_true_iff in Ha. rewrite Ha, (IH Hl). reflexivity.
Qed.

(** A line feed put after [a] closes the last line of [a]. *)
Lemma split_app_LF (a b : string) :
  exists la l,
    split LF a = la ++ [l]
    /\ split LF (a ++ String LF b)%string = la ++ l :: split LF b.
Proof.
  induction a as [|c r (la & l & E1 & E2)].
  - exists [], EmptyString. split; reflexivity.
  - cbn [String.append split]. rewrite E1, E2.
    destruct (Ascii.eqb c LF).
    + exists (EmptyString :: la), l. split; reflexivity.
    + destruct la as [|h t].
      * exists [], (String c l). split; reflexivity.
      * exists (String c h :: t), l. split; reflexivity.
Qed.

Lemma whole_lines_last (a : string) :
  Stream.whole_lines a = true -> a <> EmptyString ->
  exists a', a = (a' ++ String LF EmptyString)%string.
Proof.
  induction a as [|c r IH]; intros Hw Hne; [congruence|].
  destruct r as [|c' r'].
  - simpl in Hw. apply Ascii.eqb_eq in Hw. subst c. exists EmptyString. reflexivity.
  - destruct IH as [a' E]; [exact Hw|discriminate|].
    exists (String c a'). simpl. rewrite <- E. reflexivity.
Qed.

Lemma append_assoc (a b c : string) :
  ((a ++ b) ++ c = a ++ (b ++ c))%string.
Proof. induction a as [|x a IH]; simpl; [reflexivity|]. rewrite IH. reflexivity. Qed.

Lemma append_nil_r (a : string) : (a ++ EmptyString)%string = a.
Proof. induction a as [|x a IH]; simpl; [reflexivity|]. rewrite IH. reflexivity. Qed.

(** Text made of whole lines splits into its lines and one empty line
    more; the text put after it takes the place of that empty line. *)
Lemma split_whole_lines (a b : string) :
  Stream.whole_lines a = true -> a <> EmptyString ->
  exists la, split LF a = la ++ [EmptyString] /\ split LF (a ++ b)%string = la ++ split LF b.
Proof.
  intros Hw Hne. destruct (whole_lines_last a Hw Hne) as [a' ->].
  destruct (split_app_LF a' EmptyString) as (la & l & E1 & E2).
  destruct (split_app_LF a' b) as (la' & l' & E1' & E2').
  rewrite E1 in E1'. apply app_inj_tail in E1' as [<- <-].
  exists (la ++ [l]). rewrite E2, append_assoc. cbn [String.append].
  rewrite E2'. cbn [split]. rewrite <- !app_assoc. split; reflexivity.
Qed.

End Lines.

(** ** The parser

    What [JSON.parse] leaves is shorter than what it was given; the fuel
    it runs on is enough; and a text it reads as an object, an array, a
    string or a keyword stops being JSON when more than white space is
    put after it. *)

Section Parser.
Import JSON.

Lemma strip_cons (c : ascii) (s r : string) : strip c s = Some r -> s = String c r.
Proof.
  destruct s as [|a t]; cbn; [discriminate|].
  destruct (Ascii.eqb_spec a c); [|discriminate]. intros H. inversion H. subst. reflexivity.
Qed.

Lemma skip_ws_length (s : string) : String.length (skip_ws s) <= String.length s.
Proof.
  induction s as [|a r IH]; cbn; [lia|]. destruct (is_ws a); cbn; lia.
Qed.

Lemma span_digits_length (s d r : string) :
  span_digits s = (d, r) -> String.length s = String.length d + String.length r.
Proof.
  revert d r. induction s as [|a t IH]; cbn; intros d r H.
  - inversion H. reflexivity.
  - destruct (digit_val a).
    + destruct (span_digits t) as [d' r'] eqn:E. inversion H; subst. cbn.
      rewrite (IH d' r eq_refl). reflexivity.
    + inversion H. reflexivity.
Qed.

Lemma sign_length (plus : bool) (s r : string) (b : bool) :
  sign plus s = (b, r) -> String.length r <= String.length s.
Proof.
  unfold sign. destruct (strip "-" s) eqn:E1.
  - apply strip_cons in E1. intros H. inversion H. subst. cbn. lia.
  - destruct plus.
    + destruct (strip "+" s) eqn:E2.
      * apply strip_cons in E2. intros H. inversion H. subst. cbn. lia.
      * intros H. inversion H. lia.
    + intros H. inversion H. lia.
Qed.

Lemma fraction_length (s fp r : string) :
  fraction s = Some (fp, r) -> String.length r <= String.length s.
Proof.
  unfold fraction. destruct (strip "." s) eqn:E.
  - apply strip_cons in E. subst. destruct (span_digits s0) as [d r'] eqn:Ed.
    destruct (JSString.isEmpty d); [discriminate|]. intros H. inversion H. subst.
    apply span_digits_length in Ed. cbn. lia.
  - intros H. inversion H. lia.
Qed.

Lemma exponent_length (s r : string) (e : Z) :
  exponent s = Some (e, r) -> String.length r <= String.length s.
Proof.
  unfold exponent.
  destruct (match strip "e" s with Some r => Some r | None => strip "E" s end) as [t|] eqn:E.
  - assert (Ht : String.length t < String.length s).
    { destruct (strip "e" s) eqn:E1.
      - inversion E. subst. apply strip_cons in E1. subst. cbn. lia.
      - apply strip_cons in E. subst. cbn. lia. }
    destruct (sign true t) as [eneg r1] eqn:Es. apply sign_length in Es.
    destruct (span_digits r1) as [ep r2] eqn:Ed. apply span_digits_length in Ed.
    destruct (JSString.isEmpty ep); [discriminate|]. intros H. inversion H. subst. lia.
  - intros H. inversion H. lia.
Qed.

Lemma parse_number_shorter (s r : string) (x : Number.Double) :
  parse_number s = Some (x, r) -> String.length r < String.length s.
Proof.
  unfold parse_number. destruct (sign false s) as [neg s1] eqn:Es. apply sign_length in Es.
  destruct (span_digits s1) as [ip s2] eqn:Ed. apply span_digits_length in Ed.
  destruct ip as [|c ip']; [discriminate|]. cbn [JSString.isEmpty].
  destruct (String.prefix "0" (String c ip') && (1 <? String.length (String c ip'))%nat)%bool;
    [discriminate|].
  destruct (fraction s2) as [[fp s3]|] eqn:Ef; [|discriminate]. apply fraction_length in Ef.
  destruct (exponent s3) as [[e s4]|] eqn:Ee; [|discriminate]. apply exponent_length in Ee.
  intros H. inversion H. subst. cbn in Ed. lia.
Qed.

Lemma scan_string_shorter (s r : string) (us : list StringUnit) :
  scan_string s = Some (us, r) -> String.length r < String.length s.
Proof.
  remember (String.length s) as n eqn:En. revert s r us En.
  induction n as [n IH] using lt_wf_ind. intros s r us En.
  destruct s as [|a t]; cbn [scan_string]; [discriminate|].
  destruct (Ascii.eqb a JSString.QUOTE).
  { intros H. inversion H. subst. cbn. lia. }
  destruct (Ascii.eqb a "\").
  { destruct t as [|b t2]; [discriminate|].
    destruct (Ascii.eqb b "u").
    - destruct t2 as [|h1 [|h2 [|h3 [|h4 t3]]]]; try discriminate.
      destruct (hex_val h1), (hex_val h2), (hex_val h3), (hex_val h4); try discriminate.
      destruct (scan_string t3) as [[us' rest]|] eqn:E; [|discriminate].
      intros H. inversion H. subst.
      apply (IH (String.length t3)) in E; cbn in *; try lia; reflexivity.
    - destruct (escape b); [|discriminate].
      destruct (scan_string t2) as [[us' rest]|] eqn:E; [|discriminate].
      intros H. inversion H. subst.
      apply (IH (String.length t2)) in E; cbn in *; try lia; reflexivity. }
  destruct (nat_of_ascii a <? 32)%nat; [discriminate|].
  destruct (scan_string t) as [[us' rest]|] eqn:E; [|discriminate].
  intros H. inversion H. subst.
  apply (IH (String.length t)) in E; cbn in *; try lia; reflexivity.
Qed.

Lemma keyword_shorter (k : string) (v v' : JSValue) (s r : string) :
  k <> EmptyString -> keyword k v s = Some (v', r) -> String.length r < String.length s.
Proof.
  unfold keyword. intros Hk. destruct (String.prefix k s) eqn:E; [|discriminate].
  intros H. inversion H. subst. clear H.
  revert s E. induction k as [|c k IH]; [congruence|]. intros s E.
  destruct s as [|a t]; [discriminate|]. cbn in E.
  destruct (ascii_dec c a); [|discriminate]. cbn [String.length JSString.slice].
  destruct k as [|c' k'].
  - cbn. lia.
  - specialize (IH ltac:(discriminate) t E). lia.
Qed.

Ltac keyword_case :=
  match goal with
  | H : keyword ?k _ _ = Some _ |- _ =>
      apply keyword_shorter in H; [|discriminate]
  end.

(** Every parser leaves less than it was given. *)
Lemma parse_shorter (f : nat) :
  (forall s v r, parse_value f s = Some (v, r) -> String.length r < String.length s)
  /\ (forall s acc v r, parse_elements f s acc = Some (v, r) -> String.length r < String.length s)
  /\ (forall s acc v r, parse_members f s acc = Some (v, r) -> String.length r < String.length s).
Proof.
  induction f as [|f (IHv & IHe & IHm)]; [repeat split; intros; discriminate|].
  repeat split.
  - intros s v r. cbn [parse_value].
    pose proof (skip_ws_length s) as Hs.
    destruct (skip_ws s) as [|a t] eqn:Et; [discriminate|]. cbn [String.length] in Hs.
    destruct (Ascii.eqb a "{").
    { pose proof (skip_ws_length t) as Ht.
      destruct (strip "}" (skip_ws t)) eqn:E.
      - apply strip_cons in E. rewrite E in Ht. cbn in Ht. intros H. inversion H. subst. lia.
      - intros H. apply IHm in H. lia. }
    destruct (Ascii.eqb a "[").
    { pose proof (skip_ws_length t) as Ht.
      destruct (strip "]" (skip_ws t)) eqn:E.
      - apply strip_cons in E. rewrite E in Ht. cbn in Ht. intros H. inversion H. subst. lia.
      - intros H. apply IHe in H. lia. }
    destruct (Ascii.eqb a JSString.QUOTE).
    { unfold parse_string. destruct (scan_string t) as [[us rest]|] eqn:E; [|discriminate].
      apply scan_string_shorter in E. intros H. inversion H. subst. lia. }
    destruct (Ascii.eqb a "t"); [intros H; keyword_case; cbn in H; lia|].
    destruct (Ascii.eqb a "f"); [intros H; keyword_case; cbn in H; lia|].
    destruct (Ascii.eqb a "n"); [intros H; keyword_case; cbn in H; lia|].
    destruct (parse_number (String a t)) as [[x r']|] eqn:E; [|discriminate].
    apply parse_number_shorter in E. cbn in E. intros H. inversion H. subst. lia.
  - intros s acc v r. cbn [parse_elements].
    destruct (parse_value f s) as [[v' r']|] eqn:E; [|discriminate]. apply IHv in E.
    pose proof (skip_ws_length r') as Hr.
    destruct (strip "," (skip_ws r')) eqn:E1.
    + apply strip_cons in E1. rewrite E1 in Hr. cbn in Hr. intros H. apply IHe in H. lia.
    + destruct (strip "]" (skip_ws r')) eqn:E2; [|discriminate].
      apply strip_cons in E2. rewrite E2 in Hr. cbn in Hr. intros H. inversion H. subst. lia.
  - intros s acc v r. cbn [parse_members].
    pose proof (skip_ws_length s) as Hs.
    destruct (strip JSString.QUOTE (skip_ws s)) as [t|] eqn:E0; [|discriminate].
    apply strip_cons in E0. rewrite E0 in Hs. cbn in Hs.
    unfold parse_string. destruct (scan_string t) as [[us r1]|] eqn:E1; [|discriminate].
    apply scan_string_shorter in E1.
    pose proof (skip_ws_length r1) as Hr1.
    destruct (strip ":" (skip_ws r1)) as [r2|] eqn:E2; [|discriminate].
    apply strip_cons in E2. rewrite E2 in Hr1. cbn in Hr1.
    destruct (parse_value f r2) as [[v' r3]|] eqn:E3; [|discriminate]. apply IHv in E3.
    pose proof (skip_ws_length r3) as Hr3.
    destruct (strip "," (skip_ws r3)) eqn:E4.
    + apply strip_cons in E4. rewrite E4 in Hr3. cbn in Hr3. intros H. apply IHm in H. lia.
    + destruct (strip "}" (skip_ws r3)) eqn:E5; [|discriminate].
      apply strip_cons in E5. rewrite E5 in Hr3. cbn in Hr3. intros H. inversion H. subst. lia.
Qed.

(** Fuel twice the length of the text, and a little, is fuel enough:
    what any amount of fuel parses, that amount parses. *)
Lemma parse_enough (f : nat) :
  (forall s res g,
      parse_value f s = Some res -> 2 * String.length s + 2 <= g ->
      parse_value g s = Some res)
  /\ (forall s acc res g,
        parse_elements f s acc = Some res -> 2 * String.length s + 3 <= g ->
        parse_elements g s acc = Some res)
  /\ (forall s acc res g,
        parse_members f s acc = Some res -> 2 * String.length s + 3 <= g ->
        parse_members g s acc = Some res).
Proof.
  induction f as [|f (IHv & IHe & IHm)]; [repeat split; intros; discriminate|].
  repeat split.
  - intros s res [|g] H Hg; [lia|]. revert H. cbn [parse_value].
    pose proof (skip_ws_length s) as Hs.
    destruct (skip_ws s) as [|a t] eqn:Et; [discriminate|]. cbn [String.length] in Hs.
    pose proof (skip_ws_length t) as Ht.
    destruct (Ascii.eqb a "{").
    { destruct (strip "}" (skip_ws t)); [trivial|]. intros H. apply (IHm _ _ _ _ H). lia. }
    destruct (Ascii.eqb a "[").
    { destruct (strip "]" (skip_ws t)); [trivial|]. intros H. apply (IHe _ _ _ _ H). lia. }
    trivial.
  - intros s acc res [|g] H Hg; [lia|]. revert H. cbn [parse_elements].
    destruct (parse_value f s) as [[v r]|] eqn:E; [|discriminate].
    rewrite (IHv _ _ g E) by lia.
    apply (proj1 (parse_shorter f)) in E.
    pose proof (skip_ws_length r) as Hr.
    destruct (strip "," (skip_ws r)) eqn:E1; [|trivial].
    apply strip_cons in E1. rewrite E1 in Hr. cbn in Hr.
    intros H. apply (IHe _ _ _ _ H). lia.
  - intros s acc res [|g] H Hg; [lia|]. revert H. cbn [parse_members].
    pose proof (skip_ws_length s) as Hs.
    destruct (strip JSString.QUOTE (skip_ws s)) as [t|] eqn:E0; [|discriminate].
    apply strip_cons in E0. rewrite E0 in Hs. cbn in Hs.
    unfold parse_string. destruct (scan_string t) as [[us r1]|] eqn:E1; [|discriminate].
    apply scan_string_shorter in E1.
    pose proof (skip_ws_length r1) as Hr1.
    destruct (strip ":" (skip_ws r1)) as [r2|] eqn:E2; [|discriminate].
    apply strip_cons in E2. rewrite E2 in Hr1. cbn in Hr1.
    destruct (parse_value f r2) as [[v r3]|] eqn:E3; [|discriminate].
    rewrite (IHv _ _ g E3) by lia.
    apply (proj1 (parse_shorter f)) in E3.
    pose proof (skip_ws_length r3) as Hr3.
    destruct (strip "," (skip_ws r3)) eqn:E4; [|trivial].
    apply strip_cons in E4. rewrite E4 in Hr3. cbn in Hr3.
    intros H. apply (IHm _ _ _ _ H). lia.
Qed.

(** [JSON.parse] fails for no lack of fuel: it answers what the parser
    answers with any fuel that lets it answer. *)
Theorem parse_any_fuel (f : nat) (text : string) (v : JSValue) (r : string) :
  parse_value f text = Some (v, r) ->
  JSON.parse text = if JSString.isEmpty (skip_ws r) then Some v else None.
Proof.
  intros H. unfold JSON.parse.
  rewrite (proj1 (parse_enough f) _ _ (2 * String.length text + 2) H); [reflexivity|lia].
Qed.

(** *** Text put after the input *)

Lemma skip_ws_app (s x : string) :
  skip_ws s <> EmptyString -> skip_ws (s ++ x)%string = (skip_ws s ++ x)%string.
Proof.
  induction s as [|a r IH]; cbn; [congruence|].
  destruct (is_ws a); [exact IH|reflexivity].
Qed.

Lemma skip_ws_blank (s x : string) :
  skip_ws s = EmptyString -> skip_ws (s ++ x)%string = skip_ws x.
Proof.
  induction s as [|a r IH]; cbn; [reflexivity|].
  destruct (is_ws a); [exact IH|discriminate].
Qed.

Lemma strip_app (c : ascii) (s r x : string) :
  strip c s = Some r -> strip c (s ++ x)%string = Some (r ++ x)%string.
Proof. intros H. apply strip_cons in H. subst. cbn. rewrite Ascii.eqb_refl. reflexivity. Qed.

Lemma strip_app_none (c : ascii) (s x : string) :
  strip c s = None -> s <> EmptyString -> strip c (s ++ x)%string = None.
Proof. destruct s as [|a r]; cbn; [congruence|]. destruct (Ascii.eqb a c); congruence. Qed.

Lemma span_digits_more (s d r x : string) :
  span_digits s = (d, r) -> r <> EmptyString -> span_digits (s ++ x)%string = (d, (r ++ x)%string).
Proof.
  revert d r. induction s as [|a t IH]; cbn; intros d r H Hr.
  - inversion H. subst. congruence.
  - destruct (digit_val a).
    + destruct (span_digits t) as [d' r'] eqn:E. inversion H; subst.
      rewrite (IH d' r eq_refl Hr). reflexivity.
    + inversion H. reflexivity.
Qed.

Lemma sign_app (plus b : bool) (s r x : string) :
  sign plus s = (b, r) -> r <> EmptyString -> sign plus (s ++ x)%string = (b, (r ++ x)%string).
Proof.
  unfold sign. intros H Hr.
  assert (Hs : s <> EmptyString).
  { intros ->. cbn in H. destruct plus; inversion H; congruence. }
  destruct (strip "-" s) eqn:E1.
  - rewrite (strip_app _ _ _ x E1). inversion H. reflexivity.
  - rewrite (strip_app_none _ _ x E1 Hs). destruct plus.
    + destruct (strip "+" s) eqn:E2.
      * rewrite (strip_app _ _ _ x E2). inversion H. reflexivity.
      * rewrite (strip_app_none _ _ x E2 Hs). inversion H. reflexivity.
    + inversion H. reflexivity.
Qed.

Lemma fraction_app (s fp r x : string) :
  fraction s = Some (fp, r) -> r <> EmptyString ->
  fraction (s ++ x)%string = Some (fp, (r ++ x)%string).
Proof.
  unfold fraction. intros H Hr.
  assert (Hs : s <> EmptyString).
  { intros ->. cbn in H. inversion H. congruence. }
  destruct (strip "." s) as [t|] eqn:E.
  - rewrite (strip_app _ _ _ x E).
    destruct (span_digits t) as [d r'] eqn:Ed.
    destruct (JSString.isEmpty d) eqn:Ee; [discriminate|]. inversion H. subst.
    rewrite (span_digits_more _ _ _ x Ed Hr), Ee. reflexivity.
  - rewrite (strip_app_none _ _ x E Hs). inversion H. reflexivity.
Qed.

Lemma exponent_app (s r x : string) (e : Z) :
  exponent s = Some (e, r) -> r <> EmptyString ->
  exponent (s ++ x)%string = Some (e, (r ++ x)%string).
Proof.
  unfold exponent. intros H Hr.
  assert (Hs : s <> EmptyString).
  { intros ->. cbn in H. inversion H. congruence. }
  destruct (strip "e" s) as [t|] eqn:E1.
  - rewrite (strip_app _ _ _ x E1).
    destruct (sign true t) as [eneg r1] eqn:Es.
    destruct (span_digits r1) as [ep r2] eqn:Ed.
    destruct (JSString.isEmpty ep) eqn:Ee; [discriminate|]. inversion H. subst.
    assert (Hr1 : r1 <> EmptyString).
    { intros ->. cbn in Ed. inversion Ed. congruence. }
    rewrite (sign_app _ _ _ _ x Es Hr1), (span_digits_more _ _ _ x Ed Hr), Ee. reflexivity.
  - rewrite (strip_app_none _ _ x E1 Hs).
    destruct (strip "E" s) as [t|] eqn:E2.
    + rewrite (strip_app _ _ _ x E2).
      destruct (sign true t) as [eneg r1] eqn:Es.
      destruct (span_digits r1) as [ep r2] eqn:Ed.
      destruct (JSString.isEmpty ep) eqn:Ee; [discriminate|]. inversion H. subst.
      assert (Hr1 : r1 <> EmptyString).
      { intros ->. cbn in Ed. inversion Ed. congruence. }
      rewrite (sign_app _ _ _ _ x Es Hr1), (span_digits_more _ _ _ x Ed Hr), Ee. reflexivity.
    + rewrite (strip_app_none _ _ x E2 Hs). inversion H. reflexivity.
Qed.

Lemma length_nonempty (r s : string) :
  String.length r <= String.length s -> r <> EmptyString -> s <> EmptyString.
Proof. destruct s; [destruct r; cbn; [congruence|lia]|discriminate]. Qed.

Lemma parse_number_app (s r x : string) (n : Number.Double) :
  parse_number s = Some (n, r) -> r <> EmptyString ->
  parse_number (s ++ x)%string = Some (n, (r ++ x)%string).
Proof.
  unfold parse_number. intros H Hr.
  destruct (sign false s) as [neg s1] eqn:Es.
  destruct (span_digits s1) as [ip s2] eqn:Ed.
  destruct (JSString.isEmpty ip) eqn:Ei; [discriminate|].
  destruct (String.prefix "0" ip && (1 <? String.length ip)%nat)%bool eqn:Ez; [discriminate|].
  destruct (fraction s2) as [[fp s3]|] eqn:Ef; [|discriminate].
  destruct (exponent s3) as [[e s4]|] eqn:Ee; [|discriminate].
  inversion H. subst.
  assert (H3 : s3 <> EmptyString) by (eapply length_nonempty; [eapply exponent_length|]; eassumption).
  assert (H2 : s2 <> EmptyString) by (eapply length_nonempty; [eapply fraction_length|]; eassumption).
  assert (H1 : s1 <> EmptyString).
  { apply span_digits_length in Ed. destruct s1; [|discriminate].
    destruct s2; [congruence|]. cbn in Ed. lia. }
  rewrite (sign_app _ _ _ _ x Es H1), (span_digits_more _ _ _ x Ed H2), Ei, Ez,
    (fraction_app _ _ _ x Ef H3), (exponent_app _ _ x _ Ee Hr). reflexivity.
Qed.

Lemma scan_string_app (s r x : string) (us : list StringUnit) :
  scan_string s = Some (us, r) -> scan_string (s ++ x)%string = Some (us, (r ++ x)%string).
Proof.
  remember (String.length s) as n eqn:En. revert s r us En.
  induction n as [n IH] using lt_wf_ind. intros s r us En.
  destruct s as [|a t]; cbn [scan_string String.append]; [discriminate|].
  destruct (Ascii.eqb a JSString.QUOTE).
  { intros H. inversion H. reflexivity. }
  destruct (Ascii.eqb a "\").
  { destruct t as [|b t2]; [discriminate|]. cbn [String.append].
    destruct (Ascii.eqb b "u").
    - destruct t2 as [|h1 [|h2 [|h3 [|h4 t3]]]]; try discriminate. cbn [String.append].
      destruct (hex_val h1), (hex_val h2), (hex_val h3), (hex_val h4); try discriminate.
      destruct (scan_string t3) as [[us' rest]|] eqn:E; [|discriminate].
      intros H. inversion H. subst.
      rewrite (IH (String.length t3) ltac:(cbn; lia) t3 r us' eq_refl E). reflexivity.
    - destruct (escape b); [|discriminate].
      destruct (scan_string t2) as [[us' rest]|] eqn:E; [|discriminate].
      intros H. inversion H. subst.
      rewrite (IH (String.length t2) ltac:(cbn; lia) t2 r us' eq_refl E). reflexivity. }
  destruct (nat_of_ascii a <? 32)%nat; [discriminate|].
  destruct (scan_string t) as [[us' rest]|] eqn:E; [|discriminate].
  intros H. inversion H. subst.
  rewrite (IH (String.length t) ltac:(cbn; lia) t r us' eq_refl E). reflexivity.
Qed.

Lemma parse_string_app (s r x k : string) :
  parse_string s = Some (k, r) -> parse_string (s ++ x)%string = Some (k, (r ++ x)%string).
Proof.
  unfold parse_string. destruct (scan_string s) as [[us rest]|] eqn:E; [|discriminate].
  intros H. inversion H. subst. rewrite (scan_string_app _ _ x _ E). reflexivity.
Qed.

Lemma prefix_app (k s x : string) :
  String.prefix k s = true -> String.prefix k (s ++ x)%string = true.
Proof.
  revert s. induction k as [|c k IH]; intros s;
    [intros _; destruct (s ++ x)%string; reflexivity|].
  destruct s as [|a t]; cbn; [discriminate|].
  destruct (ascii_dec c a); [apply IH|discriminate].
Qed.

Lemma slice_app (n : nat) (s x : string) :
  n <= String.length s -> JSString.slice n (s ++ x)%string = (JSString.slice n s ++ x)%string.
Proof.
  revert s. induction n as [|n IH]; intros s H; [reflexivity|].
  destruct s as [|a t]; cbn in *; [lia|]. apply IH. lia.
Qed.

Lemma prefix_length (k s : string) :
  String.prefix k s = true -> String.length k <= String.length s.
Proof.
  revert s. induction k as [|c k IH]; intros s; [cbn; lia|].
  destruct s as [|a t]; cbn; [discriminate|]. destruct (ascii_dec c a); [|discriminate].
  intros H. apply IH in H. lia.
Qed.

Lemma keyword_app (k : string) (v v' : JSValue) (s r x : string) :
  keyword k v s = Some (v', r) -> keyword k v (s ++ x)%string = Some (v', (r ++ x)%string).
Proof.
  unfold keyword. destruct (String.prefix k s) eqn:E; [|discriminate].
  intros H. inversion H. subst.
  rewrite (prefix_app _ _ x E), (slice_app _ _ x (prefix_length _ _ E)). reflexivity.
Qed.

Lemma strip_some_nonempty (c : ascii) (s r : string) : strip c s = Some r -> s <> EmptyString.
Proof. destruct s; cbn; [discriminate|]. intros _. discriminate. Qed.

Lemma skip_ws_nonempty (s : string) : skip_ws s <> EmptyString -> s <> EmptyString.
Proof. destruct s; cbn; congruence. Qed.

Lemma parse_members_blank (f : nat) (s : string) (acc : list (string * JSValue)) :
  skip_ws s = EmptyString -> parse_members f s acc = None.
Proof. intros H. destruct f; cbn [parse_members]; [reflexivity|]. rewrite H. reflexivity. Qed.

Lemma parse_value_blank (f : nat) (s : string) :
  skip_ws s = EmptyString -> parse_value f s = None.
Proof. intros H. destruct f; cbn [parse_value]; [reflexivity|]. rewrite H. reflexivity. Qed.

Lemma parse_elements_blank (f : nat) (s : string) (acc : list JSValue) :
  skip_ws s = EmptyString -> parse_elements f s acc = None.
Proof.
  intros H. destruct f; cbn [parse_elements]; [reflexivity|].
  rewrite (parse_value_blank _ _ H). reflexivity.
Qed.

(** Text put after the input of a parser that stopped before the end of
    its input, or at the closing character of what it read, is left over
    with the rest: only a number looks at what follows it. *)
Lemma parse_app (f : nat) :
  (forall s v r x,
      parse_value f s = Some (v, r) ->
      r <> EmptyString \/ JS.is_number v = false ->
      parse_value f (s ++ x)%string = Some (v, (r ++ x)%string))
  /\ (forall s acc v r x,
        parse_elements f s acc = Some (v, r) ->
        parse_elements f (s ++ x)%string acc = Some (v, (r ++ x)%string))
  /\ (forall s acc v r x,
        parse_members f s acc = Some (v, r) ->
        parse_members f (s ++ x)%string acc = Some (v, (r ++ x)%string)).
Proof.
  induction f as [|f (IHv & IHe & IHm)]; [repeat split; intros; discriminate|].
  repeat split.
  - intros s v r x. cbn [parse_value].
    destruct (skip_ws s) as [|a t] eqn:Et; [discriminate|].
    rewrite (skip_ws_app s x) by (rewrite Et; discriminate). rewrite Et.
    cbn [String.append].
    destruct (Ascii.eqb a "{").
    { destruct (strip "}" (skip_ws t)) as [r'|] eqn:E.
      - rewrite (skip_ws_app t x) by (eapply strip_some_nonempty; eassumption).
        rewrite (strip_app _ _ _ x E). intros H _. inversion H. reflexivity.
      - intros H _. destruct (skip_ws t) eqn:Ew.
        + rewrite (parse_members_blank _ _ _ Ew) in H. discriminate.
        + rewrite (skip_ws_app t x) by (rewrite Ew; discriminate). rewrite Ew.
          rewrite (strip_app_none _ _ x E) by discriminate. apply IHm, H. }
    destruct (Ascii.eqb a "[").
    { destruct (strip "]" (skip_ws t)) as [r'|] eqn:E.
      - rewrite (skip_ws_app t x) by (eapply strip_some_nonempty; eassumption).
        rewrite (strip_app _ _ _ x E). intros H _. inversion H. reflexivity.
      - intros H _. destruct (skip_ws t) eqn:Ew.
        + rewrite (parse_elements_blank _ _ _ Ew) in H. discriminate.
        + rewrite (skip_ws_app t x) by (rewrite Ew; discriminate). rewrite Ew.
          rewrite (strip_app_none _ _ x E) by discriminate. apply IHe, H. }
    destruct (Ascii.eqb a JSString.QUOTE).
    { destruct (parse_string t) as [[k r']|] eqn:E; [|discriminate].
      rewrite (parse_string_app _ _ x _ E). intros H _. inversion H. reflexivity. }
    destruct (Ascii.eqb a "t").
    { intros H _. apply (keyword_app _ _ _ _ _ x) in H. exact H. }
    destruct (Ascii.eqb a "f").
    { intros H _. apply (keyword_app _ _ _ _ _ x) in H. exact H. }
    destruct (Ascii.eqb a "n").
    { intros H _. apply (keyword_app _ _ _ _ _ x) in H. exact H. }
    destruct (parse_number (String a t)) as [[n r']|] eqn:E; [|discriminate].
    intros H Hr. inversion H. subst. destruct Hr as [Hr|Hr]; [|discriminate].
    apply (parse_number_app _ _ x _) in E; [|exact Hr]. cbn [String.append] in E.
    rewrite E. reflexivity.
  - intros s acc v r x. cbn [parse_elements].
    destruct (parse_value f s) as [[v' r']|] eqn:E; [|discriminate].
    destruct (skip_ws r') as [|b u] eqn:Ew; [discriminate|].
    assert (Hw : skip_ws r' <> EmptyString) by (rewrite Ew; discriminate).
    rewrite (IHv _ _ _ x E) by (left; apply skip_ws_nonempty, Hw).
    rewrite (skip_ws_app r' x Hw), Ew.
    destruct (strip "," (String b u)) as [r2|] eqn:E1.
    + rewrite (strip_app _ _ _ x E1). apply IHe.
    + rewrite (strip_app_none _ _ x E1) by discriminate.
      destruct (strip "]" (String b u)) as [r2|] eqn:E2; [|discriminate].
      rewrite (strip_app _ _ _ x E2). intros H. inversion H. reflexivity.
  - intros s acc v r x. cbn [parse_members].
    destruct (strip JSString.QUOTE (skip_ws s)) as [t|] eqn:E0; [|discriminate].
    rewrite (skip_ws_app s x) by (eapply strip_some_nonempty; eassumption).
    rewrite (strip_app _ _ _ x E0).
    destruct (parse_string t) as [[k r1]|] eqn:E1; [|discriminate].
    rewrite (parse_string_app _ _ x _ E1).
    destruct (strip ":" (skip_ws r1)) as [r2|] eqn:E2; [|discriminate].
    rewrite (skip_ws_app r1 x) by (eapply strip_some_nonempty; eassumption).
    rewrite (strip_app _ _ _ x E2).
    destruct (parse_value f r2) as [[v' r3]|] eqn:E3; [|discriminate].
    destruct (skip_ws r3) as [|b u] eqn:Ew; [discriminate|].
    assert (Hw : skip_ws r3 <> EmptyString) by (rewrite Ew; discriminate).
    rewrite (IHv _ _ _ x E3) by (left; apply skip_ws_nonempty, Hw).
    rewrite (skip_ws_app r3 x Hw), Ew.
    destruct (strip "," (String b u)) as [r4|] eqn:E4.
    + rewrite (strip_app _ _ _ x E4). apply IHm.
    + rewrite (strip_app_none _ _ x E4) by discriminate.
      destruct (strip "}" (String b u)) as [r4|] eqn:E5; [|discriminate].
      rewrite (strip_app _ _ _ x E5). intros H. inversion H. reflexivity.
Qed.

(** A text that parses to anything but a number no longer parses when
    more than white space is put after it. *)
Theorem parse_cut (head tail : string) (v : JSValue) :
  JSON.parse head = Some v ->
  JS.is_number v = false ->
  skip_ws tail <> EmptyString ->
  JSON.parse (head ++ tail)%string = None.
Proof.
  unfold JSON.parse at 1. intros H Hv Ht.
  destruct (parse_value (2 * String.length head + 2) head) as [[v' r]|] eqn:E; [|discriminate].
  destruct (JSString.isEmpty (skip_ws r)) eqn:Er; [|discriminate].
  inversion H. subst v'.
  apply (proj1 (parse_app _) _ _ _ tail) in E; [|right; exact Hv].
  rewrite (parse_any_fuel _ _ _ _ E).
  assert (Hr : skip_ws r = EmptyString) by (destruct (skip_ws r); [reflexivity|discriminate]).
  rewrite (skip_ws_blank _ _ Hr).
  destruct (skip_ws tail); [congruence|reflexivity].
Qed.

(** *** [JSON.stringify] and back *)

Lemma scan_quote_char (a : ascii) (rest : string) :
  scan_string (quote_char a ++ rest)%string =
  match scan_string rest with
  | Some (us, r) => Some (unit_of a :: us, r)
  | None => None
  end.
Proof.
  destruct a as [[] [] [] [] [] [] [] []]; reflexivity.
Qed.

Lemma encode_unit_of (a : ascii) (us : list StringUnit) :
  encode_units (unit_of a :: us) = String a (encode_units us).
Proof.
  destruct a as [[] [] [] [] [] [] [] []]; try reflexivity;
    destruct us as [|[] ?]; reflexivity.
Qed.

Lemma encode_units_units (s : string) : encode_units (units s) = s.
Proof.
  induction s as [|a r IH]; [reflexivity|].
  cbn [units]. rewrite encode_unit_of, IH. reflexivity.
Qed.

Lemma scan_quote_chars (s rest : string) :
  scan_string (quote_chars s ++ String JSString.QUOTE rest)%string = Some (units s, rest).
Proof.
  induction s as [|a r IH]; [reflexivity|].
  cbn [quote_chars units]. rewrite append_assoc, scan_quote_char, IH. reflexivity.
Qed.

(** What [JSON.stringify] writes for a string, [JSON.parse] reads back. *)
Lemma parse_stringify (s rest : string) :
  parse_string (quote_chars s ++ String JSString.QUOTE rest)%string = Some (s, rest).
Proof.
  unfold parse_string. rewrite scan_quote_chars, encode_units_units. reflexivity.
Qed.

Lemma stringify_app (s rest : string) :
  (stringify s ++ rest)%string
  = String JSString.QUOTE (quote_chars s ++ String JSString.QUOTE rest).
Proof. unfold stringify. cbn [String.append]. rewrite append_assoc. reflexivity. Qed.

Lemma parse_value_quote (f : nat) (r : string) :
  parse_value (S f) (String JSString.QUOTE r)
  = match parse_string r with
    | Some (x, r') => Some (JString x, r')
    | None => None
    end.
Proof. reflexivity. Qed.

Lemma parse_value_brace (f : nat) (r : string) :
  parse_value (S f) (String "{" r)
  = match strip "}" (skip_ws r) with
    | Some r' => Some (JObject [], r')
    | None => parse_members f r []
    end.
Proof. reflexivity. Qed.

Lemma parse_members_quote (f : nat) (r : string) (acc : list (string * JSValue)) :
  parse_members (S f) (String JSString.QUOTE r) acc
  = match parse_string r with
    | Some (k, r1) =>
        match strip ":" (skip_ws r1) with
        | Some r2 =>
            match parse_value f r2 with
            | Some (v, r3) =>
                match strip "," (skip_ws r3) with
                | Some r' => parse_members f r' (JS.define acc k v)
                | None =>
                    match strip "}" (skip_ws r3) with
                    | Some r' => Some (JObject (JS.define acc k v), r')
                    | None => None
                    end
                end
            | None => None
            end
        | None => None
        end
    | None => None
    end.
Proof. reflexivity. Qed.

(** A member whose value is a string. *)
Lemma parse_member (f : nat) (k v rest : string) (acc : list (string * JSValue)) :
  parse_members (S (S f)) (stringify k ++ ":" ++ stringify v ++ rest)%string acc
  = match strip "," (skip_ws rest) with
    | Some r' => parse_members (S f) r' (JS.define acc k (JString v))
    | None =>
        match strip "}" (skip_ws rest) with
        | Some r' => Some (JObject (JS.define acc k (JString v)), r')
        | None => None
        end
    end.
Proof.
  rewrite stringify_app, parse_members_quote, parse_stringify.
  cbn [String.append].
  change (strip ":" (skip_ws (String ":" (stringify v ++ rest))))
    with (Some (stringify v ++ rest)%string).
  rewrite stringify_app, parse_value_quote, parse_stringify. reflexivity.
Qed.

Lemma parse_member_next (f : nat) (k v more : string) (acc : list (string * JSValue)) :
  parse_members (S (S f)) (stringify k ++ ":" ++ stringify v ++ "," ++ more)%string acc
  = parse_members (S f) more (JS.define acc k (JString v)).
Proof. rewrite parse_member. reflexivity. Qed.

Lemma parse_member_last (f : nat) (k v rest : string) (acc : list (string * JSValue)) :
  parse_members (S (S f)) (stringify k ++ ":" ++ stringify v ++ String "}" rest)%string acc
  = Some (JObject (JS.define acc k (JString v)), rest).
Proof. rewrite parse_member. reflexivity. Qed.

Lemma strip_brace_stringify (k rest : string) :
  strip "}" (skip_ws (stringify k ++ rest)%string) = None.
Proof. rewrite stringify_app. reflexivity. Qed.

End Parser.

(** ** Decoding is event by event *)

Section Decoding.
Import WellnessChat Stream.

Variable handler : JSValue -> Turn -> option Turn.

Lemma decodeLine_event (line : string) (t : Turn) :
  decodeLine handler line t =
  match lineEvent line with
  | Some data => apply handler data t
  | None => t
  end.
Proof.
  unfold decodeLine, lineEvent, apply.
  destruct (JSString.startsWith "data: " line); [|reflexivity].
  destruct (JSON.parse (JSString.slice 6 line)); reflexivity.
Qed.

Lemma decodeLines_events (lines : list string) (t : Turn) :
  fold_left (fun acc line => decodeLine handler line acc) lines t =
  applyAll handler (eventsOf lines) t.
Proof.
  revert t. induction lines as [|l r IH]; intros t; [reflexivity|].
  cbn [fold_left eventsOf flat_map]. rewrite IH, decodeLine_event.
  unfold applyAll. rewrite fold_left_app.
  destruct (lineEvent l); reflexivity.
Qed.

Lemma decodeText_events (text : string) (t : Turn) :
  decodeText handler text t = applyAll handler (textEvents text) t.
Proof. apply decodeLines_events. Qed.

Lemma applyAll_app (e1 e2 : list JSValue) (t : Turn) :
  applyAll handler (e1 ++ e2) t = applyAll handler e2 (applyAll handler e1 t).
Proof. apply fold_left_app. Qed.

Lemma settleAll_app (e1 e2 : list JSValue) (x : Send) :
  settleAll handler (e1 ++ e2) x = settleAll handler e2 (settleAll handler e1 x).
Proof. apply fold_left_app. Qed.

(** Text made of whole lines can be decoded on its own. *)
Lemma decodeText_app (a b : string) (t : Turn) :
  whole_lines a = true ->
  decodeText handler (a ++ b)%string t = decodeText handler b (decodeText handler a t).
Proof.
  intros Hw. destruct a as [|c r] eqn:Ea; [reflexivity|]. rewrite <- Ea in *.
  destruct (split_whole_lines a b Hw) as (la & E1 & E2); [subst; discriminate|].
  unfold decodeText. rewrite E1, E2, !fold_left_app. reflexivity.
Qed.

End Decoding.

Section Loop.
Import WellnessChat Stream.

(** A run as its events: the chunk of one read, the chunks of a burst,
    the text of the fallback. *)
Lemma streamChunk_events (chunk : string) (x : Send) :
  streamChunk chunk x = commit (applyAll streamEvent (textEvents chunk) (start x)).
Proof. unfold streamChunk. rewrite decodeText_events. reflexivity. Qed.

Lemma streamReads_events (chunks : list string) (x : Send) :
  streamReads chunks x = commit (applyAll streamEvent (received chunks) (start x)).
Proof.
  unfold streamReads, received. f_equal. generalize (start x).
  induction chunks as [|c r IH]; intros t; [reflexivity|].
  cbn [fold_left flat_map]. rewrite applyAll_app, IH, decodeText_events. reflexivity.
Qed.

Lemma fallback_events (full : string) (x : Send) :
  fallback full x = commit (applyAll fallbackEvent (textEvents full) (start x)).
Proof. unfold fallback. rewrite decodeText_events. reflexivity. Qed.

Lemma streamReads_one (chunk : string) (x : Send) : streamReads [chunk] x = streamChunk chunk x.
Proof. reflexivity. Qed.

(** The functions queued, run one after the other. *)
Lemma iter_append (m : Message.t) (k : nat) (l : list Message.t) :
  Nat.iter k (fun prev => prev ++ [m]) l = l ++ repeat m k.
Proof.
  induction k as [|k IH]; [symmetry; apply app_nil_r|].
  rewrite Nat.iter_succ, IH, <- app_assoc. cbn [repeat]. f_equal. symmetry. apply repeat_cons.
Qed.

Lemma messages_commit (t : Turn) :
  messages (state (commit t))
  = messages (state (send t)) ++ repeat (finalize (currentStreamingMsg (send t))) (queued t).
Proof. unfold commit. cbn. apply iter_append. Qed.

(** A run in which nothing was queued leaves the send as it is. *)
Lemma commit_idle (t : Turn) : queued t = 0 -> commit t = send t.
Proof. destruct t as [[cur [m i l tp d e]] k]. cbn. intros ->. reflexivity. Qed.

Lemma commit_start (x : Send) : commit (start x) = x.
Proof. apply commit_idle. reflexivity. Qed.

(** *** What each event does *)

Lemma Get_defined (data : JSValue) (k k' : string) (v : JSValue) :
  JS.Get data k = Some v -> exists v', JS.Get data k' = Some v'.
Proof.
  destruct data; cbn; try discriminate; intros _; eauto.
  destruct (JS.own props k'); eauto.
Qed.

Lemma streamEvent_thinking (data : JSValue) (c : string) (t : Turn) :
  carries data (Thinking c) ->
  streamEvent data t =
  Some (republish (StreamingMessage.with_thinking
                     (StreamingMessage.thinking (currentStreamingMsg (send t)) ++ c)%string
                     (currentStreamingMsg (send t))) t).
Proof.
  intros [Ht Hc]. unfold streamEvent. rewrite Ht, Hc. reflexivity.
Qed.

Lemma streamEvent_response (data : JSValue) (c : string) (t : Turn) :
  carries data (Response c) ->
  streamEvent data t =
  Some (republish (StreamingMessage.with_content
                     (StreamingMessage.content (currentStreamingMsg (send t)) ++ c)%string
                     (currentStreamingMsg (send t))) t).
Proof.
  intros [Ht Hc]. unfold streamEvent. rewrite Ht, Hc. reflexivity.
Qed.

Lemma streamEvent_done (data : JSValue) (t : Turn) :
  is_done data -> streamEvent data t = Some (enqueue t).
Proof.
  intros [Ht Hp]. unfold streamEvent, plain in *. rewrite Ht.
  destruct (Get_defined data "type" "content" _ Ht) as [c Hc].
  rewrite Hc in *. cbn [bind]. rewrite Hp. reflexivity.
Qed.

Lemma streamEvent_metadata (data s ws wd : JSValue) (t : Turn) :
  is_metadata data s ws wd ->
  streamEvent data t =
  Some (republish (StreamingMessage.with_metadata s ws wd (currentStreamingMsg (send t))) t).
Proof.
  intros (Ht & Hp & Hs & Hws & Hwd). unfold streamEvent, plain in *. rewrite Ht.
  destruct (Get_defined data "type" "content" _ Ht) as [c Hc].
  rewrite Hc in *. cbn [bind]. rewrite Hp. cbn. rewrite Hs, Hws, Hwd. reflexivity.
Qed.

End Loop.

(** Unfolds the setters of the component state. *)
Ltac setters :=
  unfold WellnessChat.sendFinally, WellnessChat.sendCatch, WellnessChat.sendBegin,
    WellnessChat.republish, WellnessChat.enqueue,
    WellnessChat.publish, WellnessChat.clearChat,
    WellnessChat.setMessages, WellnessChat.setInputMessage, WellnessChat.setIsLoading,
    WellnessChat.setTopics, WellnessChat.setStreamingMessage, WellnessChat.perform in *;
  cbn [WellnessChat.messages WellnessChat.inputMessage WellnessChat.isLoading
       WellnessChat.topics WellnessChat.streamingMessage WellnessChat.effects
       WellnessChat.state WellnessChat.currentStreamingMsg
       WellnessChat.send WellnessChat.queued] in *.

(** ** What a run may change, and when the render does not matter *)

Section Invariants.
Import WellnessChat Stream Draft.

Ltac branches :=
  repeat match goal with
         | |- context [if ?b then _ else _] => destruct b eqn:?
         | |- context [bind ?e _] => destruct e eqn:?; cbn [bind]
         end.

Lemma is_string_eq (v : JSValue) (k : string) :
  JS.is_string v k = true -> v = JString k.
Proof.
  destruct v; cbn; try discriminate. intros H. apply String.eqb_eq in H. congruence.
Qed.

Ltac advance :=
  first
    [ left; reflexivity
    | right; right; split;
      [ match goal with
        | E : JS.is_string _ "done" = true |- _ => apply is_string_eq in E; subst
        end; reflexivity
      | reflexivity ]
    | right; left; split;
      [ repeat match goal with E : JS.is_string _ _ = true |- _ => rewrite E end;
        rewrite ?orb_true_r; reflexivity
      | eexists; reflexivity ] ].

Lemma typeOf_Get (data type : JSValue) : JS.Get data "type" = Some type -> typeOf data = type.
Proof. intros H. unfold typeOf. rewrite H. reflexivity. Qed.

Lemma streamEvent_advances (data : JSValue) (t t' : Turn) :
  streamEvent data t = Some t' -> advances data t t'.
Proof.
  unfold streamEvent, advances.
  destruct (JS.Get data "type") as [type|] eqn:Ht; [|discriminate]. cbn [bind].
  rewrite (typeOf_Get _ _ Ht). unfold writes.
  branches; intros H; inversion H; subst; clear H; advance.
Qed.

Lemma fallbackEvent_advances (data : JSValue) (t t' : Turn) :
  fallbackEvent data t = Some t' -> advances data t t'.
Proof.
  unfold fallbackEvent, advances.
  destruct (JS.Get data "type") as [type|] eqn:Ht; [|discriminate]. cbn [bind].
  rewrite (typeOf_Get _ _ Ht). unfold writes.
  branches; intros H; inversion H; subst; clear H; advance.
Qed.

(** A handler leaves the transcript and all of the component but the
    published draft alone, and queues at most. *)
Lemma advances_frame (data : JSValue) (t t' : Turn) :
  advances data t t' ->
  messages (state (send t')) = messages (state (send t))
  /\ inputMessage (state (send t')) = inputMessage (state (send t))
  /\ isLoading (state (send t')) = isLoading (state (send t))
  /\ topics (state (send t')) = topics (state (send t))
  /\ effects (state (send t')) = effects (state (send t))
  /\ queued t <= queued t'.
Proof.
  intros [-> | [[_ [cur ->]] | [_ ->]]]; cbn;
    (split; [|split; [|split; [|split; [|split]]]]); try reflexivity; lia.
Qed.

Lemma apply_advances (handler : JSValue -> Turn -> option Turn) (data : JSValue) (t : Turn) :
  steady handler -> advances data t (apply handler data t).
Proof.
  intros Hs. unfold apply. destruct (handler data t) eqn:E; [exact (Hs _ _ _ E)|left; reflexivity].
Qed.

Lemma applyAll_frame (handler : JSValue -> Turn -> option Turn) (events : list JSValue) :
  steady handler ->
  forall t,
    messages (state (send (applyAll handler events t))) = messages (state (send t))
    /\ inputMessage (state (send (applyAll handler events t))) = inputMessage (state (send t))
    /\ isLoading (state (send (applyAll handler events t))) = isLoading (state (send t))
    /\ topics (state (send (applyAll handler events t))) = topics (state (send t))
    /\ effects (state (send (applyAll handler events t))) = effects (state (send t))
    /\ queued t <= queued (applyAll handler events t).
Proof.
  intros Hs. induction events as [|e es IH]; intros t;
    [split; [|split; [|split; [|split; [|split]]]]; try reflexivity; lia|].
  change (applyAll handler (e :: es) t) with (applyAll handler es (apply handler e t)).
  destruct (IH (apply handler e t)) as (Em & Ei & El & Et & Ee & Hq).
  destruct (advances_frame _ _ _ (apply_advances handler e t Hs)) as (Em' & Ei' & El' & Et' & Ee' & Hq').
  split; [|split; [|split; [|split; [|split]]]]; try congruence. lia.
Qed.

Lemma continues_refl (s : State) : continues s s.
Proof. unfold continues. repeat split; trivial. exists []. symmetry. apply app_nil_r. Qed.

Lemma continues_trans (a b c : State) : continues a b -> continues b c -> continues a c.
Proof.
  intros ([m1 E1] & ? & ? & ? & ?) ([m2 E2] & ? & ? & ? & ?).
  unfold continues. repeat split; try congruence.
  exists (m1 ++ m2). rewrite E2, E1, app_assoc. reflexivity.
Qed.

(** The render appends, and nothing else. *)
Lemma commit_continues (t : Turn) : continues (state (send t)) (state (commit t)).
Proof.
  unfold continues. rewrite messages_commit. repeat split. eexists. reflexivity.
Qed.

(** A run, with its render. *)
Lemma run_continues (handler : JSValue -> Turn -> option Turn) (events : list JSValue) (x : Send) :
  steady handler ->
  continues (state x) (state (commit (applyAll handler events (start x)))).
Proof.
  intros Hs. eapply continues_trans; [|apply commit_continues].
  destruct (applyAll_frame handler events Hs (start x)) as (Em & Ei & El & Et & Ee & _).
  unfold continues. cbn [start send] in *. repeat split; try assumption.
  exists []. rewrite app_nil_r. exact Em.
Qed.

Lemma streamChunk_continues (chunk : string) (x : Send) :
  continues (state x) (state (streamChunk chunk x)).
Proof. rewrite streamChunk_events. apply run_continues. exact streamEvent_advances. Qed.

Lemma streamReads_continues (chunks : list string) (x : Send) :
  continues (state x) (state (streamReads chunks x)).
Proof. rewrite streamReads_events. apply run_continues. exact streamEvent_advances. Qed.

Lemma streamLoop_continues (chunks : list string) (x : Send) :
  continues (state x) (state (streamLoop chunks x)).
Proof.
  revert x. induction chunks as [|c r IH]; intros x; [apply continues_refl|].
  cbn [streamLoop fold_left]. fold (streamLoop r (streamChunk c x)).
  eapply continues_trans; [apply streamChunk_continues|apply IH].
Qed.

Lemma streamBursts_continues (bursts : list (list string)) (x : Send) :
  continues (state x) (state (streamBursts bursts x)).
Proof.
  revert x. induction bursts as [|b r IH]; intros x; [apply continues_refl|].
  cbn [streamBursts fold_left]. fold (streamBursts r (streamReads b x)).
  eapply continues_trans; [apply streamReads_continues|apply IH].
Qed.

Lemma fallback_continues (full : string) (x : Send) :
  continues (state x) (state (fallback full x)).
Proof. rewrite fallback_events. apply run_continues. exact fallbackEvent_advances. Qed.

(** Without a [done] event nothing is queued, and the render changes
    nothing. *)
Lemma applyAll_without_done (handler : JSValue -> Turn -> option Turn) (events : list JSValue) :
  steady handler ->
  Forall not_done events ->
  forall t, queued (applyAll handler events t) = queued t.
Proof.
  intros Hs. induction 1 as [|e es He _ IH]; intros t; [reflexivity|].
  change (applyAll handler (e :: es) t) with (applyAll handler es (apply handler e t)).
  rewrite IH.
  destruct (apply_advances handler e t Hs) as [-> | [[_ [cur ->]] | [Hd _]]]; try reflexivity.
  unfold not_done, typeOf in He. rewrite Hd in He. discriminate.
Qed.

Lemma run_without_done (handler : JSValue -> Turn -> option Turn) (events : list JSValue)
    (x : Send) :
  steady handler ->
  Forall not_done events ->
  commit (applyAll handler events (start x)) = send (applyAll handler events (start x))
  /\ messages (state (commit (applyAll handler events (start x)))) = messages (state x).
Proof.
  intros Hs Hn.
  assert (Hq : queued (applyAll handler events (start x)) = 0)
    by (rewrite (applyAll_without_done handler events Hs Hn); reflexivity).
  rewrite (commit_idle _ Hq). split; [reflexivity|].
  exact (proj1 (applyAll_frame handler events Hs (start x))).
Qed.

(** *** When the render does not matter *)

Lemma streamEvent_uniform : uniform streamEvent.
Proof.
  intros data Hw. unfold apply, streamEvent.
  destruct (JS.Get data "type") as [type|] eqn:Ht; [|left; reflexivity]. cbn [bind].
  rewrite (typeOf_Get _ _ Ht) in Hw. unfold writes in Hw.
  repeat (apply orb_false_iff in Hw as [Hw ?]).
  destruct (JS.Get data "content") as [c|]; [|left; reflexivity]. cbn [bind].
  destruct (content_preview c); [|left; reflexivity]. cbn [bind].
  repeat match goal with E : JS.is_string type _ = false |- _ => rewrite E; clear E end.
  destruct (JS.is_string type "thinking_start"); [left; reflexivity|].
  destruct (JS.is_string type "response_start"); [left; reflexivity|].
  destruct (JS.is_string type "response_end"); [left; reflexivity|].
  destruct (JS.is_string type "done"); [right|left]; reflexivity.
Qed.

Lemma fallbackEvent_uniform : uniform fallbackEvent.
Proof.
  intros data Hw. unfold apply, fallbackEvent.
  destruct (JS.Get data "type") as [type|] eqn:Ht; [|left; reflexivity]. cbn [bind].
  rewrite (typeOf_Get _ _ Ht) in Hw. unfold writes in Hw.
  repeat (apply orb_false_iff in Hw as [Hw ?]).
  repeat match goal with E : JS.is_string type _ = false |- _ => rewrite E; clear E end.
  destruct (JS.is_string type "done"); [right|left]; reflexivity.
Qed.

Lemma commit_enqueue (t : Turn) : commit (enqueue t) = commit (enqueue (start (commit t))).
Proof. destruct t as [[cur [m i l tp d e]] k]. reflexivity. Qed.

(** An event that does not write, before the render or after it. *)
Lemma commit_apply (handler : JSValue -> Turn -> option Turn) (data : JSValue) (t : Turn) :
  uniform handler ->
  writes (typeOf data) = false ->
  commit (apply handler data t) = settle handler data (commit t).
Proof.
  intros Hu Hw. unfold settle. destruct (Hu data Hw) as [E | E]; rewrite !E.
  - symmetry. apply commit_start.
  - apply commit_enqueue.
Qed.

Lemma commit_applyAll (handler : JSValue -> Turn -> option Turn) (events : list JSValue) :
  uniform handler ->
  forallb (fun d => negb (writes (typeOf d))) events = true ->
  forall t, commit (applyAll handler events t) = settleAll handler events (commit t).
Proof.
  intros Hu. induction events as [|e es IH]; intros H t; [reflexivity|].
  cbn [forallb] in H. apply andb_true_iff in H as [He Hes]. apply negb_true_iff in He.
  change (applyAll handler (e :: es) t) with (applyAll handler es (apply handler e t)).
  change (settleAll handler (e :: es) (commit t))
    with (settleAll handler es (settle handler e (commit t))).
  rewrite (IH Hes), (commit_apply handler e t Hu He). reflexivity.
Qed.

Lemma writes_done (data : JSValue) :
  JS.is_string (typeOf data) "done" = true -> writes (typeOf data) = false.
Proof. intros H. apply is_string_eq in H. rewrite H. reflexivity. Qed.

(** When no event writes after a [done] event, a run comes to what its
    events come to one by one, a render after each. *)
Lemma run_quiet (handler : JSValue -> Turn -> option Turn) (events : list JSValue) :
  steady handler ->
  uniform handler ->
  quiet events = true ->
  forall x, commit (applyAll handler events (start x)) = settleAll handler events x.
Proof.
  intros Hs Hu. induction events as [|e es IH]; intros Hq x; [apply commit_start|].
  cbn [quiet] in Hq. destruct (JS.is_string (typeOf e) "done") eqn:Ed.
  - rewrite <- (commit_start x) at 2. apply (commit_applyAll handler (e :: es) Hu).
    cbn [forallb]. rewrite (writes_done e Ed). exact Hq.
  - change (applyAll handler (e :: es) (start x))
      with (applyAll handler es (apply handler e (start x))).
    change (settleAll handler (e :: es) x) with (settleAll handler es (settle handler e x)).
    rewrite <- (IH Hq). f_equal. f_equal. unfold settle.
    assert (H0 : queued (apply handler e (start x)) = 0).
    { destruct (apply_advances handler e (start x) Hs) as [-> | [[_ [cur ->]] | [Hd _]]];
        try reflexivity.
      unfold typeOf in Ed. rewrite Hd in Ed. discriminate. }
    rewrite (commit_idle _ H0). destruct (apply handler e (start x)) as [y k].
    cbn in H0. subst k. reflexivity.
Qed.

Lemma quiet_forallb (events : list JSValue) :
  forallb (fun d => negb (writes (typeOf d))) events = true -> quiet events = true.
Proof.
  induction events as [|e es IH]; [reflexivity|]. cbn [forallb quiet].
  intros H. apply andb_true_iff in H as [_ H].
  destruct (JS.is_string (typeOf e) "done"); [exact H|exact (IH H)].
Qed.

Lemma quiet_app (a b : list JSValue) :
  quiet (a ++ b) = true -> quiet a = true /\ quiet b = true.
Proof.
  induction a as [|e es IH]; [intros H; split; [reflexivity|exact H]|].
  cbn [app quiet]. destruct (JS.is_string (typeOf e) "done").
  - rewrite forallb_app. intros H. apply andb_true_iff in H as [Ha Hb].
    split; [exact Ha|exact (quiet_forallb _ Hb)].
  - exact IH.
Qed.

(** The streaming loop, the bursts and the fallback, event by event. *)
Lemma streamLoop_quiet (chunks : list string) :
  quiet (received chunks) = true ->
  forall x, streamLoop chunks x = settleAll streamEvent (received chunks) x.
Proof.
  induction chunks as [|c r IH]; intros Hq x; [reflexivity|].
  change (received (c :: r)) with (textEvents c ++ received r) in *.
  destruct (quiet_app _ _ Hq) as [Hc Hr].
  cbn [streamLoop fold_left]. fold (streamLoop r (streamChunk c x)).
  rewrite (IH Hr), settleAll_app, streamChunk_events.
  rewrite (run_quiet streamEvent _ streamEvent_advances streamEvent_uniform Hc). reflexivity.
Qed.

Lemma streamBursts_quiet (bursts : list (list string)) :
  quiet (received (concat bursts)) = true ->
  forall x, streamBursts bursts x = settleAll streamEvent (received (concat bursts)) x.
Proof.
  induction bursts as [|b r IH]; intros Hq x; [reflexivity|].
  assert (E : received (concat (b :: r)) = received b ++ received (concat r))
    by (unfold received; cbn [concat]; apply flat_map_app).
  rewrite E in *. destruct (quiet_app _ _ Hq) as [Hb Hr].
  cbn [streamBursts fold_left]. fold (streamBursts r (streamReads b x)).
  rewrite (IH Hr), settleAll_app, streamReads_events.
  rewrite (run_quiet streamEvent _ streamEvent_advances streamEvent_uniform Hb). reflexivity.
Qed.

Lemma fallback_quiet (full : string) (x : Send) :
  quiet (textEvents full) = true ->
  fallback full x = settleAll fallbackEvent (textEvents full) x.
Proof.
  intros Hq. rewrite fallback_events.
  apply (run_quiet fallbackEvent _ fallbackEvent_advances fallbackEvent_uniform Hq).
Qed.

(** *** The draft does not wait for the render *)

Lemma apply_draft (handler : JSValue -> Turn -> option Turn) (data : JSValue) (t t' : Turn) :
  handler = streamEvent \/ handler = fallbackEvent ->
  currentStreamingMsg (send t) = currentStreamingMsg (send t') ->
  streamingMessage (state (send t)) = streamingMessage (state (send t')) ->
  currentStreamingMsg (send (apply handler data t))
  = currentStreamingMsg (send (apply handler data t'))
  /\ streamingMessage (state (send (apply handler data t)))
     = streamingMessage (state (send (apply handler data t'))).
Proof.
  intros Hh Ec Ep. destruct Hh as [-> | ->]; unfold apply, streamEvent, fallbackEvent;
    rewrite <- Ec; branches; split; cbn; auto.
Qed.

Lemma applyAll_draft (handler : JSValue -> Turn -> option Turn) (events : list JSValue) :
  handler = streamEvent \/ handler = fallbackEvent ->
  forall t t',
    currentStreamingMsg (send t) = currentStreamingMsg (send t') ->
    streamingMessage (state (send t)) = streamingMessage (state (send t')) ->
    currentStreamingMsg (send (applyAll handler events t))
    = currentStreamingMsg (send (applyAll handler events t'))
    /\ streamingMessage (state (send (applyAll handler events t)))
       = streamingMessage (state (send (applyAll handler events t'))).
Proof.
  intros Hh. induction events as [|e es IH]; intros t t' Ec Ep; [split; assumption|].
  change (applyAll handler (e :: es) ?u) with (applyAll handler es (apply handler e u)).
  destruct (apply_draft handler e t t' Hh Ec Ep) as [Ec' Ep']. apply IH; assumption.
Qed.

(** The draft of the closure and the published draft after the loop
    are those of the events handled in one run. *)
Lemma streamLoop_draft (chunks : list string) :
  forall (x : Send) (t : Turn),
    currentStreamingMsg x = currentStreamingMsg (send t) ->
    streamingMessage (state x) = streamingMessage (state (send t)) ->
    currentStreamingMsg (streamLoop chunks x)
    = currentStreamingMsg (send (applyAll streamEvent (received chunks) t))
    /\ streamingMessage (state (streamLoop chunks x))
       = streamingMessage (state (send (applyAll streamEvent (received chunks) t))).
Proof.
  induction chunks as [|c r IH]; intros x t Ec Ep; [split; assumption|].
  change (received (c :: r)) with (textEvents c ++ received r).
  rewrite applyAll_app. cbn [streamLoop fold_left]. fold (streamLoop r (streamChunk c x)).
  rewrite streamChunk_events.
  destruct (applyAll_draft streamEvent (textEvents c) (or_introl eq_refl) (start x) t Ec Ep)
    as [Ec' Ep'].
  apply IH; [exact Ec'|exact Ep'].
Qed.

(** Events none of which is [done], in one run or one by one. *)
Lemma quiet_without_done (events rest : list JSValue) :
  Forall not_done events -> quiet (events ++ rest) = quiet rest.
Proof.
  induction 1 as [|e es He _ IH]; [reflexivity|].
  cbn [app quiet]. unfold not_done in He. rewrite He. exact IH.
Qed.

Lemma settleAll_without_done (handler : JSValue -> Turn -> option Turn) (events : list JSValue)
    (x : Send) :
  steady handler ->
  uniform handler ->
  Forall not_done events ->
  settleAll handler events x = send (applyAll handler events (start x)).
Proof.
  intros Hs Hu Hn. rewrite <- (proj1 (run_without_done handler events x Hs Hn)).
  symmetry. apply (run_quiet handler events Hs Hu).
  rewrite <- (app_nil_r events), (quiet_without_done _ _ Hn). reflexivity.
Qed.

Lemma streamLoop_without_done (chunks : list string) (x : Send) :
  Forall not_done (received chunks) ->
  streamLoop chunks x = send (applyAll streamEvent (received chunks) (start x))
  /\ messages (state (streamLoop chunks x)) = messages (state x).
Proof.
  intros Hn.
  assert (E : streamLoop chunks x = send (applyAll streamEvent (received chunks) (start x))).
  { rewrite streamLoop_quiet
      by (rewrite <- (app_nil_r (received chunks)), (quiet_without_done _ _ Hn); reflexivity).
    apply settleAll_without_done;
      [exact streamEvent_advances|exact streamEvent_uniform|exact Hn]. }
  split; [exact E|]. rewrite E.
  exact (proj1 (applyAll_frame streamEvent _ streamEvent_advances (start x))).
Qed.

Lemma fallback_without_done (full : string) (x : Send) :
  Forall not_done (textEvents full) ->
  fallback full x = send (applyAll fallbackEvent (textEvents full) (start x))
  /\ messages (state (fallback full x)) = messages (state x).
Proof.
  intros Hn. rewrite fallback_events.
  destruct (run_without_done fallbackEvent _ x fallbackEvent_advances Hn) as [E Em].
  split; [exact E|exact Em].
Qed.

(** *** An event in a run of its own *)

Lemma settle_thinking (data : JSValue) (c : string) (x : Send) :
  carries data (Thinking c) ->
  settle streamEvent data x =
  publish (StreamingMessage.with_thinking
             (StreamingMessage.thinking (currentStreamingMsg x) ++ c)%string
             (currentStreamingMsg x)) (state x).
Proof.
  intros H. unfold settle, apply. rewrite (streamEvent_thinking _ _ _ H).
  apply commit_idle. reflexivity.
Qed.

Lemma settle_response (data : JSValue) (c : string) (x : Send) :
  carries data (Response c) ->
  settle streamEvent data x =
  publish (StreamingMessage.with_content
             (StreamingMessage.content (currentStreamingMsg x) ++ c)%string
             (currentStreamingMsg x)) (state x).
Proof.
  intros H. unfold settle, apply. rewrite (streamEvent_response _ _ _ H).
  apply commit_idle. reflexivity.
Qed.

Lemma settle_done (data : JSValue) (x : Send) :
  is_done data ->
  settle streamEvent data x =
  mkSend (currentStreamingMsg x)
    (setStreamingMessage None
       (setMessages (fun prev => prev ++ [finalize (currentStreamingMsg x)]) (state x))).
Proof.
  intros H. unfold settle, apply. rewrite (streamEvent_done _ _ H).
  destruct x as [cur [m i l tp d e]]. reflexivity.
Qed.

End Invariants.

(** ** C2: what [done] does, and what follows it *)

Section Done.
Import WellnessChat Stream Draft.

Lemma received_last (chunks : list string) (c : string) (before : list JSValue) (last : JSValue) :
  received (chunks ++ [c]) = before ++ [last] ->
  (textEvents c = [] /\ received chunks = before ++ [last])
  \/ (exists es, textEvents c = es ++ [last]).
Proof.
  unfold received. rewrite flat_map_app. cbn [flat_map]. rewrite app_nil_r.
  destruct (textEvents c) as [|e es] eqn:E.
  - rewrite app_nil_r. intros H. left. split; [reflexivity|exact H].
  - intros H. right. destruct (exists_last (l := e :: es)) as (es' & l' & E'); [discriminate|].
    rewrite E' in *. rewrite app_assoc in H. apply app_inj_tail in H as [_ ->].
    exists es'. reflexivity.
Qed.

(** When [done] is the last event, whatever came before: the loop ends
    with no draft published and the draft of the send, as it is then, the
    last message of the transcript. *)
Lemma done_last (chunks : list string) :
  forall (before : list JSValue) (last : JSValue) (x : Send),
    received chunks = before ++ [last] ->
    is_done last ->
    streamingMessage (state (streamLoop chunks x)) = None
    /\ exists earlier,
         messages (state (streamLoop chunks x))
         = earlier ++ [finalize (currentStreamingMsg (streamLoop chunks x))].
Proof.
  induction chunks as [|c chunks IH] using rev_ind; intros before last x Hr Hd.
  - destruct before; discriminate.
  - unfold streamLoop. rewrite fold_left_app. cbn [fold_left]. fold (streamLoop chunks x).
    rewrite streamChunk_events.
    destruct (received_last _ _ _ _ Hr) as [[E Hr'] | [es E]]; rewrite E.
    + cbn [applyAll fold_left]. rewrite commit_start. exact (IH _ _ x Hr' Hd).
    + rewrite applyAll_app. cbn [applyAll fold_left]. unfold apply.
      rewrite (streamEvent_done _ _ Hd). split; [reflexivity|].
      destruct (applyAll streamEvent es (start (streamLoop chunks x))) as [[cur st] k].
      rewrite messages_commit. unfold commit, enqueue.
      cbn [queued send currentStreamingMsg state repeat].
      rewrite repeat_cons, app_assoc. eexists. reflexivity.
Qed.

(** C2, as amended.  A [done] event appends the draft, made a Message,
    to the transcript and sets the published draft to [null]; when it is
    the last event of the stream, the loop ends in that state.  The loop
    does not stop at [done]: a [response] event that follows it publishes
    the draft again, with the new text added, and a second [done] appends
    a second Message.  (What the first Message holds when an event that
    follows [done] writes to the draft depends on when React renders,
    and is not stated.) *)
Theorem done_closes_the_stream
    (chunks : list string) (before : list JSValue) (last : JSValue) (x : Send) :
  is_done last ->
  Forall not_done before ->
  let y := send (applyAll streamEvent before (start x)) in
  let closed :=
    mkSend (currentStreamingMsg y)
      (setStreamingMessage None
         (setMessages (fun prev => prev ++ [finalize (currentStreamingMsg y)]) (state y))) in
  (received chunks = before ++ [last] -> streamLoop chunks x = closed)
  /\ (forall earlier,
        received chunks = earlier ++ [last] ->
        streamingMessage (state (streamLoop chunks x)) = None
        /\ exists m,
             messages (state (streamLoop chunks x))
             = m ++ [finalize (currentStreamingMsg (streamLoop chunks x))])
  /\ (forall later c,
        received chunks = before ++ [last; later] ->
        carries later (Response c) ->
        streamingMessage (state (streamLoop chunks x))
        = Some (StreamingMessage.with_content
                  (StreamingMessage.content (currentStreamingMsg y) ++ c)%string
                  (currentStreamingMsg y)))
  /\ (forall later,
        received chunks = before ++ [last; later] ->
        is_done later ->
        messages (state (streamLoop chunks x))
        = messages (state y)
            ++ [finalize (currentStreamingMsg y); finalize (currentStreamingMsg y)]).
Proof.
  intros Hdone Hbefore y closed.
  assert (Hy : settleAll streamEvent before x = y)
    by (apply settleAll_without_done;
        [exact streamEvent_advances|exact streamEvent_uniform|exact Hbefore]).
  assert (Hlast : JS.is_string (typeOf last) "done" = true).
  { destruct Hdone as [Ht _]. unfold has_type in Ht. rewrite (typeOf_Get _ _ Ht). reflexivity. }
  split; [|split; [|split]].
  - intros Hrecv. rewrite streamLoop_quiet, Hrecv, settleAll_app, Hy.
    + cbn [settleAll fold_left]. apply (settle_done _ _ Hdone).
    + rewrite Hrecv, (quiet_without_done _ _ Hbefore). cbn [quiet]. rewrite Hlast. reflexivity.
  - intros earlier Hrecv. exact (done_last chunks earlier last x Hrecv Hdone).
  - intros later c Hrecv Hl.
    destruct (streamLoop_draft chunks x (start x) eq_refl eq_refl) as [_ Ep].
    rewrite Ep, Hrecv, applyAll_app. cbn [applyAll fold_left]. unfold apply at 1 2.
    rewrite (streamEvent_done _ _ Hdone), (streamEvent_response _ _ _ Hl).
    assert (Hq : queued (applyAll streamEvent before (start x)) = 0)
      by (rewrite (applyAll_without_done _ _ streamEvent_advances Hbefore); reflexivity).
    reflexivity.
  - intros later Hrecv Hl. rewrite streamLoop_quiet, Hrecv, settleAll_app, Hy.
    + cbn [settleAll fold_left]. rewrite (settle_done _ _ Hdone), (settle_done _ _ Hl).
      setters. rewrite <- app_assoc. reflexivity.
    + rewrite Hrecv, (quiet_without_done _ _ Hbefore). cbn [quiet forallb]. rewrite Hlast.
      destruct Hl as [Ht _]. unfold has_type in Ht. rewrite (typeOf_Get _ _ Ht). reflexivity.
Qed.

Lemma done_closes_the_stream_witness :
  streamLoop [ dataLines [ "{'type':'response','content':'Hi'}"; "{'type':'done'}" ] ]
    (mkSend emptyDraft initial) =
  mkSend (StreamingMessage.with_content "Hi" emptyDraft)
    (mkState [answer [Response "Hi"]] EmptyString false (JArray []) None []).
Proof.
  refine (proj1 (done_closes_the_stream _
                   [JObject [("type", JString "response"); ("content", JString "Hi")]]
                   (JObject [("type", JString "done")]) (mkSend emptyDraft initial) _ _) _).
  - split; reflexivity.
  - repeat constructor.
  - vm_compute. reflexivity.
Defined.

(** C2 as worded fails: after [done] a [response] event writes to the
    draft and publishes it again, and a second [done] appends a second
    message.  Nor is the message of the first [done] fixed when [done] is
    handled: in the same chunk, the text that follows [done] is in it. *)
Lemma events_after_done_apply :
  let late := [ "{'type':'response','content':'Hi'}"; "{'type':'done'}";
                "{'type':'response','content':' again'}" ] in
  let after_done := streamLoop [dataLines (firstn 2 late)] (mkSend emptyDraft initial) in
  let after_late := streamLoop [dataLines late] (mkSend emptyDraft initial) in
  let after_second := streamLoop [dataLines (late ++ ["{'type':'done'}"])] (mkSend emptyDraft initial) in
  streamingMessage (state after_done) = None
  /\ messages (state after_done) = [answer [Response "Hi"]]
  /\ currentStreamingMsg after_late = StreamingMessage.with_content "Hi again" emptyDraft
  /\ streamingMessage (state after_late)
     = Some (StreamingMessage.with_content "Hi again" emptyDraft)
  /\ messages (state after_late) = [answer [Response "Hi again"]]
  /\ messages (state after_second)
     = [answer [Response "Hi again"]; answer [Response "Hi again"]].
Proof. vm_compute. repeat split; reflexivity. Qed.

End Done.

(** ** C3: the fallback against the streaming loop *)

Section Fallback.
Import WellnessChat Stream.

(** On an event whose [content] is absent, [null] or a string the two
    handlers do the same; the markers the fallback has no branch for
    change nothing in the streaming loop either. *)
Lemma handlers_agree (data : JSValue) (t : Turn) :
  plain data -> streamEvent data t = fallbackEvent data t.
Proof.
  unfold plain, streamEvent, fallbackEvent. intros Hp.
  destruct (JS.Get data "type") as [type|] eqn:Ht; [|reflexivity].
  destruct (Get_defined data "type" "content" type Ht) as [c Hc].
  rewrite Hc in *. cbn [bind]. rewrite Hp. cbn [bind].
  destruct type; try reflexivity. unfold JS.is_string.
  repeat match goal with
         | |- context [String.eqb s ?k] =>
             destruct (String.eqb_spec s k); [subst s; reflexivity|]
         end.
  reflexivity.
Qed.

Lemma applyAll_agree (events : list JSValue) :
  Forall plain events ->
  forall t, applyAll streamEvent events t = applyAll fallbackEvent events t.
Proof.
  induction 1 as [|e es He _ IH]; intros t; [reflexivity|].
  cbn [applyAll fold_left]. unfold apply at 2 4. rewrite (handlers_agree e t He).
  apply IH.
Qed.

Lemma settleAll_agree (events : list JSValue) :
  Forall plain events ->
  forall x, settleAll streamEvent events x = settleAll fallbackEvent events x.
Proof.
  induction 1 as [|e es He _ IH]; intros x; [reflexivity|].
  cbn [settleAll fold_left]. unfold settle at 2 4. unfold apply.
  rewrite (handlers_agree e (start x) He). apply IH.
Qed.

Lemma eventsOf_app (l1 l2 : list string) :
  eventsOf (l1 ++ l2) = eventsOf l1 ++ eventsOf l2.
Proof. apply flat_map_app. Qed.

Lemma textEvents_app (a b : string) :
  whole_lines a = true ->
  textEvents (a ++ b)%string = textEvents a ++ textEvents b.
Proof.
  intros Hw. destruct a as [|c r] eqn:Ea; [reflexivity|]. rewrite <- Ea in *.
  destruct (split_whole_lines a b Hw) as (la & E1 & E2); [subst; discriminate|].
  unfold textEvents. rewrite E1, E2, !eventsOf_app. cbn. rewrite app_nil_r. reflexivity.
Qed.

(** With the chunk boundaries at line ends, the whole text carries the
    events of the chunks. *)
Lemma textEvents_wholeText (chunks : list string) :
  line_aligned chunks = true -> textEvents (wholeText chunks) = received chunks.
Proof.
  induction chunks as [|c r IH]; intros Ha; [reflexivity|].
  destruct r as [|c' r'].
  - cbn. rewrite append_nil_r, app_nil_r. reflexivity.
  - cbn [line_aligned] in Ha. apply andb_true_iff in Ha as [Hc Hr].
    change (wholeText (c :: c' :: r')) with (c ++ wholeText (c' :: r'))%string.
    rewrite (textEvents_app _ _ Hc), (IH Hr). reflexivity.
Qed.

(** C3, as amended.  When every chunk but the last ends at a line end,
    every event has a [content] that is absent, [null] or a string, and
    no event that writes to the draft follows a [done] event, a send
    that reads the payload through the fallback ends in the same state,
    transcript included, as one that reads it chunk by chunk, whether
    React renders between the reads or the reads come in bursts.  (A
    chunk that ends with a line feed ends between two characters, so the
    text of the whole payload is the texts of the chunks one after the
    other.) *)
Theorem fallback_agrees_with_stream (arg : Arg) (chunks : list string) (s : State) :
  line_aligned chunks = true ->
  Forall plain (received chunks) ->
  quiet (received chunks) = true ->
  sendMessage arg (Responded true (Unreadable (Some (wholeText chunks)))) s
  = sendMessage arg (Responded true (Readable chunks false)) s
  /\ (forall bursts,
         concat bursts = chunks ->
         sendMessage arg (Responded true (Unreadable (Some (wholeText chunks)))) s
         = sendMessage arg (Responded true (Bursts bursts false)) s).
Proof.
  intros Ha Hp Hq. split; [|intros bursts Hb]; unfold sendMessage;
    (destruct (match arg with ArgUndefined => ArgString (inputMessage s) | _ => arg end)
      as [|text|]; try reflexivity);
    (destruct (JSString.isEmpty (JSString.trim text)); [reflexivity|]);
    cbn [attempt].
  - rewrite fallback_quiet by (rewrite (textEvents_wholeText _ Ha); exact Hq).
    rewrite (streamLoop_quiet _ Hq), (textEvents_wholeText _ Ha), (settleAll_agree _ Hp).
    reflexivity.
  - rewrite fallback_quiet by (rewrite (textEvents_wholeText _ Ha); exact Hq).
    rewrite streamBursts_quiet by (rewrite Hb; exact Hq).
    rewrite Hb, (textEvents_wholeText _ Ha), (settleAll_agree _ Hp). reflexivity.
Qed.

Lemma fallback_agrees_with_stream_witness :
  let chunks := [ dataLines [ "{'type':'thinking','content':'hm'}"; "{'type':'thinking_end'}" ];
                  dataLines [ "{'type':'response','content':'Hi'}" ];
                  dataLines [ "{'type':'metadata','sources':['WHO'],'web_searched':false}";
                              "{'type':'done'}" ] ] in
  sendMessage (ArgString "Hello") (Responded true (Unreadable (Some (wholeText chunks)))) initial =
  sendMessage (ArgString "Hello") (Responded true (Readable chunks false)) initial.
Proof.
  cbv zeta. apply fallback_agrees_with_stream.
  - reflexivity.
  - vm_compute. repeat constructor.
  - vm_compute. reflexivity.
Defined.

(** C3 as worded fails.  A line cut by a chunk boundary is lost to the
    streaming loop and read whole by the fallback; an event whose
    [content] is a number is skipped by the streaming loop, whose log
    line throws on it, and applied by the fallback; and text that comes
    after [done] is in the message of the fallback, which React renders
    once, at the end, and not in that of the streaming loop when React
    has rendered before the chunk with the text is read. *)
Lemma fallback_differs_from_stream :
  let cut := [ (dataLine "{'type':'response','content':'Hi'}"
                  ++ JSString.quoted "data: {'type':'do")%string;
               (JSString.quoted "ne'}" ++ String JSString.LF EmptyString)%string ] in
  let odd := [ dataLines [ "{'type':'response','content':5}"; "{'type':'done'}" ] ] in
  let late := [ dataLines [ "{'type':'response','content':'Hi'}"; "{'type':'done'}" ];
                dataLines [ "{'type':'response','content':' again'}" ] ] in
  let transcript net := messages (fst (sendMessage (ArgString "Hello") net initial)) in
  transcript (Responded true (Unreadable (Some (wholeText cut))))
  = [userMessage "Hello"; answer [Response "Hi"]]
  /\ transcript (Responded true (Readable cut false)) = [userMessage "Hello"]
  /\ transcript (Responded true (Unreadable (Some (wholeText odd))))
     = [userMessage "Hello"; answer [Response "5"]]
  /\ transcript (Responded true (Readable odd false))
     = [userMessage "Hello"; answer []]
  /\ transcript (Responded true (Unreadable (Some (wholeText late))))
     = [userMessage "Hello"; answer [Response "Hi again"]]
  /\ transcript (Responded true (Readable late false))
     = [userMessage "Hello"; answer [Response "Hi"]].
Proof. vm_compute. repeat split; reflexivity. Qed.

End Fallback.

(** ** The events on the wire *)

Section Wire.
Import WellnessChat Stream.

Lemma no_LF_app (a b : string) : no_LF (a ++ b)%string = (no_LF a && no_LF b)%bool.
Proof.
  induction a as [|c r IH]; [reflexivity|]. cbn. rewrite IH. apply andb_assoc.
Qed.

Lemma no_LF_quote_char (a : ascii) : no_LF (JSON.quote_char a) = true.
Proof. destruct a as [[] [] [] [] [] [] [] []]; reflexivity. Qed.

Lemma no_LF_stringify (s : string) : no_LF (JSON.stringify s) = true.
Proof.
  unfold JSON.stringify. cbn [no_LF]. rewrite no_LF_app.
  cbn. rewrite andb_true_r.
  induction s as [|a r IH]; [reflexivity|].
  cbn [JSON.quote_chars]. rewrite no_LF_app, no_LF_quote_char. exact IH.
Qed.

Lemma no_LF_deltaText (d : Delta) : no_LF (deltaText d) = true.
Proof.
  destruct d; unfold deltaText; rewrite !no_LF_app, !no_LF_stringify; reflexivity.
Qed.

Lemma parse_deltaText (d : Delta) : JSON.parse (deltaText d) = Some (deltaValue d).
Proof.
  assert (H : JSON.parse_value 4 (deltaText d) = Some (deltaValue d, EmptyString)).
  { destruct d; unfold deltaText;
      change ("{" ++ ?r)%string with (String "{" r);
      rewrite parse_value_brace, strip_brace_stringify, parse_member_next, parse_member_last;
      reflexivity. }
  rewrite (parse_any_fuel _ _ _ _ H). reflexivity.
Qed.

Lemma prefix_nil (s : string) : String.prefix EmptyString s = true.
Proof. destruct s; reflexivity. Qed.

(** A line of the stream carries the event its payload parses to. *)
Lemma textEvents_line (payload : string) :
  no_LF payload = true ->
  textEvents (line payload) =
  match JSON.parse payload with
  | Some data => [data]
  | None => []
  end.
Proof.
  intros H. unfold textEvents, line.
  change ("data: " ++ payload ++ String JSString.LF EmptyString)%string
    with (("data: " ++ payload) ++ String JSString.LF EmptyString)%string.
  rewrite split_line by (rewrite no_LF_app, H; reflexivity).
  cbn [JSString.split eventsOf flat_map]. rewrite app_nil_r.
  unfold lineEvent, JSString.startsWith. cbn. rewrite prefix_nil.
  destruct (JSON.parse payload); reflexivity.
Qed.

Lemma whole_lines_app (a : string) :
  whole_lines (a ++ String JSString.LF EmptyString)%string = true.
Proof.
  induction a as [|c r IH]; [reflexivity|].
  cbn [String.append whole_lines]. destruct (r ++ String JSString.LF EmptyString)%string eqn:E.
  - destruct r; discriminate.
  - exact IH.
Qed.

Lemma whole_lines_line (payload : string) : whole_lines (line payload) = true.
Proof.
  unfold line.
  change ("data: " ++ payload ++ String JSString.LF EmptyString)%string
    with (("data: " ++ payload) ++ String JSString.LF EmptyString)%string.
  apply whole_lines_app.
Qed.

Lemma textEvents_deltaChunk (ds : list Delta) :
  textEvents (deltaChunk ds) = map deltaValue ds.
Proof.
  induction ds as [|d ds IH]; [reflexivity|].
  change (deltaChunk (d :: ds)) with (line (deltaText d) ++ deltaChunk ds)%string.
  rewrite (textEvents_app _ _ (whole_lines_line _)), IH.
  rewrite (textEvents_line _ (no_LF_deltaText d)), parse_deltaText. reflexivity.
Qed.

Lemma received_deltaChunks (groups : list (list Delta)) :
  received (map deltaChunk groups ++ [doneChunk]) = map deltaValue (concat groups) ++ [doneValue].
Proof.
  unfold received. rewrite flat_map_app. f_equal.
  induction groups as [|g gs IH]; [reflexivity|].
  cbn [map flat_map concat]. rewrite map_app, IH, textEvents_deltaChunk. reflexivity.
Qed.

Lemma carries_deltaValue (ds : list Delta) : Forall2 carries (map deltaValue ds) ds.
Proof.
  induction ds as [|d ds IH]; constructor; [|exact IH].
  destruct d; split; reflexivity.
Qed.

End Wire.

(** ** C1: the finished message is the concatenation of the deltas *)

Section Concatenation.
Import WellnessChat Stream.

Lemma accumulate_nil (cur : StreamingMessage.t) : accumulate [] cur = cur.
Proof.
  destruct cur. unfold accumulate. cbn. rewrite !append_nil_r. reflexivity.
Qed.

Lemma accumulate_thinking (c : string) (ds : list Delta) (cur : StreamingMessage.t) :
  accumulate (Thinking c :: ds) cur =
  accumulate ds (StreamingMessage.with_thinking (StreamingMessage.thinking cur ++ c)%string cur).
Proof.
  destruct cur. unfold accumulate. cbn. rewrite append_assoc. reflexivity.
Qed.

Lemma accumulate_response (c : string) (ds : list Delta) (cur : StreamingMessage.t) :
  accumulate (Response c :: ds) cur =
  accumulate ds (StreamingMessage.with_content (StreamingMessage.content cur ++ c)%string cur).
Proof.
  destruct cur. unfold accumulate. cbn. rewrite append_assoc. reflexivity.
Qed.

(** The deltas only touch the draft: the closure's copy holds the
    accumulated texts, and so does the published one once a delta came. *)
Lemma settleAll_deltas (ds : list Delta) :
  forall (events : list JSValue) (x : Send),
    Forall2 carries events ds ->
    currentStreamingMsg (settleAll streamEvent events x) = accumulate ds (currentStreamingMsg x)
    /\ state (settleAll streamEvent events x) =
       match ds with
       | [] => state x
       | _ => setStreamingMessage (Some (accumulate ds (currentStreamingMsg x))) (state x)
       end.
Proof.
  induction ds as [|d ds IH]; intros events x H; inversion H as [|e ? es ? He Hes]; subst.
  - cbn. rewrite accumulate_nil. split; reflexivity.
  - cbn [settleAll fold_left]. fold (settleAll streamEvent es (settle streamEvent e x)).
    destruct (IH es (settle streamEvent e x) Hes) as [Ec Es].
    rewrite Ec, Es.
    destruct d as [c|c].
    + rewrite (settle_thinking e c x He), accumulate_thinking. cbn.
      destruct ds; [rewrite accumulate_nil|]; split; reflexivity.
    + rewrite (settle_response e c x He), accumulate_response. cbn.
      destruct ds; [rewrite accumulate_nil|]; split; reflexivity.
Qed.

Lemma deltas_without_done (events : list JSValue) (ds : list Delta) :
  Forall2 carries events ds -> Forall Draft.not_done events.
Proof.
  induction 1 as [|e d es ds He _ IH]; constructor; [|exact IH].
  unfold Draft.not_done. destruct d; destruct He as [Ht _]; unfold has_type in Ht;
    rewrite (typeOf_Get _ _ Ht); reflexivity.
Qed.

Lemma quiet_done_last (events : list JSValue) (last : JSValue) :
  Forall Draft.not_done events -> quiet (events ++ [last]) = true.
Proof.
  intros H. rewrite (quiet_without_done _ _ H). cbn [quiet forallb].
  destruct (JS.is_string (typeOf last) "done"); reflexivity.
Qed.

Lemma sendMessage_text (text : string) (net : Fetched) (s : State) :
  JSString.isEmpty (JSString.trim text) = false ->
  sendMessage (ArgString text) net s =
  (sendFinally (if snd (attempt net (sendBegin text s))
                then sendCatch (fst (attempt net (sendBegin text s)))
                else fst (attempt net (sendBegin text s))), Normal).
Proof.
  intros H. unfold sendMessage. rewrite H.
  destruct (attempt net (sendBegin text s)). reflexivity.
Qed.

(** The send whose stream carries the deltas [ds] and then [done]. *)
Lemma sendMessage_deltas
    (text : string) (chunks : list string) (events : list JSValue) (last : JSValue)
    (ds : list Delta) (s : State) :
  JSString.isEmpty (JSString.trim text) = false ->
  received chunks = events ++ [last] ->
  Forall2 carries events ds ->
  is_done last ->
  fst (sendMessage (ArgString text) (Responded true (Readable chunks false)) s) =
  mkState (messages s ++ [userMessage text; answer ds]) EmptyString false (topics s) None
    (effects s ++ [FetchChat text false]).
Proof.
  intros Htext Hrecv Hds Hdone.
  rewrite (sendMessage_text _ _ _ Htext). cbn [attempt fst snd].
  rewrite streamLoop_quiet
    by (rewrite Hrecv; apply quiet_done_last, (deltas_without_done _ _ Hds)).
  rewrite Hrecv, settleAll_app.
  cbn [settleAll fold_left].
  rewrite (settle_done _ _ Hdone). cbn [state currentStreamingMsg].
  destruct (settleAll_deltas ds events (sendBegin text s) Hds) as [Ec Es].
  rewrite Ec, Es.
  assert (Hfin : finalize (accumulate ds emptyDraft) = answer ds).
  { unfold finalize, answer, JS.or. cbn. destruct (thinkingText ds); reflexivity. }
  destruct ds; setters; rewrite Hfin, <- app_assoc; reflexivity.
Qed.

(** C1, as amended.  When the stream carries the [thinking] and
    [response] deltas [ds] and then a [done] event, the send leaves the
    transcript with the user message and one assistant message, whose
    [content] is the concatenation of the [response] contents in arrival
    order and whose [thinking] is the concatenation of the [thinking]
    contents when that text is not empty, and [null] when it is empty.
    This holds for every text that parses to these events, and so for
    every list of deltas, of any contents, written one JSON object a
    line and grouped into chunks in any way. *)
Theorem sendMessage_concatenates (text : string) (s : State) :
  JSString.isEmpty (JSString.trim text) = false ->
  (forall chunks events last ds,
      received chunks = events ++ [last] ->
      Forall2 carries events ds ->
      is_done last ->
      fst (sendMessage (ArgString text) (Responded true (Readable chunks false)) s) =
      mkState (messages s ++ [userMessage text; answer ds]) EmptyString false (topics s) None
        (effects s ++ [FetchChat text false]))
  /\ (forall groups : list (list Delta),
        fst (sendMessage (ArgString text)
               (Responded true (Readable (map deltaChunk groups ++ [doneChunk]) false)) s) =
        mkState (messages s ++ [userMessage text; answer (concat groups)]) EmptyString false
          (topics s) None (effects s ++ [FetchChat text false])).
Proof.
  intros Htext. split.
  - intros chunks events last ds. apply sendMessage_deltas, Htext.
  - intros groups.
    apply (sendMessage_deltas text _ (map deltaValue (concat groups)) doneValue); trivial.
    + apply received_deltaChunks.
    + apply carries_deltaValue.
    + split; reflexivity.
Qed.

End Concatenation.

Section ConcatenationExamples.
Import WellnessChat Stream.

(** The example of the specification: two [response] events and [done],
    here in two chunks. *)
Lemma sendMessage_concatenates_witness :
  fst (sendMessage (ArgString "Hello")
         (Responded true
            (Readable [ dataLines [ "{'type':'response','content':'Hi'}";
                                    "{'type':'response','content':' there'}" ];
                        dataLines [ "{'type':'done'}" ] ] false))
         initial) =
  mkState [userMessage "Hello"; answer [Response "Hi"; Response " there"]]
    EmptyString false (JArray []) None [FetchChat "Hello" false].
Proof.
  refine (proj1 (sendMessage_concatenates "Hello" initial _) _
            [ JObject [("type", JString "response"); ("content", JString "Hi")];
              JObject [("type", JString "response"); ("content", JString " there")] ]
            (JObject [("type", JString "done")])
            [Response "Hi"; Response " there"] _ _ _).
  - reflexivity.
  - vm_compute. reflexivity.
  - repeat constructor.
  - split; reflexivity.
Defined.

(** C1 as worded fails when [thinking] events arrive whose contents are
    all empty: an event did arrive, the concatenation is the empty
    string, and the message holds [null]. *)
Lemma empty_thinking_gives_null :
  let chunks := [ dataLines [ "{'type':'thinking','content':''}"; "{'type':'done'}" ] ] in
  let ds := [Thinking EmptyString] in
  (exists events last,
      received chunks = events ++ [last] /\ Forall2 carries events ds /\ is_done last)
  /\ anyThinking ds = true
  /\ map Message.thinking
       (messages (fst (sendMessage (ArgString "Hello")
                         (Responded true (Readable chunks false)) initial)))
     = [JUndefined; JNull]
  /\ JNull <> JString (thinkingText ds).
Proof.
  cbv zeta. split; [|split; [|split]].
  - exists [JObject [("type", JString "thinking"); ("content", JString EmptyString)]],
      (JObject [("type", JString "done")]).
    split; [vm_compute; reflexivity|].
    split; [repeat constructor|split; reflexivity].
  - reflexivity.
  - vm_compute. reflexivity.
  - discriminate.
Qed.

End ConcatenationExamples.

(** ** C4: a send that fails *)

Section Failure.
Import WellnessChat Stream.

(** C4.  A send whose [fetch] rejects or answers with a status that is
    not OK (or whose fallback [text()] rejects) shows the error toast,
    drops the draft and leaves the transcript with the user message as
    its only new entry; a read that fails in mid-stream does the same
    to the toast and the draft, and adds no message unless a [done]
    event had come.  Whatever the network does, the loading flag is
    false when the send ends. *)
Theorem sendMessage_failure (text : string) (s : State) :
  JSString.isEmpty (JSString.trim text) = false ->
  (forall net,
      net = NetworkError
      \/ (exists body, net = Responded false body)
      \/ net = Responded true (Unreadable None) ->
      fst (sendMessage (ArgString text) net s) =
      mkState (messages s ++ [userMessage text]) EmptyString false (topics s) None
        (effects s ++ [FetchChat text false; apology]))
  /\ (forall chunks,
         let s' := fst (sendMessage (ArgString text) (Responded true (Readable chunks true)) s) in
         streamingMessage s' = None
         /\ effects s' = effects s ++ [FetchChat text false; apology]
         /\ (Forall (fun data => JS.is_string (typeOf data) "done" = false) (received chunks) ->
             messages s' = messages s ++ [userMessage text]))
  /\ (forall net, isLoading (fst (sendMessage (ArgString text) net s)) = false).
Proof.
  intros Htext. split; [|split].
  - intros net Hnet. rewrite (sendMessage_text _ _ _ Htext).
    assert (E : attempt net (sendBegin text s) = (state (sendBegin text s), true)).
    { destruct Hnet as [-> | [[body ->] | ->]]; reflexivity. }
    rewrite E. cbn [fst snd]. setters. rewrite <- app_assoc. reflexivity.
  - intros chunks s'. subst s'. rewrite (sendMessage_text _ _ _ Htext).
    cbn [attempt fst snd].
    destruct (streamLoop_continues chunks (sendBegin text s)) as (_ & _ & _ & _ & He).
    split; [reflexivity|]. split.
    + setters. rewrite He, <- app_assoc. reflexivity.
    + intros Hnone. setters.
      rewrite (proj2 (streamLoop_without_done chunks _ Hnone)). reflexivity.
  - intros net. rewrite (sendMessage_text _ _ _ Htext). reflexivity.
Qed.

Lemma sendMessage_failure_witness :
  fst (sendMessage (ArgString "Hello") NetworkError initial) =
  mkState [userMessage "Hello"] EmptyString false (JArray []) None
    [FetchChat "Hello" false; apology].
Proof.
  refine (proj1 (sendMessage_failure "Hello" initial _) NetworkError _).
  - reflexivity.
  - left. reflexivity.
Defined.

End Failure.

(** ** C6: [metadata] overwrites *)

Section Metadata.
Import WellnessChat Stream.

(** The fallback overwrites on every [metadata] event, whatever else
    the event holds. *)
Lemma fallbackEvent_metadata (data s ws wd : JSValue) (t : Turn) :
  has_type data "metadata" ->
  JS.Get data "sources" = Some s ->
  JS.Get data "web_sources" = Some ws ->
  JS.Get data "web_searched" = Some wd ->
  fallbackEvent data t =
  Some (republish (StreamingMessage.with_metadata s ws wd (currentStreamingMsg (send t))) t).
Proof.
  intros Ht Hs Hws Hwd. unfold fallbackEvent.
  rewrite Ht. cbn. rewrite Hs, Hws, Hwd. reflexivity.
Qed.

(** Where the streaming loop reaches its [metadata] branch, it
    overwrites as the fallback does: the three fields of the draft
    become those of the event, whatever they held before, a field the
    event lacks becoming [undefined], the other fields are kept and the
    draft is published. *)
Lemma metadata_overwrites
    (data sources web_sources web_searched : JSValue) (t : Turn) :
  is_metadata data sources web_sources web_searched ->
  let cur := currentStreamingMsg (send t) in
  let cur' :=
    StreamingMessage.make (StreamingMessage.role cur) (StreamingMessage.thinking cur)
      (StreamingMessage.content cur) (StreamingMessage.thinkingComplete cur)
      sources web_sources web_searched in
  streamEvent data t = Some (republish cur' t)
  /\ fallbackEvent data t = Some (republish cur' t).
Proof.
  intros H. split.
  - apply (streamEvent_metadata _ _ _ _ _ H).
  - destruct H as (Ht & _ & Hs & Hws & Hwd). apply (fallbackEvent_metadata _ _ _ _ _ Ht Hs Hws Hwd).
Qed.

(** C6.  The claim holds of the fallback and fails in the streaming
    loop: on a [metadata] event whose [content] is a number the log line
    170, [data.content?.substring(0, 20)], throws before the branch of
    lines 189-193 is reached, the inner [catch] takes the exception, and
    the draft keeps the [sources], [webSources] and [webSearched] of the
    earlier event.  The fallback, which has no such line, overwrites
    them on the same event. *)
Theorem metadata_is_skipped_by_the_log_line :
  let earlier :=
    StreamingMessage.make "assistant" "hm" "Hi" true
      (JArray [JString "WHO"]) (JArray [JString "https://who.int"]) (JBool true) in
  let overwritten :=
    StreamingMessage.make "assistant" "hm" "Hi" true (JArray [JString "CDC"]) JUndefined JNull in
  let line :=
    dataLine "{'type':'metadata','content':5,'sources':['CDC'],'web_searched':null}" in
  map typeOf (received [line]) = [JString "metadata"]
  /\ map (fun data => JS.Get data "sources") (received [line]) = [Some (JArray [JString "CDC"])]
  /\ map (fun data => option_map JS.is_number (JS.Get data "content")) (received [line])
     = [Some true]
  /\ map (fun data => streamEvent data (start (mkSend earlier initial))) (received [line])
     = [None]
  /\ streamLoop [line] (mkSend earlier initial) = mkSend earlier initial
  /\ fallback line (mkSend earlier initial)
     = mkSend overwritten (setStreamingMessage (Some overwritten) initial).
Proof. vm_compute. repeat split; reflexivity. Qed.

End Metadata.

(** ** C7: a blank input is not sent *)

Section Blank.
Import WellnessChat Stream.

(** Text made of one-byte white space trims to the empty string. *)
Lemma trim_white (text : string) :
  Forall (fun a => JSString.is_ws1 a = true) (list_ascii_of_string text) ->
  JSString.trim text = EmptyString.
Proof.
  intros H. unfold JSString.trim.
  assert (E : JSString.trimStart text = EmptyString).
  { induction text as [|a r IH]; [reflexivity|].
    inversion H as [|? ? Ha Hr]; subst. cbn [JSString.trimStart]. rewrite Ha. auto. }
  rewrite E. reflexivity.
Qed.

(** C7.  When the text to send, given or taken from the input field,
    is empty after trimming, [sendMessage] returns with the state as it
    was: no message appended, no draft, no request in the effects, and
    no send in flight. *)
Theorem blank_send_is_ignored (text : string) (net : Fetched) (s : State) :
  JSString.isEmpty (JSString.trim text) = true ->
  sendMessage (ArgString text) net s = (s, Normal)
  /\ (inputMessage s = text -> sendMessage ArgUndefined net s = (s, Normal))
  /\ (forall p, EventLoop.component p = s ->
                EventLoop.sendStart (ArgString text) p = p
                /\ (inputMessage s = text -> EventLoop.sendStart ArgUndefined p = p)).
Proof.
  intros H. split; [|split].
  - unfold sendMessage. rewrite H. reflexivity.
  - intros <-. unfold sendMessage. rewrite H. reflexivity.
  - intros p <-. split.
    + unfold EventLoop.sendStart. rewrite H. reflexivity.
    + intros E. unfold EventLoop.sendStart. rewrite E, H. reflexivity.
Qed.

Lemma blank_send_is_ignored_witness :
  let blank := String " " (String JSString.TAB (String JSString.LF " ")) in
  sendMessage (ArgString blank) NetworkError initial = (initial, Normal).
Proof.
  refine (proj1 (blank_send_is_ignored _ NetworkError initial _)).
  reflexivity.
Defined.

End Blank.

(** ** C8: the transcript only grows, until it is cleared *)

Section AppendOnly.
Import WellnessChat Stream EventLoop.

Ltac same := exists []; rewrite app_nil_r; reflexivity.

Lemma sendMessage_grows (arg : Arg) (net : Fetched) (s : State) :
  exists more, messages (fst (sendMessage arg net s)) = messages s ++ more.
Proof.
  unfold sendMessage.
  destruct (match arg with ArgUndefined => ArgString (inputMessage s) | _ => arg end)
    as [|text|]; try (cbn; same).
  destruct (JSString.isEmpty (JSString.trim text)); [cbn; same|].
  assert (H : exists more,
             messages (fst (attempt net (sendBegin text s))) = messages s ++ more).
  { destruct net as [|[] [chunks fails|[full|]|bursts fails]]; cbn [attempt fst];
      try (setters; eexists; reflexivity).
    - destruct (streamLoop_continues chunks (sendBegin text s)) as ([more E] & _).
      rewrite E. setters. rewrite <- app_assoc. eexists. reflexivity.
    - destruct (fallback_continues full (sendBegin text s)) as ([more E] & _).
      rewrite E. setters. rewrite <- app_assoc. eexists. reflexivity.
    - destruct (streamBursts_continues bursts (sendBegin text s)) as ([more E] & _).
      rewrite E. setters. rewrite <- app_assoc. eexists. reflexivity. }
  destruct (attempt net (sendBegin text s)) as [s' []]; cbn [fst] in *; setters; exact H.
Qed.

Lemma sendStart_grows (arg : Arg) (p : Page) :
  exists more, messages (component (sendStart arg p)) = messages (component p) ++ more.
Proof.
  unfold sendStart.
  destruct (match arg with ArgUndefined => ArgString (inputMessage (component p)) | _ => arg end)
    as [|text|]; try same.
  destruct (JSString.isEmpty (JSString.trim text)); [same|].
  cbn [component]. setters. eexists. reflexivity.
Qed.

Lemma step_grows (e : Event) (p : Page) :
  e <> ClearButton ->
  exists more, messages (component (step e p)) = messages (component p) ++ more.
Proof.
  intros Hne. destruct e as [v|k sh| |topic| |data|n a|n r|n full]; cbn [step];
    try congruence; try apply sendStart_grows.
  - same.
  - destruct (String.eqb k "Enter" && negb sh)%bool; [apply sendStart_grows|same].
  - destruct (JS.Get topic "id") as [id|]; [|same].
    destruct (JS.ToString id); [apply sendStart_grows|same].
  - cbn [component]. unfold fetchWellnessTopics.
    destruct data as [d|]; [destruct (JS.Get d "topics")|]; setters; same.
  - destruct (nth_error (sends p) n) as [[cur []]|]; try same.
    destruct a as [[[] []]|]; cbn [finish resume component]; setters; same.
  - destruct (nth_error (sends p) n) as [[cur []]|]; try same.
    destruct r as [text| | |texts]; cbn [finish resume component]; setters; try same.
    + destruct (streamChunk_continues text (mkSend cur (component p))) as (H & _).
      exact H.
    + destruct (streamReads_continues texts (mkSend cur (component p))) as (H & _).
      exact H.
  - destruct (nth_error (sends p) n) as [[cur []]|]; try same.
    destruct full as [text|]; cbn [finish resume component]; setters; try same.
    destruct (fallback_continues text (mkSend cur (component p))) as (H & _).
    exact H.
Qed.

Lemma handlers_grow (s : State) :
  (forall topic net,
      exists more, messages (fst (handleTopicClick topic net s)) = messages s ++ more)
  /\ (forall key shiftKey net,
        exists more, messages (fst (handleKeyPress key shiftKey net s)) = messages s ++ more)
  /\ (forall data, exists more, messages (fetchWellnessTopics data s) = messages s ++ more).
Proof.
  split; [|split].
  - intros topic net. unfold handleTopicClick.
    destruct (JS.Get topic "id") as [id|]; [|cbn; same].
    destruct (JS.ToString id); [apply sendMessage_grows|cbn; same].
  - intros key shiftKey net. unfold handleKeyPress.
    destruct (String.eqb key "Enter" && negb shiftKey)%bool; [apply sendMessage_grows|cbn; same].
  - intros data. unfold fetchWellnessTopics.
    destruct data as [d|]; [destruct (JS.Get d "topics")|]; setters; same.
Qed.

(** C8.  Every event of the page other than the clear button, any
    settling of a promise of a send in flight included, leaves the
    transcript it found as the prefix of the transcript it leaves, and so
    does every handler run as a whole: [sendMessage], [handleTopicClick],
    [handleKeyPress] and [fetchWellnessTopics].  The clear button, in any
    state, leaves the transcript empty and the published draft [null]. *)
Theorem transcript_is_append_only :
  (forall e p, e <> ClearButton ->
     exists more, messages (component (step e p)) = messages (component p) ++ more)
  /\ (forall s,
        (forall arg net,
            exists more, messages (fst (sendMessage arg net s)) = messages s ++ more)
        /\ (forall topic net,
              exists more, messages (fst (handleTopicClick topic net s)) = messages s ++ more)
        /\ (forall key shiftKey net,
              exists more,
                messages (fst (handleKeyPress key shiftKey net s)) = messages s ++ more)
        /\ (forall data,
              exists more, messages (fetchWellnessTopics data s) = messages s ++ more))
  /\ (forall p,
        messages (component (step ClearButton p)) = []
        /\ streamingMessage (component (step ClearButton p)) = None)
  /\ (forall s, messages (clearChat s) = [] /\ streamingMessage (clearChat s) = None).
Proof.
  split; [exact step_grows|]. split.
  - intros s. split; [intros; apply sendMessage_grows|apply handlers_grow].
  - split; intros; split; reflexivity.
Qed.

Lemma transcript_is_append_only_witness :
  let p := mkPage (mkState [userMessage "Hello"] EmptyString true (JArray [])
                     (Some emptyDraft) [FetchChat "Hello" false])
             [mkInFlight emptyDraft AwaitRead] in
  exists more,
    messages (component (step (ReadSettles 0 (Chunk (dataLines ["{'type':'done'}"]))) p))
    = [userMessage "Hello"] ++ more.
Proof.
  cbv zeta. refine (proj1 transcript_is_append_only _ _ _). discriminate.
Defined.

End AppendOnly.

(** ** [sendMessage] is the uninterrupted run of the event loop *)

Section Runs.
Import WellnessChat Stream EventLoop.

Lemma nth_error_last (l : list InFlight) (f : InFlight) :
  nth_error (l ++ [f]) (length l) = Some f.
Proof. induction l as [|a l IH]; [reflexivity|exact IH]. Qed.

Lemma update_last (l : list InFlight) (f g : InFlight) :
  update (length l) g (l ++ [f]) = l ++ [g].
Proof. induction l as [|a l IH]; [reflexivity|]. cbn. rewrite IH. reflexivity. Qed.

Lemma nth_error_length (l : list InFlight) : nth_error l (length l) = None.
Proof. induction l as [|a l IH]; [reflexivity|exact IH]. Qed.

Lemma Send_eta (x : Send) : mkSend (currentStreamingMsg x) (state x) = x.
Proof. destruct x. reflexivity. Qed.

Lemma run_app (e1 e2 : list Event) (p : Page) : run (e1 ++ e2) p = run e2 (run e1 p).
Proof. apply fold_left_app. Qed.

(** The chunks of a send, delivered one after the other, are the loop. *)
Lemma run_chunks (chunks : list string) :
  forall (cur : StreamingMessage.t) (s : State) (l : list InFlight),
    run (map (fun c => ReadSettles (length l) (Chunk c)) chunks)
      (mkPage s (l ++ [mkInFlight cur AwaitRead])) =
    mkPage (state (streamLoop chunks (mkSend cur s)))
      (l ++ [mkInFlight (currentStreamingMsg (streamLoop chunks (mkSend cur s))) AwaitRead]).
Proof.
  induction chunks as [|c r IH]; intros cur s l; [reflexivity|].
  cbn [map run fold_left]. fold (run (map (fun c => ReadSettles (length l) (Chunk c)) r)).
  cbn [step sends component]. rewrite nth_error_last.
  unfold resume. cbn [sends]. rewrite update_last, IH, Send_eta. reflexivity.
Qed.

Lemma run_bursts (bursts : list (list string)) :
  forall (cur : StreamingMessage.t) (s : State) (l : list InFlight),
    run (map (fun b => ReadSettles (length l) (Burst b)) bursts)
      (mkPage s (l ++ [mkInFlight cur AwaitRead])) =
    mkPage (state (streamBursts bursts (mkSend cur s)))
      (l ++ [mkInFlight (currentStreamingMsg (streamBursts bursts (mkSend cur s))) AwaitRead]).
Proof.
  induction bursts as [|b r IH]; intros cur s l; [reflexivity|].
  cbn [map run fold_left]. fold (run (map (fun b => ReadSettles (length l) (Burst b)) r)).
  cbn [step sends component]. rewrite nth_error_last.
  unfold resume. cbn [sends]. rewrite update_last, IH, Send_eta. reflexivity.
Qed.

(** No send has the number [n]: its settlings find nothing to resume. *)
Lemma script_idle (net : Fetched) (p : Page) :
  run (script (length (sends p)) net) p = p.
Proof.
  assert (Hstep : forall e,
             (exists a, e = FetchSettles (length (sends p)) a)
             \/ (exists r, e = ReadSettles (length (sends p)) r)
             \/ (exists t, e = TextSettles (length (sends p)) t) ->
             step e p = p).
  { intros e [[a ->] | [[r ->] | [t ->]]]; cbn [step]; rewrite nth_error_length; reflexivity. }
  assert (Hrun : forall events,
             Forall (fun e => step e p = p) events -> run events p = p).
  { induction 1 as [|e es He _ IH]; [reflexivity|]. cbn [run fold_left]. rewrite He. exact IH. }
  apply Hrun. destruct net as [|[] [chunks fails|full|bursts fails]]; cbn [script];
    try (repeat constructor; apply Hstep; eauto; fail).
  - constructor; [apply Hstep; eauto|]. apply Forall_app. split.
    + apply Forall_forall. intros e He. apply in_map_iff in He as [c [<- _]].
      apply Hstep; eauto.
    + repeat constructor; apply Hstep; eauto.
  - constructor; [apply Hstep; eauto|]. apply Forall_app. split.
    + apply Forall_forall. intros e He. apply in_map_iff in He as [c [<- _]].
      apply Hstep; eauto.
    + repeat constructor; apply Hstep; eauto.
Qed.

(** A send started on a page and left alone with the network ends with
    the component in the state [sendMessage] computes. *)
Theorem sendMessage_is_a_run (arg : Arg) (net : Fetched) (p : Page) :
  component (run (script (length (sends p)) net) (sendStart arg p)) =
  fst (sendMessage arg net (component p)).
Proof.
  unfold sendStart, sendMessage.
  destruct (match arg with ArgUndefined => ArgString (inputMessage (component p)) | _ => arg end)
    as [|text|]; try (rewrite script_idle; reflexivity).
  destruct (JSString.isEmpty (JSString.trim text)); [rewrite script_idle; reflexivity|].
  set (x := sendBegin text (component p)).
  destruct net as [|[] [chunks fails|[full|]|bursts fails]];
    cbn [script attempt run fold_left];
    try (cbn [step sends component]; rewrite nth_error_last; reflexivity).
  - fold (run (map (fun c => ReadSettles (length (sends p)) (Chunk c)) chunks
                 ++ [ReadSettles (length (sends p)) (if fails then ReadError else Closed)])).
    cbn [step sends component]. rewrite nth_error_last.
    unfold resume. cbn [sends]. rewrite update_last, run_app.
    replace emptyDraft with (currentStreamingMsg x) by reflexivity.
    rewrite run_chunks. replace (mkSend (currentStreamingMsg x) (state x)) with x by reflexivity.
    cbn [run fold_left step sends component]. rewrite nth_error_last.
    destruct fails; reflexivity.
  - cbn [step sends component]. rewrite nth_error_last.
    unfold resume. cbn [sends component]. rewrite update_last, nth_error_last.
    reflexivity.
  - cbn [step sends component]. rewrite nth_error_last.
    unfold resume. cbn [sends component]. rewrite update_last, nth_error_last.
    reflexivity.
  - fold (run (map (fun b => ReadSettles (length (sends p)) (Burst b)) bursts
                 ++ [ReadSettles (length (sends p)) (if fails then ReadError else Closed)])).
    cbn [step sends component]. rewrite nth_error_last.
    unfold resume. cbn [sends]. rewrite update_last, run_app.
    replace emptyDraft with (currentStreamingMsg x) by reflexivity.
    rewrite run_bursts. replace (mkSend (currentStreamingMsg x) (state x)) with x by reflexivity.
    cbn [run fold_left step sends component]. rewrite nth_error_last.
    destruct fails; reflexivity.
Qed.

End Runs.

(** ** C5: line by line, chunk by chunk *)

Section LineByLine.
Import WellnessChat Stream.

Lemma decodeText_line (line rest : string) (t : Turn) :
  no_LF line = true ->
  decodeText streamEvent (line ++ String JSString.LF rest)%string t =
  decodeText streamEvent rest (decodeLine streamEvent line t).
Proof.
  intros H. unfold decodeText. rewrite (split_line _ _ H). reflexivity.
Qed.

Lemma decodeLine_unparsed (line : string) (t : Turn) :
  JSON.parse (JSString.slice 6 line) = None -> decodeLine streamEvent line t = t.
Proof.
  intros H. unfold decodeLine. rewrite H.
  destruct (JSString.startsWith "data: " line); reflexivity.
Qed.

Lemma decodeLine_unprefixed (line : string) (t : Turn) :
  JSString.startsWith "data: " line = false -> decodeLine streamEvent line t = t.
Proof. intros H. unfold decodeLine. rewrite H. reflexivity. Qed.

(** A line that changes nothing, at the head of a chunk. *)
Lemma streamChunk_skip (line rest : string) (x : Send) :
  no_LF line = true ->
  decodeLine streamEvent line (start x) = start x ->
  streamChunk (line ++ String JSString.LF rest)%string x = streamChunk rest x.
Proof.
  intros Hl H. unfold streamChunk. rewrite (decodeText_line _ _ _ Hl), H. reflexivity.
Qed.

(** The head of an event line cut where more than white space is left
    for the tail: it is not a [data: ] line, or its payload does not
    parse, or parses to a number, which is no event. *)
Lemma cut_head_is_dropped (head tail : string) (t : Turn) :
  lineEvent (head ++ tail)%string <> None ->
  JSON.skip_ws tail <> EmptyString ->
  decodeLine streamEvent head t = t.
Proof.
  intros Hline Htail. unfold decodeLine.
  destruct (JSString.startsWith "data: " head) eqn:Ep; [|reflexivity].
  destruct (JSON.parse (JSString.slice 6 head)) as [v|] eqn:Ev; [|reflexivity].
  destruct (JS.is_number v) eqn:En.
  - destruct v; try discriminate. reflexivity.
  - exfalso. apply Hline. unfold lineEvent, JSString.startsWith in *.
    rewrite (prefix_app _ _ tail Ep).
    rewrite (slice_app 6 head tail (prefix_length _ _ Ep)).
    apply (parse_cut _ _ _ Ev En Htail).
Qed.

(** C5, as amended.  A line that does not begin with [data: ] changes
    nothing; a [data: ] line whose payload does not parse changes nothing
    and the lines after it are decoded as if it were not there; and
    nothing is kept from one chunk to the next: of an event line cut by a
    chunk boundary each piece is decoded as a line of its own, and when
    the cut leaves the tail more than white space, and the tail does not
    itself begin with [data: ], neither piece changes anything: the
    stream goes on as if the line had not been sent. *)
Theorem decoder_is_line_by_line :
  (forall line x,
      JSString.startsWith "data: " line = false -> decodeLine streamEvent line x = x)
  /\ (forall line rest t x,
        no_LF line = true ->
        JSON.parse (JSString.slice 6 line) = None ->
        decodeLine streamEvent line t = t
        /\ streamChunk (line ++ String JSString.LF rest)%string x = streamChunk rest x)
  /\ (forall chunk chunks x,
        streamLoop (chunk :: chunks) x = streamLoop chunks (streamChunk chunk x))
  /\ (forall before head tail after x,
        whole_lines before = true ->
        no_LF head = true ->
        no_LF tail = true ->
        lineEvent (head ++ tail)%string <> None ->
        JSON.skip_ws tail <> EmptyString ->
        JSString.startsWith "data: " tail = false ->
        streamLoop [ (before ++ head)%string;
                     (tail ++ String JSString.LF after)%string ] x
        = streamLoop [before; after] x).
Proof.
  split; [exact decodeLine_unprefixed|]. split; [|split].
  - intros line rest t x Hl Hp. split; [apply decodeLine_unparsed, Hp|].
    apply (streamChunk_skip _ _ _ Hl), decodeLine_unparsed, Hp.
  - reflexivity.
  - intros before head tail after x Hb Hh Ht Hline Htail Hd.
    cbn [streamLoop fold_left].
    rewrite (streamChunk_skip _ _ _ Ht (decodeLine_unprefixed _ _ Hd)).
    f_equal. unfold streamChunk. rewrite (decodeText_app _ _ _ _ Hb).
    unfold decodeText at 1. rewrite (split_no_LF _ Hh). cbn [fold_left].
    rewrite (cut_head_is_dropped _ _ _ Hline Htail). reflexivity.
Qed.

Lemma decoder_is_line_by_line_witness :
  let before := dataLines ["{'type':'response','content':'Hi'}"] in
  let head := JSString.quoted "data: {'type':'response','con" in
  let tail := JSString.quoted "tent':' there'}" in
  let after := dataLines ["{'type':'done'}"] in
  streamLoop [ (before ++ head)%string; (tail ++ String JSString.LF after)%string ]
    (mkSend emptyDraft initial)
  = streamLoop [before; after] (mkSend emptyDraft initial).
Proof.
  cbv zeta.
  refine (proj2 (proj2 (proj2 decoder_is_line_by_line)) _ _ _ _ _ _ _ _ _ _ _);
    vm_compute; try reflexivity; discriminate.
Defined.

(** C5 as worded fails where the cut leaves the tail white space only:
    with a carriage return before the line feed, and the cut between the
    event and the carriage return, the head is the whole event, and it is
    applied, not dropped. *)
Lemma cut_line_may_still_apply :
  let head := JSString.quoted "data: {'type':'done'}" in
  let tail := String JSString.CR EmptyString in
  let x := mkSend (StreamingMessage.with_content "Hi" emptyDraft) initial in
  no_LF (head ++ tail)%string = true
  /\ lineEvent (head ++ tail)%string = Some (JObject [("type", JString "done")])
  /\ JSString.startsWith "data: " tail = false
  /\ messages (state x) = []
  /\ messages (state (streamLoop [head; (tail ++ String JSString.LF EmptyString)%string] x))
     = [answer [Response "Hi"]].
Proof. vm_compute. repeat split; reflexivity. Qed.

End LineByLine.

(** ** C10: a topic card *)

Section Topics.
Import WellnessChat Stream.

Lemma assoc_missing (l : list (string * string)) (k : string) :
  ~ In k (map fst l) -> assoc l k = None.
Proof.
  induction l as [|[k' v] r IH]; intros H; [reflexivity|].
  cbn [assoc]. destruct (String.eqb_spec k' k) as [->|_].
  - exfalso. apply H. left. reflexivity.
  - apply IH. intros Hin. apply H. right. exact Hin.
Qed.

Lemma lookupQuestion_own (key q : string) :
  In (key, q) topicQuestions -> lookupQuestion key = ArgString q.
Proof.
  intros H. repeat (destruct H as [H|H]; [inversion H; subst; reflexivity|]).
  destruct H.
Qed.

Lemma lookupQuestion_inherited (key : string) :
  In key inherited -> lookupQuestion key = ArgBuiltin key.
Proof.
  intros H. repeat (destruct H as [H|H]; [subst; reflexivity|]). destruct H.
Qed.

Lemma lookupQuestion_missing (key : string) :
  ~ In key (map fst topicQuestions) -> ~ In key inherited ->
  lookupQuestion key = ArgUndefined.
Proof.
  intros Ho Hi. unfold lookupQuestion. rewrite (assoc_missing _ _ Ho).
  destruct (existsb (String.eqb key) inherited) eqn:E; [|reflexivity].
  apply existsb_exists in E as [k [Hin Heq]]. apply String.eqb_eq in Heq. subst k.
  contradiction.
Qed.

(** C10, as amended.  The table has the six topic ids.  For one of them
    [handleTopicClick] is [sendMessage] with the question of the table.
    For an id that is neither in the table nor a property name of
    [Object.prototype] the lookup is [undefined], the default value of
    the parameter takes its place, and the call is [sendMessage] with
    the text of the input field: no TypeError.  Only for a name
    inherited from [Object.prototype], where the lookup finds a built-in
    value, does [.trim()] throw, with the state untouched. *)
Theorem handleTopicClick_by_id
    (topic id : JSValue) (key : string) (net : Fetched) (s : State) :
  JS.Get topic "id" = Some id ->
  JS.ToString id = Some key ->
  map fst topicQuestions
  = ["nutrition"; "exercise"; "sleep"; "stress"; "hydration"; "checkup"]
  /\ (forall q, In (key, q) topicQuestions ->
                handleTopicClick topic net s = sendMessage (ArgString q) net s)
  /\ (~ In key (map fst topicQuestions) -> ~ In key inherited ->
      handleTopicClick topic net s = sendMessage (ArgString (inputMessage s)) net s)
  /\ (In key inherited -> handleTopicClick topic net s = (s, TypeError)).
Proof.
  intros Hid Hkey. unfold handleTopicClick. rewrite Hid, Hkey.
  split; [reflexivity|]. split; [|split].
  - intros q Hq. rewrite (lookupQuestion_own _ _ Hq). reflexivity.
  - intros Ho Hi. rewrite (lookupQuestion_missing _ Ho Hi). reflexivity.
  - intros Hi. rewrite (lookupQuestion_inherited _ Hi). reflexivity.
Qed.

Lemma handleTopicClick_by_id_witness :
  handleTopicClick (JObject [("id", JString "sleep")]) NetworkError initial
  = sendMessage (ArgString "What are good sleep hygiene practices?") NetworkError initial.
Proof.
  refine (proj1 (proj2 (handleTopicClick_by_id (JObject [("id", JString "sleep")])
                          (JString "sleep") "sleep" NetworkError initial _ _)) _ _).
  - reflexivity.
  - reflexivity.
  - cbn. tauto.
Defined.

(** C10 as worded fails: for an unknown id no TypeError is thrown; the
    text of the input field is sent. *)
Lemma unknown_topic_sends_the_input :
  let topic := JObject [("id", JString "mindfulness")] in
  let s := setInputMessage "How are you?" initial in
  lookupQuestion "mindfulness" = ArgUndefined
  /\ snd (handleTopicClick topic NetworkError s) = Normal
  /\ messages (fst (handleTopicClick topic NetworkError s)) = [userMessage "How are you?"]
  /\ effects (fst (handleTopicClick topic NetworkError s))
     = [FetchChat "How are you?" false; apology].
Proof. vm_compute. repeat split; reflexivity. Qed.

End Topics.

(** ** C9: the static chat shell *)

Section Shell.
Import ChatShell.

(** C9.  A send of type [text] whose value is not blank appends the
    user's bubble, on the right, and sets one timer of 1000 ms that
    holds the fixed reply; when no other timer is pending, the
    transcript has the bubble alone until 1000 ms have passed and the
    bubble and the reply, with no timer left, from then on.  A blank
    value or another type changes nothing.  The handler has the
    transcript and the timer as its only effects. *)
Theorem handleSend_replies_once (val : string) (s : State) :
  JSString.isEmpty (JSString.trim val) = false ->
  let bubble := mkMsg "text" val (Some "right") in
  handleSend "text" val s
  = mkState (now s) (messages s ++ [bubble]) (timers s ++ [((now s + 1000)%Z, reply)])
  /\ (timers s = [] ->
      forall dt, (0 <= dt < 1000)%Z ->
                 messages (elapse dt (handleSend "text" val s)) = messages s ++ [bubble])
  /\ (timers s = [] ->
      forall dt, (1000 <= dt)%Z ->
                 elapse dt (handleSend "text" val s)
                 = mkState (now s + dt)%Z (messages s ++ [bubble; reply]) [])
  /\ (forall type val',
        type <> "text" \/ JSString.isEmpty (JSString.trim val') = true ->
        handleSend type val' s = s).
Proof.
  intros Hval bubble.
  assert (E : handleSend "text" val s
              = mkState (now s) (messages s ++ [bubble])
                  (timers s ++ [((now s + 1000)%Z, reply)])).
  { unfold handleSend. rewrite Hval. reflexivity. }
  split; [exact E|]. split; [|split].
  - intros Ht dt Hdt. rewrite E, Ht. unfold elapse. cbn.
    destruct (Z.leb_spec (now s + 1000) (now s + dt)); [lia|].
    cbn. rewrite app_nil_r. reflexivity.
  - intros Ht dt Hdt. rewrite E, Ht. unfold elapse. cbn.
    destruct (Z.leb_spec (now s + 1000) (now s + dt)); [|lia].
    cbn. rewrite <- app_assoc. reflexivity.
  - intros type val' [Hty | Hbl]; unfold handleSend.
    + destruct (String.eqb_spec type "text"); [contradiction|reflexivity].
    + rewrite Hbl, andb_false_r. reflexivity.
Qed.

Lemma handleSend_replies_once_witness :
  elapse 1000 (handleSend "text" "Hi" (mkState 0 [] []))
  = mkState 1000 [mkMsg "text" "Hi" (Some "right"); reply] [].
Proof.
  refine (proj1 (proj2 (proj2 (handleSend_replies_once "Hi" (mkState 0 [] []) _))) _ 1000%Z _).
  - reflexivity.
  - reflexivity.
  - lia.
Defined.

End Shell.

(** * Further properties: the configuration, the screen, sends in flight *)

Section BackendAddress.
Import Config.

Lemma all_slashes_slashes (k : nat) : all_slashes (slashes k) = true.
Proof. induction k as [|k IH]; [reflexivity|exact IH]. Qed.

Lemma all_slashes_app (a b : string) :
  all_slashes (a ++ b)%string = (all_slashes a && all_slashes b)%bool.
Proof.
  induction a as [|c r IH]; [reflexivity|]. cbn. rewrite IH. apply andb_assoc.
Qed.

Lemma all_slashes_is (s : string) :
  all_slashes s = true -> s = slashes (String.length s).
Proof.
  induction s as [|a r IH]; [reflexivity|]. cbn.
  intros H. apply andb_true_iff in H as [Ha Hr].
  apply Ascii.eqb_eq in Ha. subst a. rewrite <- (IH Hr). reflexivity.
Qed.

(** What [dropSlashes] removes is slashes, and all those at the end. *)
Lemma dropSlashes_split (s : string) :
  exists k, s = (dropSlashes s ++ slashes k)%string /\ endsWithSlash (dropSlashes s) = false.
Proof.
  induction s as [|a r (k & E & H)].
  - exists 0. split; reflexivity.
  - cbn [dropSlashes]. destruct (all_slashes (String a r)) eqn:Ea.
    + exists (String.length (String a r)). split; [apply all_slashes_is, Ea|reflexivity].
    + exists k. split; [cbn; rewrite <- E; reflexivity|].
      cbn [endsWithSlash]. destruct (dropSlashes r) eqn:Ed; [|exact H].
      destruct (Ascii.eqb_spec a "/"); [|reflexivity].
      subst a. rewrite E in Ea. cbn in Ea. rewrite all_slashes_slashes in Ea. discriminate.
Qed.

Lemma dropSlashes_more (s : string) (k : nat) :
  dropSlashes (s ++ slashes k)%string = dropSlashes s.
Proof.
  induction s as [|a r IH].
  - cbn. destruct k; [reflexivity|]. cbn. rewrite all_slashes_slashes. reflexivity.
  - cbn [String.append dropSlashes]. rewrite IH.
    cbn [all_slashes]. rewrite all_slashes_app, all_slashes_slashes, andb_true_r. reflexivity.
Qed.

Lemma isEmpty_app (s t : string) :
  JSString.isEmpty s = false -> JSString.isEmpty (s ++ t)%string = false.
Proof. destruct s; [discriminate|reflexivity]. Qed.

(** X1.  The address of the API is the backend address without the
    slashes it ends with, all of them and nothing else, followed by
    [/api]: slashes put after a backend address do not change it, and no
    double slash comes before [api].  With the variable not set, or set
    to the empty string, it is [http://localhost:8000/api]. *)
Theorem API_has_no_double_slash (env : option string) :
  (exists k,
      BACKEND_URL env = (dropSlashes (BACKEND_URL env) ++ slashes k)%string
      /\ endsWithSlash (dropSlashes (BACKEND_URL env)) = false
      /\ API env = (dropSlashes (BACKEND_URL env) ++ "/api")%string)
  /\ (forall url k,
        env = Some url -> JSString.isEmpty url = false ->
        API (Some (url ++ slashes k)%string) = API env)
  /\ (env = None \/ env = Some EmptyString -> API env = "http://localhost:8000/api").
Proof.
  split; [|split].
  - destruct (dropSlashes_split (BACKEND_URL env)) as (k & E & H).
    exists k. repeat split; assumption.
  - intros url k -> Hurl. unfold API, BACKEND_URL.
    rewrite Hurl, (isEmpty_app _ (slashes k) Hurl), dropSlashes_more. reflexivity.
  - intros [-> | ->]; reflexivity.
Qed.

Lemma API_has_no_double_slash_witness :
  API (Some "https://api.example.org///") = API (Some "https://api.example.org")
  /\ API (Some "https://api.example.org") = "https://api.example.org/api".
Proof.
  split.
  - exact (proj1 (proj2 (API_has_no_double_slash (Some "https://api.example.org")))
             "https://api.example.org" 3 eq_refl eq_refl).
  - reflexivity.
Defined.

End BackendAddress.

(** ** The request *)

Section RequestBody.
Import WellnessChat Stream Draft JSON.

(** X2.  The body [sendMessage] posts is JSON text that reads back, by
    [JSON.parse], as the object with the two fields [message], the text
    exactly as it was given, and [use_web_search], false. *)
Theorem requestBody_round_trip (messageText : string) :
  JSON.parse (requestBody messageText)
  = Some (JObject [("message", JString messageText); ("use_web_search", JBool false)]).
Proof.
  assert (H : parse_value 4 (requestBody messageText)
              = Some (JObject [("message", JString messageText);
                               ("use_web_search", JBool false)], EmptyString)).
  { unfold requestBody.
    change ("{" ++ ?r)%string with (String "{" r).
    rewrite parse_value_brace, strip_brace_stringify, parse_member_next.
    rewrite stringify_app, parse_members_quote, parse_stringify. reflexivity. }
  rewrite (parse_any_fuel _ _ _ _ H). reflexivity.
Qed.

End RequestBody.

(** ** The topics *)

Section TopicsAnswer.
Import WellnessChat View.

(** X3.  [fetchWellnessTopics] asks once and tells the user nothing:
    it leaves the transcript, the input, the loading flag and the draft
    alone and shows no toast.  A request that fails, or a body with
    nothing to read [topics] of, leaves the topics as they were; any
    other body replaces them by its [topics] field unchecked, and when
    that is not an array the welcome section throws as it is rendered. *)
Theorem topics_answer_is_not_checked (data : option JSValue) (s : State) :
  messages (fetchWellnessTopics data s) = messages s
  /\ inputMessage (fetchWellnessTopics data s) = inputMessage s
  /\ isLoading (fetchWellnessTopics data s) = isLoading s
  /\ streamingMessage (fetchWellnessTopics data s) = streamingMessage s
  /\ effects (fetchWellnessTopics data s) = effects s ++ [FetchTopics]
  /\ (data = None \/ (exists d, data = Some d /\ JS.Get d "topics" = None) ->
      topics (fetchWellnessTopics data s) = topics s)
  /\ (forall d t,
         data = Some d -> JS.Get d "topics" = Some t ->
         topics (fetchWellnessTopics data s) = t
         /\ ((forall items, t <> JArray items) ->
             showsWelcome s = true ->
             welcomeSection (fetchWellnessTopics data s) = None)).
Proof.
  unfold fetchWellnessTopics.
  split; [|split; [|split; [|split; [|split; [|split]]]]].
  1-5: destruct data as [d|]; [destruct (JS.Get d "topics")|]; reflexivity.
  - intros [-> | (d & -> & ->)]; reflexivity.
  - intros d t -> Ht. rewrite Ht. split; [reflexivity|].
    intros Hna Hw. unfold welcomeSection, showsWelcome in *.
    cbn [setTopics perform messages streamingMessage topics]. rewrite Hw.
    destruct t; try reflexivity. exfalso. eapply Hna. reflexivity.
Qed.

Lemma topics_answer_is_not_checked_witness :
  welcomeSection
    (fetchWellnessTopics (JSON.parse (JSString.quoted "{'detail':'Not Found'}")) initial)
  = None.
Proof.
  destruct (topics_answer_is_not_checked
              (JSON.parse (JSString.quoted "{'detail':'Not Found'}")) initial)
    as (_ & _ & _ & _ & _ & _ & H).
  refine (proj2 (H (JObject [("detail", JString "Not Found")]) JUndefined _ _) _ _).
  - vm_compute. reflexivity.
  - reflexivity.
  - intros items. discriminate.
  - reflexivity.
Defined.

End TopicsAnswer.

(** ** What a send leaves behind *)

Section SendFrame.
Import WellnessChat Stream Draft.

Lemma attempt_throws (net : Fetched) (x : Send) : snd (attempt net x) = throws net.
Proof. destruct net as [|[] [chunks fails|[full|]|bursts fails]]; reflexivity. Qed.

Lemma attempt_continues (net : Fetched) (x : Send) : continues (state x) (fst (attempt net x)).
Proof.
  destruct net as [|[] [chunks fails|[full|]|bursts fails]]; cbn [attempt fst];
    try apply continues_refl.
  - apply streamLoop_continues.
  - apply fallback_continues.
  - apply streamBursts_continues.
Qed.

(** X4.  A send of a text that is not blank, whatever the network
    does: the user message holds the text as given, not trimmed, and
    what follows it in the transcript came from the stream; the input is
    empty and the loading flag false when the send ends; the topics are
    untouched; one request is posted, never a second one, and the error
    toast is shown exactly when the attempt throws, in which case no
    draft is left on the screen. *)
Theorem sendMessage_posts_once (text : string) (net : Fetched) (s : State) :
  JSString.isEmpty (JSString.trim text) = false ->
  (exists answers,
      messages (fst (sendMessage (ArgString text) net s))
      = messages s ++ userMessage text :: answers)
  /\ inputMessage (fst (sendMessage (ArgString text) net s)) = EmptyString
  /\ isLoading (fst (sendMessage (ArgString text) net s)) = false
  /\ topics (fst (sendMessage (ArgString text) net s)) = topics s
  /\ effects (fst (sendMessage (ArgString text) net s))
     = effects s ++ FetchChat text false :: (if throws net then [apology] else [])
  /\ (throws net = true -> streamingMessage (fst (sendMessage (ArgString text) net s)) = None).
Proof.
  intros Htext. rewrite (sendMessage_text _ _ _ Htext), attempt_throws.
  destruct (attempt_continues net (sendBegin text s)) as ([more Em] & Ei & _ & Et & Ee).
  cbn [fst].
  change (messages (state (sendBegin text s))) with (messages s ++ [userMessage text]) in Em.
  change (inputMessage (state (sendBegin text s))) with EmptyString in Ei.
  change (topics (state (sendBegin text s))) with (topics s) in Et.
  change (effects (state (sendBegin text s))) with (effects s ++ [FetchChat text false]) in Ee.
  destruct (fst (attempt net (sendBegin text s))) as [m i l t d e].
  cbn [messages inputMessage topics effects] in Em, Ei, Et, Ee. subst m i t e.
  unfold apology.
  destruct (throws net); cbn; rewrite <- !app_assoc; repeat split;
    try discriminate; exists more; reflexivity.
Qed.

Lemma sendMessage_posts_once_witness :
  effects (fst (sendMessage (ArgString " hi ") (Responded true (Readable [] false)) initial))
  = [FetchChat " hi " false].
Proof.
  exact (proj1 (proj2 (proj2 (proj2 (proj2
           (sendMessage_posts_once " hi " (Responded true (Readable [] false)) initial
              eq_refl)))))).
Defined.

End SendFrame.

(** ** The draft along a stream *)

Section DraftGrows.
Import WellnessChat Stream Draft View.

Ltac cases :=
  repeat match goal with
         | |- context [if ?b then _ else _] => destruct b eqn:?
         | |- context [bind ?e _] => destruct e eqn:?; cbn [bind]
         end.

Lemma grows_refl (c : StreamingMessage.t) : grows c c.
Proof.
  unfold grows. repeat split; trivial; exists EmptyString; symmetry; apply append_nil_r.
Qed.

Lemma grows_trans (a b c : StreamingMessage.t) : grows a b -> grows b c -> grows a c.
Proof.
  intros (R1 & [t1 T1] & [c1 C1] & K1) (R2 & [t2 T2] & [c2 C2] & K2).
  unfold grows. repeat split.
  - congruence.
  - exists (t1 ++ t2)%string. rewrite T2, T1. apply append_assoc.
  - exists (c1 ++ c2)%string. rewrite C2, C1. apply append_assoc.
  - auto.
Qed.

Lemma append_grows (s : string) (v : JSValue) (t : string) :
  JS.append s v = Some t -> exists more, t = (s ++ more)%string.
Proof.
  unfold JS.append. destruct (JS.ToString v) as [w|]; [|discriminate].
  intros H. inversion H. exists w. reflexivity.
Qed.

Lemma grows_thinking (c : StreamingMessage.t) (t : string) :
  (exists more, t = (StreamingMessage.thinking c ++ more)%string) ->
  grows c (StreamingMessage.with_thinking t c).
Proof.
  intros H. unfold grows. cbn. repeat split; trivial.
  exists EmptyString. symmetry. apply append_nil_r.
Qed.

Lemma grows_content (c : StreamingMessage.t) (t : string) :
  (exists more, t = (StreamingMessage.content c ++ more)%string) ->
  grows c (StreamingMessage.with_content t c).
Proof.
  intros H. unfold grows. cbn. repeat split; trivial.
  exists EmptyString. symmetry. apply append_nil_r.
Qed.

Lemma grows_complete (c : StreamingMessage.t) :
  grows c (StreamingMessage.with_thinkingComplete true c).
Proof.
  unfold grows. cbn. repeat split; trivial; exists EmptyString; symmetry; apply append_nil_r.
Qed.

Lemma grows_metadata (c : StreamingMessage.t) (s ws wd : JSValue) :
  grows c (StreamingMessage.with_metadata s ws wd c).
Proof.
  unfold grows. cbn. repeat split; trivial; exists EmptyString; symmetry; apply append_nil_r.
Qed.

Lemma streamEvent_grows (data : JSValue) (t t' : Turn) :
  streamEvent data t = Some t' ->
  grows (currentStreamingMsg (send t)) (currentStreamingMsg (send t')).
Proof.
  unfold streamEvent. cases; intros H; inversion H; subst;
    cbn [currentStreamingMsg publish republish enqueue send];
    try apply grows_refl.
  - eapply grows_thinking, append_grows; eassumption.
  - apply grows_complete.
  - eapply grows_content, append_grows; eassumption.
  - apply grows_metadata.
Qed.

Lemma fallbackEvent_grows (data : JSValue) (t t' : Turn) :
  fallbackEvent data t = Some t' ->
  grows (currentStreamingMsg (send t)) (currentStreamingMsg (send t')).
Proof.
  unfold fallbackEvent. cases; intros H; inversion H; subst;
    cbn [currentStreamingMsg publish republish enqueue send];
    try apply grows_refl.
  - eapply grows_thinking, append_grows; eassumption.
  - apply grows_complete.
  - eapply grows_content, append_grows; eassumption.
  - apply grows_metadata.
Qed.

Lemma applyAll_grows (handler : JSValue -> Turn -> option Turn) (events : list JSValue) :
  (forall data t t', handler data t = Some t' ->
                     grows (currentStreamingMsg (send t)) (currentStreamingMsg (send t'))) ->
  forall t,
    grows (currentStreamingMsg (send t)) (currentStreamingMsg (send (applyAll handler events t))).
Proof.
  intros Hh. induction events as [|e es IH]; intros t; [apply grows_refl|].
  change (applyAll handler (e :: es) t) with (applyAll handler es (apply handler e t)).
  eapply grows_trans; [|apply IH]. unfold apply.
  destruct (handler e t) eqn:E; [exact (Hh _ _ _ E)|apply grows_refl].
Qed.

Lemma streamChunk_grows (chunk : string) (x : Send) :
  grows (currentStreamingMsg x) (currentStreamingMsg (streamChunk chunk x)).
Proof.
  rewrite streamChunk_events.
  exact (applyAll_grows streamEvent (textEvents chunk) streamEvent_grows (start x)).
Qed.

Lemma streamLoop_grows (chunks : list string) (x : Send) :
  grows (currentStreamingMsg x) (currentStreamingMsg (streamLoop chunks x)).
Proof.
  revert x. induction chunks as [|c r IH]; intros x; [apply grows_refl|].
  cbn [streamLoop fold_left]. fold (streamLoop r (streamChunk c x)).
  eapply grows_trans; [apply streamChunk_grows|apply IH].
Qed.

Lemma typingDots_gone (c c' : StreamingMessage.t) :
  grows c c' -> typingDots c = false -> typingDots c' = false.
Proof.
  intros (_ & [t T] & [k K] & _). unfold typingDots. rewrite T, K.
  destruct (StreamingMessage.thinking c); [|reflexivity].
  destruct (StreamingMessage.content c); [discriminate|].
  intros _. cbn. apply andb_false_r.
Qed.

(** X5.  Along a stream, read by the streaming loop or by the fallback,
    the draft of a send only grows: its role stays, its thinking and
    its content keep what they had and are only appended to, whatever
    the events carry, and the thinking once complete stays complete.  So
    the typing dots, which show while both texts are empty, do not come
    back once they are gone. *)
Theorem draft_only_grows (x : Send) :
  (forall chunks, grows (currentStreamingMsg x) (currentStreamingMsg (streamLoop chunks x)))
  /\ (forall full, grows (currentStreamingMsg x) (currentStreamingMsg (fallback full x)))
  /\ (typingDots (currentStreamingMsg x) = false ->
      (forall chunks, typingDots (currentStreamingMsg (streamLoop chunks x)) = false)
      /\ (forall full, typingDots (currentStreamingMsg (fallback full x)) = false)).
Proof.
  assert (Hs : forall chunks,
             grows (currentStreamingMsg x) (currentStreamingMsg (streamLoop chunks x))).
  { intros chunks. apply streamLoop_grows. }
  assert (Hf : forall full,
             grows (currentStreamingMsg x) (currentStreamingMsg (fallback full x))).
  { intros full. rewrite fallback_events.
    exact (applyAll_grows fallbackEvent (textEvents full) fallbackEvent_grows (start x)). }
  split; [exact Hs|]. split; [exact Hf|].
  intros Hd. split; intros; eapply typingDots_gone; eauto.
Qed.

Lemma draft_only_grows_witness :
  typingDots
    (currentStreamingMsg
       (streamLoop [dataLine "{'type':'response','content':'Hi'}";
                    dataLine "{'type':'response','content':null}"]
          (mkSend (StreamingMessage.with_thinking "Hm" emptyDraft) initial))) = false.
Proof.
  exact (proj1 (proj2 (proj2
           (draft_only_grows (mkSend (StreamingMessage.with_thinking "Hm" emptyDraft) initial)))
           eq_refl) _).
Defined.

End DraftGrows.

(** ** A stream that ends without [done] *)

Section NoDone.
Import WellnessChat Stream Draft.

Lemma applyAll_keeps_draft (handler : JSValue -> Turn -> option Turn) (events : list JSValue) :
  steady handler ->
  Forall not_done events ->
  forall t,
    streamingMessage (state (send t)) = Some (currentStreamingMsg (send t)) ->
    streamingMessage (state (send (applyAll handler events t)))
    = Some (currentStreamingMsg (send (applyAll handler events t))).
Proof.
  intros Hs. induction 1 as [|e es He _ IH]; intros t Ht; [exact Ht|].
  change (applyAll handler (e :: es) t) with (applyAll handler es (apply handler e t)).
  apply IH.
  destruct (apply_advances handler e t Hs) as [-> | [[_ [cur ->]] | [Hd _]]];
    [exact Ht|reflexivity|].
  unfold not_done, typeOf in He. rewrite Hd in He. discriminate.
Qed.

(** X6.  A stream that ends, unbroken, without a [done] event leaves
    the answer out of the transcript: the send ends with the user
    message as its only new entry, no toast, the loading flag false,
    and the draft, with all the text that came, still on the screen.
    The same holds of the fallback.  The next send puts its empty draft
    in that place, and the text is gone. *)
Theorem stream_without_done_is_lost (text : string) (s : State) :
  JSString.isEmpty (JSString.trim text) = false ->
  (forall chunks,
      Forall not_done (received chunks) ->
      fst (sendMessage (ArgString text) (Responded true (Readable chunks false)) s)
      = mkState (messages s ++ [userMessage text]) EmptyString false (topics s)
          (Some (currentStreamingMsg (streamLoop chunks (sendBegin text s))))
          (effects s ++ [FetchChat text false]))
  /\ (forall full,
         Forall not_done (textEvents full) ->
         fst (sendMessage (ArgString text) (Responded true (Unreadable (Some full))) s)
         = mkState (messages s ++ [userMessage text]) EmptyString false (topics s)
             (Some (currentStreamingMsg (fallback full (sendBegin text s))))
             (effects s ++ [FetchChat text false]))
  /\ (forall chunks next,
         Forall not_done (received chunks) ->
         messages (state (sendBegin next
           (fst (sendMessage (ArgString text) (Responded true (Readable chunks false)) s))))
         = messages s ++ [userMessage text; userMessage next]
         /\ streamingMessage (state (sendBegin next
              (fst (sendMessage (ArgString text) (Responded true (Readable chunks false)) s))))
            = Some emptyDraft).
Proof.
  intros Htext.
  assert (Hend : forall x : Send,
             continues (state (sendBegin text s)) (state x) ->
             messages (state x) = messages (state (sendBegin text s)) ->
             streamingMessage (state x) = Some (currentStreamingMsg x) ->
             sendFinally (state x)
             = mkState (messages s ++ [userMessage text]) EmptyString false (topics s)
                 (Some (currentStreamingMsg x)) (effects s ++ [FetchChat text false])).
  { intros [cur [m i l t d e]] (_ & Ei & _ & Et & Ee) Em Ed.
    unfold sendFinally, setIsLoading.
    cbn [state currentStreamingMsg messages inputMessage isLoading topics streamingMessage
         effects] in *.
    rewrite Em, Ei, Et, Ee, Ed. reflexivity. }
  assert (Hchunks : forall chunks,
             Forall not_done (received chunks) ->
             fst (sendMessage (ArgString text) (Responded true (Readable chunks false)) s)
             = mkState (messages s ++ [userMessage text]) EmptyString false (topics s)
                 (Some (currentStreamingMsg (streamLoop chunks (sendBegin text s))))
                 (effects s ++ [FetchChat text false])).
  { intros chunks Hn. rewrite (sendMessage_text _ _ _ Htext). cbn [attempt fst snd].
    destruct (streamLoop_without_done chunks (sendBegin text s) Hn) as [E Em].
    apply Hend; [apply streamLoop_continues|exact Em|].
    rewrite E. apply (applyAll_keeps_draft streamEvent _ streamEvent_advances Hn). reflexivity. }
  split; [exact Hchunks|]. split.
  - intros full Hn. rewrite (sendMessage_text _ _ _ Htext). cbn [attempt fst snd].
    destruct (fallback_without_done full (sendBegin text s) Hn) as [E Em].
    apply Hend; [apply fallback_continues|exact Em|].
    rewrite E. apply (applyAll_keeps_draft fallbackEvent _ fallbackEvent_advances Hn). reflexivity.
  - intros chunks next Hn. rewrite (Hchunks chunks Hn).
    generalize (Some (currentStreamingMsg (streamLoop chunks (sendBegin text s)))).
    intros d. split; [|reflexivity].
    change (messages (state (sendBegin next ?st))) with (messages st ++ [userMessage next]).
    cbn [messages]. rewrite <- app_assoc. reflexivity.
Qed.

Lemma stream_without_done_is_lost_witness :
  fst (sendMessage (ArgString "Hello")
         (Responded true (Readable [dataLine "{'type':'response','content':'Hi'}"] false))
         initial)
  = mkState [userMessage "Hello"] EmptyString false (JArray [])
      (Some (StreamingMessage.with_content "Hi" emptyDraft))
      [FetchChat "Hello" false].
Proof.
  refine (proj1 (stream_without_done_is_lost "Hello" initial eq_refl)
            [dataLine "{'type':'response','content':'Hi'}"] _).
  vm_compute. repeat constructor.
Defined.

End NoDone.

(** ** Events no branch writes for *)

Section Ignored.
Import WellnessChat Stream Draft.

Lemma acts_false (data : JSValue) :
  acts (typeOf data) = false ->
  forall type, JS.Get data "type" = Some type ->
    JS.is_string type "thinking" = false
    /\ JS.is_string type "thinking_end" = false
    /\ JS.is_string type "response" = false
    /\ JS.is_string type "metadata" = false
    /\ JS.is_string type "done" = false.
Proof.
  intros H type Ht. unfold acts, typeOf in H. rewrite Ht in H.
  repeat (apply orb_false_iff in H as [H ?]). auto.
Qed.

Lemma streamEvent_ignores (data : JSValue) (t : Turn) :
  acts (typeOf data) = false -> apply streamEvent data t = t.
Proof.
  intros H. unfold apply, streamEvent.
  destruct (JS.Get data "type") as [type|] eqn:Ht; [|reflexivity]. cbn [bind].
  destruct (acts_false data H type Ht) as (H1 & H2 & H3 & H4 & H5).
  destruct (JS.Get data "content") as [c|]; [|reflexivity]. cbn [bind].
  destruct (content_preview c); [|reflexivity]. cbn [bind].
  rewrite H1, H2, H3, H4, H5.
  repeat match goal with |- context [if ?b then _ else _] => destruct b end; reflexivity.
Qed.

Lemma fallbackEvent_ignores (data : JSValue) (t : Turn) :
  acts (typeOf data) = false -> apply fallbackEvent data t = t.
Proof.
  intros H. unfold apply, fallbackEvent.
  destruct (JS.Get data "type") as [type|] eqn:Ht; [|reflexivity]. cbn [bind].
  destruct (acts_false data H type Ht) as (H1 & H2 & H3 & H4 & H5).
  rewrite H1, H2, H3, H4, H5. reflexivity.
Qed.

Lemma applyAll_ignores (handler : JSValue -> Turn -> option Turn) (events : list JSValue) :
  (forall data t, acts (typeOf data) = false -> apply handler data t = t) ->
  Forall (fun data => acts (typeOf data) = false) events ->
  forall t, applyAll handler events t = t.
Proof.
  intros Hh. induction 1 as [|e es He _ IH]; intros t; [reflexivity|].
  change (applyAll handler (e :: es) t) with (applyAll handler es (apply handler e t)).
  rewrite (Hh e t He). apply IH.
Qed.

Lemma streamLoop_ignores (chunks : list string) (x : Send) :
  Forall (fun data => acts (typeOf data) = false) (received chunks) ->
  streamLoop chunks x = x.
Proof.
  induction chunks as [|c r IH]; intros H; [reflexivity|].
  change (received (c :: r)) with (textEvents c ++ received r) in H.
  apply Forall_app in H as [Hc Hr].
  cbn [streamLoop fold_left]. fold (streamLoop r (streamChunk c x)).
  rewrite streamChunk_events, (applyAll_ignores streamEvent _ streamEvent_ignores Hc),
    commit_start.
  exact (IH Hr).
Qed.

(** X7.  Only five kinds of event write: [thinking], [thinking_end],
    [response], [metadata] and [done].  A payload of any other type, a
    marker such as [response_start], a type the frontend does not know,
    a payload with no type or one that is no object at all, changes
    neither the draft nor the screen, in the streaming loop and in the
    fallback, whatever the run has done before; a stream made of such
    events only leaves the send where it was. *)
Theorem other_events_are_ignored (x : Send) :
  (forall data t,
      acts (typeOf data) = false ->
      apply streamEvent data t = t /\ apply fallbackEvent data t = t)
  /\ (forall chunks,
         Forall (fun data => acts (typeOf data) = false) (received chunks) ->
         streamLoop chunks x = x)
  /\ (forall full,
         Forall (fun data => acts (typeOf data) = false) (textEvents full) ->
         fallback full x = x).
Proof.
  split; [|split].
  - intros data t H. split; [apply streamEvent_ignores|apply fallbackEvent_ignores]; exact H.
  - intros chunks H. apply streamLoop_ignores, H.
  - intros full H. rewrite fallback_events.
    rewrite (applyAll_ignores fallbackEvent _ fallbackEvent_ignores H). apply commit_start.
Qed.

Lemma other_events_are_ignored_witness :
  streamLoop [dataLines ["{'type':'response_start'}"; "{'type':'ping','content':7}"; "null";
                         "[1,2]"; "{'content':'no type'}"]]
    (sendBegin "Hello" initial)
  = sendBegin "Hello" initial.
Proof.
  refine (proj1 (proj2 (other_events_are_ignored (sendBegin "Hello" initial))) _ _).
  vm_compute. repeat constructor.
Defined.

End Ignored.

(** ** Sends in flight and the one screen they share *)

Section InFlight.
Import WellnessChat Stream EventLoop Draft View.

Lemma nth_error_update (l : list InFlight) (n : nat) (f g : InFlight) :
  nth_error l n = Some g -> nth_error (update n f l) n = Some f.
Proof.
  revert n. induction l as [|a l IH]; intros [|n] H; try discriminate; [reflexivity|].
  cbn. apply IH, H.
Qed.

Lemma nth_error_update_other (l : list InFlight) (n m : nat) (f : InFlight) :
  n <> m -> nth_error (update n f l) m = nth_error l m.
Proof.
  revert n m. induction l as [|a l IH]; intros [|n] [|m] H; try reflexivity; try congruence.
  cbn. apply IH. congruence.
Qed.

Lemma streamChunk_deltaChunk (ds : list Delta) (cur : StreamingMessage.t) (s : State) :
  streamChunk (deltaChunk ds) (mkSend cur s)
  = mkSend (accumulate ds cur)
      match ds with
      | [] => s
      | _ => setStreamingMessage (Some (accumulate ds cur)) s
      end.
Proof.
  rewrite streamChunk_events, textEvents_deltaChunk.
  rewrite (run_quiet streamEvent _ streamEvent_advances streamEvent_uniform).
  - destruct (settleAll_deltas ds _ (mkSend cur s) (carries_deltaValue ds)) as [Ec Es].
    rewrite <- (Send_eta (settleAll _ _ _)), Ec, Es. reflexivity.
  - rewrite <- (app_nil_r (map deltaValue ds)).
    rewrite (quiet_without_done _ _ (deltas_without_done _ _ (carries_deltaValue ds))).
    reflexivity.
Qed.

Lemma streamChunk_doneChunk (x : Send) :
  streamChunk doneChunk x
  = mkSend (currentStreamingMsg x)
      (setStreamingMessage None
         (setMessages (fun prev => prev ++ [finalize (currentStreamingMsg x)]) (state x))).
Proof.
  rewrite streamChunk_events.
  change (textEvents doneChunk) with [doneValue].
  apply (settle_done doneValue x). split; reflexivity.
Qed.

(** X8.  The clear button does not stop a send in flight.  The draft
    of the send keeps the text that came before the click; the next
    delta puts the whole of it back on the screen, and a [done] event
    appends the finished answer to the transcript that was emptied,
    where it stands without its question. *)
Theorem clear_does_not_cancel
    (p : Page) (n : nat) (cur : StreamingMessage.t) (ds : list Delta) :
  nth_error (sends p) n = Some (mkInFlight cur AwaitRead) ->
  (ds <> [] ->
   streamingMessage
     (component (run [ClearButton; ReadSettles n (Chunk (deltaChunk ds))] p))
   = Some (accumulate ds cur))
  /\ messages
       (component (run [ClearButton; ReadSettles n (Chunk (deltaChunk ds))] p)) = []
  /\ messages
       (component (run [ClearButton; ReadSettles n (Chunk (deltaChunk ds));
                        ReadSettles n (Chunk doneChunk)] p))
     = [finalize (accumulate ds cur)]
  /\ streamingMessage
       (component (run [ClearButton; ReadSettles n (Chunk (deltaChunk ds));
                        ReadSettles n (Chunk doneChunk)] p))
     = None.
Proof.
  intros Hn. cbn [run fold_left].
  assert (E1 : step (ReadSettles n (Chunk (deltaChunk ds))) (step ClearButton p)
               = mkPage match ds with
                        | [] => clearChat (component p)
                        | _ => setStreamingMessage (Some (accumulate ds cur))
                                 (clearChat (component p))
                        end
                   (update n (mkInFlight (accumulate ds cur) AwaitRead) (sends p))).
  { cbn [step sends component]. rewrite Hn, streamChunk_deltaChunk. reflexivity. }
  rewrite E1. split; [|split; [|split]].
  - intros Hds. destruct ds; [congruence|reflexivity].
  - destruct ds; reflexivity.
  - cbn [step sends component]. rewrite (nth_error_update _ _ _ _ Hn), streamChunk_doneChunk.
    destruct ds; reflexivity.
  - cbn [step sends component]. rewrite (nth_error_update _ _ _ _ Hn), streamChunk_doneChunk.
    reflexivity.
Qed.

Lemma clear_does_not_cancel_witness :
  messages
    (component
       (run [ClearButton; ReadSettles 0 (Chunk (deltaChunk [Response " world"]));
             ReadSettles 0 (Chunk doneChunk)]
          (mkPage (mkState [userMessage "Hi"] EmptyString true (JArray [])
                     (Some (StreamingMessage.with_content "Hello" emptyDraft)) [])
             [mkInFlight (StreamingMessage.with_content "Hello" emptyDraft) AwaitRead])))
  = [Message.make "assistant" "Hello world" JNull JNull JNull (JBool false)].
Proof.
  exact (proj1 (proj2 (proj2
           (clear_does_not_cancel
              (mkPage (mkState [userMessage "Hi"] EmptyString true (JArray [])
                         (Some (StreamingMessage.with_content "Hello" emptyDraft)) [])
                 [mkInFlight (StreamingMessage.with_content "Hello" emptyDraft) AwaitRead])
              0 (StreamingMessage.with_content "Hello" emptyDraft) [Response " world"]
              eq_refl)))).
Defined.

Lemma topic_question_not_blank (key q : string) :
  assoc topicQuestions key = Some q -> JSString.isEmpty (JSString.trim q) = false.
Proof.
  unfold topicQuestions. cbn [assoc].
  repeat match goal with
         | |- context [String.eqb ?k key] =>
             destruct (String.eqb k key);
             [intros H; inversion H; subst q; vm_compute; reflexivity|]
         end.
  discriminate.
Qed.

(** X9.  The topic cards are not held back while a send is in flight.
    The welcome section shows whenever the transcript is empty and no
    draft is published, so the clear button brings it back whatever is
    loading; a click on the card of a topic of the table then starts a
    second send beside the first: its question is the one entry of the
    transcript, its request is posted, and its empty draft takes the
    place on the screen. *)
Theorem topic_card_sends_while_loading
    (p : Page) (topic id : JSValue) (key q : string) :
  JS.Get topic "id" = Some id ->
  JS.ToString id = Some key ->
  assoc topicQuestions key = Some q ->
  showsWelcome (component (step ClearButton p)) = true
  /\ isLoading (component (step ClearButton p)) = isLoading (component p)
  /\ sends (run [ClearButton; TopicCard topic] p)
     = sends p ++ [mkInFlight emptyDraft AwaitFetch]
  /\ messages (component (run [ClearButton; TopicCard topic] p)) = [userMessage q]
  /\ streamingMessage (component (run [ClearButton; TopicCard topic] p)) = Some emptyDraft
  /\ effects (component (run [ClearButton; TopicCard topic] p))
     = effects (component p) ++ [ToastSuccess "Conversation cleared"; FetchChat q false].
Proof.
  intros Hid Hkey Hq. split; [reflexivity|]. split; [reflexivity|].
  cbn [run fold_left]. cbn [step]. rewrite Hid, Hkey.
  unfold lookupQuestion. rewrite Hq. unfold sendStart.
  rewrite (topic_question_not_blank key q Hq).
  destruct p as [[m i l t d e] ss].
  cbn [sends component step clearChat perform setStreamingMessage setMessages sendBegin state
       setIsLoading setInputMessage messages inputMessage isLoading topics streamingMessage
       effects].
  rewrite <- app_assoc. repeat split.
Qed.

Lemma topic_card_sends_while_loading_witness :
  sends (run [ClearButton; TopicCard (JObject [("id", JString "sleep")])]
           (mkPage (mkState [userMessage "Hi"] EmptyString true (JArray [])
                      (Some emptyDraft) [FetchChat "Hi" false])
              [mkInFlight emptyDraft AwaitRead]))
  = [mkInFlight emptyDraft AwaitRead; mkInFlight emptyDraft AwaitFetch].
Proof.
  exact (proj1 (proj2 (proj2
           (topic_card_sends_while_loading
              (mkPage (mkState [userMessage "Hi"] EmptyString true (JArray [])
                         (Some emptyDraft) [FetchChat "Hi" false])
                 [mkInFlight emptyDraft AwaitRead])
              (JObject [("id", JString "sleep")]) (JString "sleep") "sleep"
              "What are good sleep hygiene practices?" eq_refl eq_refl eq_refl)))).
Defined.

(** X10.  The sends in flight share the one published draft and the
    one loading flag.  A delta that reaches a send puts the draft of
    that send on the screen, whatever another send had published there;
    a [done] event of a send takes the published draft away, whose ever
    it was; and when a send ends the loading flag goes false, which
    enables the input again, although the other send still runs. *)
Theorem sends_share_one_screen
    (p : Page) (n m : nat) (cur other : StreamingMessage.t) (a : Await) (ds : list Delta) :
  nth_error (sends p) n = Some (mkInFlight cur AwaitRead) ->
  nth_error (sends p) m = Some (mkInFlight other a) ->
  n <> m ->
  (ds <> [] ->
   streamingMessage (component (step (ReadSettles n (Chunk (deltaChunk ds))) p))
   = Some (accumulate ds cur))
  /\ streamingMessage (component (step (ReadSettles n (Chunk doneChunk)) p)) = None
  /\ inputDisabled (component (step (ReadSettles n Closed) p)) = false
  /\ (forall r, nth_error (sends (step (ReadSettles n r) p)) m = Some (mkInFlight other a)).
Proof.
  intros Hn Hm Hne. split; [|split; [|split]].
  - intros Hds. cbn [step]. rewrite Hn, streamChunk_deltaChunk.
    destruct ds; [congruence|reflexivity].
  - cbn [step]. rewrite Hn, streamChunk_doneChunk. reflexivity.
  - cbn [step]. rewrite Hn. reflexivity.
  - intros r. cbn [step]. rewrite Hn.
    destruct r; unfold finish, resume; cbn [sends];
      rewrite (nth_error_update_other _ _ _ _ Hne); exact Hm.
Qed.

Lemma sends_share_one_screen_witness :
  streamingMessage
    (component
       (step (ReadSettles 0 (Chunk (deltaChunk [Response "first"])))
          (mkPage (mkState [] EmptyString true (JArray [])
                     (Some (StreamingMessage.with_content "second" emptyDraft)) [])
             [mkInFlight emptyDraft AwaitRead;
              mkInFlight (StreamingMessage.with_content "second" emptyDraft) AwaitRead])))
  = Some (StreamingMessage.with_content "first" emptyDraft).
Proof.
  refine (proj1 (sends_share_one_screen
            (mkPage (mkState [] EmptyString true (JArray [])
                       (Some (StreamingMessage.with_content "second" emptyDraft)) [])
               [mkInFlight emptyDraft AwaitRead;
                mkInFlight (StreamingMessage.with_content "second" emptyDraft) AwaitRead])
            0 1 emptyDraft (StreamingMessage.with_content "second" emptyDraft) AwaitRead
            [Response "first"] eq_refl eq_refl _) _); discriminate.
Defined.

End InFlight.

(** ** Sending twice, and what was posted *)

Section Session.
Import WellnessChat Stream EventLoop Draft View.

Lemma sendStart_input (p : Page) :
  sendStart ArgUndefined p = p
  \/ inputMessage (component (sendStart ArgUndefined p)) = EmptyString.
Proof.
  unfold sendStart.
  destruct (JSString.isEmpty (JSString.trim (inputMessage (component p)))); [left|right];
    reflexivity.
Qed.

Lemma sendStart_twice (p : Page) :
  sendStart ArgUndefined (sendStart ArgUndefined p) = sendStart ArgUndefined p.
Proof.
  unfold sendStart at 2 3.
  destruct (JSString.isEmpty (JSString.trim (inputMessage (component p)))) eqn:E.
  - unfold sendStart. rewrite E. reflexivity.
  - reflexivity.
Qed.

Lemma sendMessage_input (net : Fetched) (s : State) :
  (forall net', fst (sendMessage ArgUndefined net' s) = s)
  \/ inputMessage (fst (sendMessage ArgUndefined net s)) = EmptyString.
Proof.
  unfold sendMessage.
  destruct (JSString.isEmpty (JSString.trim (inputMessage s))) eqn:E; [left; reflexivity|].
  right. pose proof (attempt_continues net (sendBegin (inputMessage s) s)) as (_ & Ei & _).
  destruct (attempt net (sendBegin (inputMessage s) s)) as [s' []]; cbn [fst] in *;
    setters; exact Ei.
Qed.

(** X11.  Sending twice sends once.  The send button and the Enter key
    take the text of the input, which a send empties as it starts: a
    second click or key press that follows, before or after the answer,
    finds blank text and does nothing, with no help from the disabled
    state of the button.  Enter with Shift, and every other key, does
    nothing at all. *)
Theorem second_send_does_nothing (p : Page) :
  (forall e1 e2,
      (e1 = SendButton \/ e1 = Key "Enter" false) ->
      (e2 = SendButton \/ e2 = Key "Enter" false) ->
      run [e1; e2] p = step e1 p)
  /\ (forall net net',
         fst (sendMessage ArgUndefined net' (fst (sendMessage ArgUndefined net (component p))))
         = fst (sendMessage ArgUndefined net (component p)))
  /\ (forall key shiftKey,
         key <> "Enter" \/ shiftKey = true -> step (Key key shiftKey) p = p).
Proof.
  split; [|split].
  - intros e1 e2 [-> | ->] [-> | ->]; cbn [run fold_left step String.eqb Ascii.eqb Bool.eqb
                                             andb negb];
      apply sendStart_twice.
  - intros net net'.
    destruct (sendMessage_input net (component p)) as [E | E].
    + rewrite !E. reflexivity.
    + unfold sendMessage at 1. rewrite E. reflexivity.
  - intros key shiftKey H. cbn [step].
    destruct H as [H | ->].
    + destruct (String.eqb_spec key "Enter"); [contradiction|reflexivity].
    + rewrite andb_false_r. reflexivity.
Qed.

Lemma second_send_does_nothing_witness :
  run [SendButton; Key "Enter" false] (mkPage (setInputMessage "Hello" initial) [])
  = step SendButton (mkPage (setInputMessage "Hello" initial) []).
Proof.
  exact (proj1 (second_send_does_nothing (mkPage (setInputMessage "Hello" initial) []))
           SendButton (Key "Enter" false) (or_introl eq_refl) (or_intror eq_refl)).
Defined.

Lemma questions_app (a b : list Message.t) : questions (a ++ b) = questions a ++ questions b.
Proof. apply flat_map_app. Qed.

Lemma posted_app (a b : list Effect) : posted (a ++ b) = posted a ++ posted b.
Proof. apply flat_map_app. Qed.

Lemma questions_answers (cur : StreamingMessage.t) (k : nat) :
  questions (repeat (finalize cur) k) = [].
Proof. induction k as [|k IH]; [reflexivity|exact IH]. Qed.

(** A run adds answers, not questions, and posts nothing. *)
Lemma run_questions (handler : JSValue -> Turn -> option Turn) (events : list JSValue)
    (x : Send) :
  steady handler ->
  questions (messages (state (commit (applyAll handler events (start x)))))
  = questions (messages (state x))
  /\ effects (state (commit (applyAll handler events (start x)))) = effects (state x).
Proof.
  intros Hs.
  destruct (applyAll_frame handler events Hs (start x)) as (Em & _ & _ & _ & Ee & _).
  rewrite messages_commit, questions_app, questions_answers, app_nil_r, Em.
  split; [reflexivity|exact Ee].
Qed.

Lemma sendStart_posts (arg : Arg) (p : Page) (before : list string) :
  posted (effects (component p)) = before ++ questions (messages (component p)) ->
  posted (effects (component (sendStart arg p)))
  = before ++ questions (messages (component (sendStart arg p))).
Proof.
  intros H. unfold sendStart.
  destruct (match arg with ArgUndefined => ArgString (inputMessage (component p)) | _ => arg end)
    as [|text|]; try exact H.
  destruct (JSString.isEmpty (JSString.trim text)); [exact H|].
  cbn [component]. setters. rewrite posted_app, questions_app, H, <- app_assoc. reflexivity.
Qed.

Lemma finish_posts (n : nat) (cur : StreamingMessage.t) (thrown : bool) (s : State) (p : Page) :
  posted (effects (component (finish n cur thrown s p))) = posted (effects s)
  /\ messages (component (finish n cur thrown s p)) = messages s.
Proof.
  destruct thrown; cbn [finish resume component]; setters; [|auto].
  rewrite posted_app. cbn. rewrite app_nil_r. auto.
Qed.

Lemma step_posts (e : Event) (p : Page) (before : list string) :
  is_clear e = false ->
  posted (effects (component p)) = before ++ questions (messages (component p)) ->
  posted (effects (component (step e p)))
  = before ++ questions (messages (component (step e p))).
Proof.
  intros Hc H. destruct e as [v|k sh| |topic| |data|n a|n r|n full]; cbn [step];
    try discriminate; try (apply sendStart_posts; exact H).
  - exact H.
  - destruct (String.eqb k "Enter" && negb sh)%bool; [apply sendStart_posts|]; exact H.
  - destruct (JS.Get topic "id") as [id|]; [|exact H].
    destruct (JS.ToString id); [apply sendStart_posts|]; exact H.
  - cbn [component]. unfold fetchWellnessTopics.
    destruct data as [d|]; [destruct (JS.Get d "topics")|]; setters;
      rewrite posted_app, H; cbn; rewrite app_nil_r; reflexivity.
  - destruct (nth_error (sends p) n) as [[cur []]|]; try exact H.
    destruct a as [[[] []]|];
      try (destruct (finish_posts n cur true (component p) p) as [-> ->]; exact H);
      exact H.
  - destruct (nth_error (sends p) n) as [[cur []]|]; try exact H.
    destruct r as [text| | |texts].
    + cbn [resume component]. rewrite streamChunk_events.
      destruct (run_questions streamEvent (textEvents text) (mkSend cur (component p))
                  streamEvent_advances) as [-> ->].
      exact H.
    + destruct (finish_posts n cur false (component p) p) as [-> ->]. exact H.
    + destruct (finish_posts n cur true (component p) p) as [-> ->]. exact H.
    + cbn [resume component]. rewrite streamReads_events.
      destruct (run_questions streamEvent (received texts) (mkSend cur (component p))
                  streamEvent_advances) as [-> ->].
      exact H.
  - destruct (nth_error (sends p) n) as [[cur []]|]; try exact H.
    destruct full as [text|].
    + match goal with
      | |- context [finish n ?c ?t ?s p] => destruct (finish_posts n c t s p) as [-> ->]
      end.
      rewrite fallback_events.
      destruct (run_questions fallbackEvent (textEvents text) (mkSend cur (component p))
                  fallbackEvent_advances) as [-> ->].
      exact H.
    + destruct (finish_posts n cur true (component p) p) as [-> ->]. exact H.
Qed.

Lemma run_posts (events : list Event) :
  forall (p : Page) (before : list string),
    posted (effects (component p)) = before ++ questions (messages (component p)) ->
    (exists before',
        posted (effects (component (run events p)))
        = before' ++ questions (messages (component (run events p))))
    /\ (existsb is_clear events = false ->
        posted (effects (component (run events p)))
        = before ++ questions (messages (component (run events p)))).
Proof.
  induction events as [|e es IH]; intros p before H.
  - split; [exists before|intros _]; exact H.
  - cbn [run fold_left existsb]. fold (run es (step e p)).
    destruct (is_clear e) eqn:Ec.
    + destruct e; try discriminate.
      destruct (IH (step ClearButton p) (posted (effects (component p)))) as [H1 _].
      { cbn [step component]. setters. rewrite posted_app. cbn. reflexivity. }
      split; [exact H1|discriminate].
    + apply (IH (step e p) before), step_posts; assumption.
Qed.

(** X12.  Every question on the screen was posted.  However the page
    is used from its mount on, whatever the network answers and in
    whatever order, the user messages of the transcript are, in order,
    the texts of the last requests posted to the backend, and, until
    the clear button is first used, of all of them: a request and its
    user message come together, and nothing else adds either. *)
Theorem every_question_was_posted (events : list Event) :
  (exists before,
      posted (effects (component (run events initialPage)))
      = before ++ questions (messages (component (run events initialPage))))
  /\ (existsb is_clear events = false ->
      posted (effects (component (run events initialPage)))
      = questions (messages (component (run events initialPage)))).
Proof. exact (run_posts events initialPage [] eq_refl). Qed.

Lemma every_question_was_posted_witness :
  posted (effects (component
    (run [Input "Hi"; SendButton; FetchSettles 0 (Some (true, true));
          ReadSettles 0 (Chunk (deltaChunk [Response "Hello"]));
          TopicCard (JObject [("id", JString "sleep")]);
          ReadSettles 0 (Chunk doneChunk)] initialPage)))
  = questions (messages (component
    (run [Input "Hi"; SendButton; FetchSettles 0 (Some (true, true));
          ReadSettles 0 (Chunk (deltaChunk [Response "Hello"]));
          TopicCard (JObject [("id", JString "sleep")]);
          ReadSettles 0 (Chunk doneChunk)] initialPage))).
Proof.
  exact (proj2 (every_question_was_posted
                  [Input "Hi"; SendButton; FetchSettles 0 (Some (true, true));
                   ReadSettles 0 (Chunk (deltaChunk [Response "Hello"]));
                   TopicCard (JObject [("id", JString "sleep")]);
                   ReadSettles 0 (Chunk doneChunk)]) eq_refl).
Defined.

End Session.

(** ** The static chat shell, run *)

Section ShellRuns.
Import ChatShell ShellRun.

Lemma filter_split_length {A : Type} (f : A -> bool) (l : list A) :
  length (filter f l) + length (filter (fun x => negb (f x)) l) = length l.
Proof.
  induction l as [|a l IH]; [reflexivity|]. cbn. destruct (f a); cbn; lia.
Qed.

Lemma run_snoc (actions : list Action) (a : Action) (s : State) :
  run (actions ++ [a]) s = act a (run actions s).
Proof. unfold run. rewrite fold_left_app. reflexivity. Qed.

Lemma filter_replies (l : list (Z * Msg)) :
  Forall (fun tm => snd tm = reply) l -> filter onTheRight (map snd l) = [].
Proof.
  induction 1 as [|tm l H _ IH]; [reflexivity|]. cbn. rewrite H. exact IH.
Qed.

(** X13.  The shell loses no message and invents none.  After any
    sequence of sends and waits from the mount on: every message of the
    transcript is of type [text], which [renderMessageContent] shows as
    a bubble with its text; the messages on the right are, in order, the
    texts of the sends that were taken up, as typed; every other message
    and every pending timer is the canned reply; and messages and
    pending timers together are two for every send taken up, a reply
    being either shown or still due. *)
Theorem shell_loses_nothing (actions : list Action) :
  Forall (fun m => renderMessageContent m = Some (text m)) (messages (run actions initial))
  /\ map text (filter onTheRight (messages (run actions initial))) = sent actions
  /\ Forall (fun m => onTheRight m = false -> m = reply) (messages (run actions initial))
  /\ Forall (fun tm => snd tm = reply) (timers (run actions initial))
  /\ length (messages (run actions initial)) + length (timers (run actions initial))
     = 2 * length (sent actions).
Proof.
  induction actions as [|a actions (Hr & Hs & Ho & Ht & Hl)] using rev_ind.
  - repeat split; constructor.
  - rewrite run_snoc. unfold sent in *. rewrite flat_map_app. cbn [flat_map].
    rewrite length_app, app_nil_r.
    destruct a as [type val|dt]; cbn [act].
    + unfold handleSend. cbn [accepted].
      destruct (String.eqb type "text" && negb (JSString.isEmpty (JSString.trim val)))%bool.
      * cbn [setTimeout appendMsg messages timers now].
        rewrite filter_app, map_app, Hs, !length_app. cbn.
        repeat split; try lia.
        -- apply Forall_app. split; [exact Hr|repeat constructor].
        -- apply Forall_app. split; [exact Ho|]. repeat constructor. discriminate.
        -- apply Forall_app. split; [exact Ht|repeat constructor].
      * rewrite app_nil_r. cbn. repeat split; try assumption; lia.
    + unfold elapse. cbn [messages timers].
      set (f := fun tm : Z * Msg => (fst tm <=? now (run actions initial) + dt)%Z).
      assert (Hdue : Forall (fun tm => snd tm = reply) (filter f (timers (run actions initial)))).
      { apply Forall_forall. intros tm Hin. apply filter_In in Hin as [Hin _].
        exact (proj1 (Forall_forall _ _) Ht tm Hin). }
      rewrite filter_app, map_app, (filter_replies _ Hdue), !app_nil_r, length_app, length_map.
      pose proof (filter_split_length f (timers (run actions initial))) as Hf.
      repeat split.
      * apply Forall_app. split; [exact Hr|].
        apply Forall_forall. intros m Hin. apply in_map_iff in Hin as (tm & <- & Hin).
        rewrite (proj1 (Forall_forall _ _) Hdue tm Hin). reflexivity.
      * exact Hs.
      * apply Forall_app. split; [exact Ho|].
        apply Forall_forall. intros m Hin. apply in_map_iff in Hin as (tm & <- & Hin).
        intros _. exact (proj1 (Forall_forall _ _) Hdue tm Hin).
      * apply Forall_forall. intros tm Hin. apply filter_In in Hin as [Hin _].
        exact (proj1 (Forall_forall _ _) Ht tm Hin).
      * change (fun tm : Z * Msg => negb (fst tm <=? now (run actions initial) + dt)%Z)
          with (fun x : Z * Msg => negb (f x)).
        cbn [length]. lia.
Qed.

Lemma shell_loses_nothing_witness :
  map text
    (filter onTheRight
       (messages (run [Send "text" " hi "; Wait 1000; Send "image" "x"; Send "text" "bye"]
                    initial)))
  = [" hi "; "bye"].
Proof.
  exact (proj1 (proj2 (shell_loses_nothing
                         [Send "text" " hi "; Wait 1000; Send "image" "x"; Send "text" "bye"]))).
Defined.

End ShellRuns.

(** ** Chunk boundaries and line ends *)

Section Chunking.
Import WellnessChat Stream Draft.

(** X14.  Where the chunks end, and when React renders, does not
    matter as long as the chunks end at line ends and no event that
    writes to the draft follows a [done] event: two ways of cutting the
    same payload into chunks, each chunk but the last made of whole
    lines, give the same send, state and completion, whether the stream
    then ends or fails, and so do the reads of one of them taken in
    bursts. *)
Theorem chunking_at_line_ends_is_immaterial
    (chunks chunks' : list string) (arg : Arg) (fails : bool) (s : State) :
  line_aligned chunks = true ->
  line_aligned chunks' = true ->
  wholeText chunks = wholeText chunks' ->
  quiet (received chunks) = true ->
  sendMessage arg (Responded true (Readable chunks fails)) s
  = sendMessage arg (Responded true (Readable chunks' fails)) s
  /\ (forall bursts,
         concat bursts = chunks' ->
         sendMessage arg (Responded true (Readable chunks fails)) s
         = sendMessage arg (Responded true (Bursts bursts fails)) s).
Proof.
  intros Ha Ha' Hw Hq.
  assert (E : received chunks' = received chunks)
    by (rewrite <- (textEvents_wholeText _ Ha), <- (textEvents_wholeText _ Ha'), Hw;
        reflexivity).
  split; [|intros bursts Hb]; unfold sendMessage;
    (destruct (match arg with ArgUndefined => ArgString (inputMessage s) | _ => arg end)
      as [|text|]; try reflexivity);
    (destruct (JSString.isEmpty (JSString.trim text)); [reflexivity|]);
    cbn [attempt].
  - rewrite (streamLoop_quiet _ Hq), streamLoop_quiet by (rewrite E; exact Hq).
    rewrite E. reflexivity.
  - rewrite (streamLoop_quiet _ Hq), streamBursts_quiet by (rewrite Hb, E; exact Hq).
    rewrite Hb, E. reflexivity.
Qed.

Lemma chunking_at_line_ends_is_immaterial_witness :
  sendMessage (ArgString "Hello")
    (Responded true
       (Readable [dataLines ["{'type':'response','content':'Hi'}"];
                  dataLines ["{'type':'response','content':' there'}"; "{'type':'done'}"]]
          false)) initial
  = sendMessage (ArgString "Hello")
      (Responded true
         (Readable [dataLines ["{'type':'response','content':'Hi'}";
                               "{'type':'response','content':' there'}"];
                    dataLines ["{'type':'done'}"]]
            false)) initial.
Proof.
  apply chunking_at_line_ends_is_immaterial; reflexivity.
Defined.

Lemma closedByCR_cons (l : string) (r : list string) :
  r <> [] -> closedByCR (l :: r) = (l ++ String JSString.CR EmptyString)%string :: closedByCR r.
Proof. destruct r; [congruence|reflexivity]. Qed.

Lemma split_not_nil (c : ascii) (text : string) : JSString.split c text <> [].
Proof.
  destruct text as [|a r]; cbn; [discriminate|].
  destruct (Ascii.eqb a c); [discriminate|]. destruct (JSString.split c r); discriminate.
Qed.

Lemma closedByCR_not_nil (lines : list string) : lines <> [] -> closedByCR lines <> [].
Proof. destruct lines as [|l [|l' r]]; [congruence|discriminate|discriminate]. Qed.

Lemma split_crlf (text : string) :
  JSString.split JSString.LF (crlf text) = closedByCR (JSString.split JSString.LF text).
Proof.
  induction text as [|a r IH]; [reflexivity|].
  cbn [crlf JSString.split]. destruct (Ascii.eqb a JSString.LF) eqn:Ea.
  - change (JSString.split JSString.LF (String JSString.CR (String JSString.LF (crlf r))))
      with (String JSString.CR EmptyString :: JSString.split JSString.LF (crlf r)).
    rewrite IH, (closedByCR_cons _ _ (split_not_nil _ r)). reflexivity.
  - cbn [JSString.split]. rewrite Ea, IH.
    destruct (JSString.split JSString.LF r) as [|h [|h' t]] eqn:Es.
    + exfalso. exact (split_not_nil _ _ Es).
    + reflexivity.
    + reflexivity.
Qed.

Lemma startsWith_data_CR (l : string) :
  JSString.startsWith "data: " (l ++ String JSString.CR EmptyString)%string
  = JSString.startsWith "data: " l.
Proof.
  unfold JSString.startsWith.
  do 6 (destruct l as [|? l]; [reflexivity|];
        cbn [String.append String.prefix]; destruct (ascii_dec _ _); [|reflexivity]).
  rewrite !prefix_nil. reflexivity.
Qed.

(** White space put after a text that parses to anything but a number
    leaves the result as it is. *)
Lemma parse_blank_after (text tail : string) (v : JSValue) :
  JSON.parse text = Some v ->
  JS.is_number v = false ->
  JSON.skip_ws tail = EmptyString ->
  JSON.parse (text ++ tail)%string = Some v.
Proof.
  unfold JSON.parse at 1. intros H Hv Ht.
  destruct (JSON.parse_value (2 * String.length text + 2) text) as [[v' r]|] eqn:E;
    [|discriminate].
  destruct (JSString.isEmpty (JSON.skip_ws r)) eqn:Er; [|discriminate].
  inversion H. subst v'.
  apply (proj1 (parse_app _) _ _ _ tail) in E; [|right; exact Hv].
  rewrite (parse_any_fuel _ _ _ _ E).
  assert (Hr : JSON.skip_ws r = EmptyString)
    by (destruct (JSON.skip_ws r); [reflexivity|discriminate]).
  rewrite (skip_ws_blank _ _ Hr), Ht. reflexivity.
Qed.

Lemma lineEvent_CR (l : string) :
  sound_line l -> lineEvent (l ++ String JSString.CR EmptyString)%string = lineEvent l.
Proof.
  intros Hl. unfold lineEvent. rewrite startsWith_data_CR.
  destruct (JSString.startsWith "data: " l) eqn:Ep; [|reflexivity].
  destruct (Hl Ep) as (v & Hv & Hn).
  rewrite (slice_app 6 l _ (prefix_length _ _ Ep)), Hv.
  apply (parse_blank_after _ _ _ Hv Hn). reflexivity.
Qed.

Lemma eventsOf_closedByCR (lines : list string) :
  Forall sound_line lines -> eventsOf (closedByCR lines) = eventsOf lines.
Proof.
  induction 1 as [|l r Hl Hr IH]; [reflexivity|].
  destruct r as [|l' r']; [reflexivity|].
  change (closedByCR (l :: l' :: r'))
    with ((l ++ String JSString.CR EmptyString)%string :: closedByCR (l' :: r')).
  cbn [eventsOf flat_map]. fold (eventsOf (closedByCR (l' :: r'))). fold (eventsOf (l' :: r')).
  rewrite IH, (lineEvent_CR _ Hl). reflexivity.
Qed.

(** X15.  Line ends of CR LF are read as well as those of LF.  When, in
    every chunk, each [data: ] line has a payload that parses, and not
    to a number, the stream with a carriage return before every line
    feed carries the same events as the stream without, and the send
    ends in the same state. *)
Theorem crlf_stream_is_read_the_same (chunks : list string) :
  Forall (fun chunk => Forall sound_line (JSString.split JSString.LF chunk)) chunks ->
  received (map crlf chunks) = received chunks
  /\ (forall x, streamLoop (map crlf chunks) x = streamLoop chunks x)
  /\ (forall arg fails s,
         sendMessage arg (Responded true (Readable (map crlf chunks) fails)) s
         = sendMessage arg (Responded true (Readable chunks fails)) s).
Proof.
  intros H.
  assert (E : received (map crlf chunks) = received chunks).
  { induction H as [|c r Hc _ IH]; [reflexivity|].
    cbn [map received flat_map]. fold (received (map crlf r)). fold (received r).
    rewrite IH. f_equal. unfold textEvents. rewrite split_crlf.
    apply eventsOf_closedByCR, Hc. }
  split; [exact E|].
  assert (El : forall x, streamLoop (map crlf chunks) x = streamLoop chunks x).
  { clear E. induction H as [|c r Hc _ IH]; intros x; [reflexivity|].
    cbn [map streamLoop fold_left].
    fold (streamLoop (map crlf r) (streamChunk (crlf c) x)).
    fold (streamLoop r (streamChunk c x)).
    rewrite IH, !streamChunk_events. unfold textEvents at 1.
    rewrite split_crlf, (eventsOf_closedByCR _ Hc). reflexivity. }
  split; [exact El|].
  intros arg fails s. unfold sendMessage.
  destruct (match arg with ArgUndefined => ArgString (inputMessage s) | _ => arg end)
    as [|text|]; try reflexivity.
  destruct (JSString.isEmpty (JSString.trim text)); [reflexivity|].
  cbn [attempt]. rewrite El. reflexivity.
Qed.

Lemma crlf_stream_is_read_the_same_witness :
  received [crlf (dataLines ["{'type':'response','content':'Hi'}"; "{'type':'done'}"])]
  = received [dataLines ["{'type':'response','content':'Hi'}"; "{'type':'done'}"]].
Proof.
  refine (proj1 (crlf_stream_is_read_the_same
                   [dataLines ["{'type':'response','content':'Hi'}"; "{'type':'done'}"]] _)).
  repeat constructor; intros H; try discriminate H;
    eexists; split; vm_compute; reflexivity.
Defined.

End Chunking.
